(** * WingsCAD core: NACA airfoil code parsers, geometry and metrics

    A shallow embedding of [core/naca4.py], [core/naca5.py], [core/naca6.py],
    [core/naca7.py] and [core/naca8.py].

    Conventions of the embedding.
    - A Python [str] is a [string], a sequence of Unicode code points
      ([char], a natural number).  The character classes ([str.isspace],
      [str.isdigit], the decimal digits that [int] reads) are those of the
      Unicode Character Database 14.0.0, the one of CPython 3.11.
    - A Python [float] is a [float]: a real number, plus infinity, minus
      infinity or NaN.  The arithmetic on floats is exact on the reals (no
      rounding), overflows to an infinity where binary64 does, and follows
      IEEE 754 on infinities and NaN; the places where Python raises
      ([math.sqrt], [math.asin], division by zero, an overflowing [**]) are
      modelled as raising.
    - The elements of a NumPy [float64] array, and the floats computed from
      the parameters of a code where no infinity can arise (the 4-digit camber
      line, the thickness polynomial), are idealised as real numbers [R]; a
      one-dimensional array is a [list R].
    - A Python [int] is a [Z].
    - Code that can raise lives in the error monad [result]. *)

From Stdlib Require Import Reals Lra Psatz ZArith NArith.
From stdpp Require Import base list gmap.

(** ** Python strings *)

(** A character is its code point. *)
Definition char : Type := N.

Inductive string : Type :=
  | EmptyString
  | String (c : char) (s : string).

(** String literals are read as UTF-8. *)
Module utf8.

(** The payload of a continuation byte. *)
Definition continuation (b : N) : option N :=
  if ((128 <=? b) && (b <? 192))%N then Some (b - 128)%N else None.

Fixpoint decode (fuel : nat) (l : list N) : option string :=
  match fuel, l with
  | _, [] => Some EmptyString
  | O, _ :: _ => None
  | S fuel', b :: l1 =>
      if (b <? 128)%N then String b <$> decode fuel' l1
      else if ((192 <=? b) && (b <? 224))%N then
        match l1 with
        | b1 :: l2 =>
            c1 ← continuation b1;
            String ((b - 192) * 64 + c1)%N <$> decode fuel' l2
        | _ => None
        end
      else if ((224 <=? b) && (b <? 240))%N then
        match l1 with
        | b1 :: b2 :: l3 =>
            c1 ← continuation b1; c2 ← continuation b2;
            String ((b - 224) * 4096 + c1 * 64 + c2)%N <$> decode fuel' l3
        | _ => None
        end
      else if ((240 <=? b) && (b <? 248))%N then
        match l1 with
        | b1 :: b2 :: b3 :: l4 =>
            c1 ← continuation b1; c2 ← continuation b2; c3 ← continuation b3;
            String ((b - 240) * 262144 + c1 * 4096 + c2 * 64 + c3)%N
              <$> decode fuel' l4
        | _ => None
        end
      else None
  end.

Definition encode_char (c : char) : list N :=
  if (c <? 128)%N then [c]
  else if (c <? 2048)%N then [192 + c / 64; 128 + c mod 64]%N
  else if (c <? 65536)%N then
    [224 + c / 4096; 128 + (c / 64) mod 64; 128 + c mod 64]%N
  else [240 + c / 262144; 128 + (c / 4096) mod 64;
        128 + (c / 64) mod 64; 128 + c mod 64]%N.

Fixpoint encode (s : string) : list N :=
  match s with
  | EmptyString => []
  | String c s' => encode_char c ++ encode s'
  end.

Definition string_of_bytes (l : list Byte.byte) : option string :=
  decode (length l) (map Byte.to_N l).

Definition bytes_of_string (s : string) : option (list Byte.byte) :=
  mapM Byte.of_N (encode s).

Definition char_of_bytes (l : list Byte.byte) : option N :=
  match string_of_bytes l with
  | Some (String c EmptyString) => Some c
  | _ => None
  end.

Definition bytes_of_char (c : N) : option (list Byte.byte) :=
  bytes_of_string (String c EmptyString).

End utf8.

Declare Scope str_scope.
Delimit Scope str_scope with string.
Bind Scope str_scope with string.
String Notation string utf8.string_of_bytes utf8.bytes_of_string : str_scope.
Declare Scope chr_scope.
Delimit Scope chr_scope with char.
Bind Scope chr_scope with char.
String Notation N utf8.char_of_bytes utf8.bytes_of_char : chr_scope.
Arguments String c%_char s%_string.

Module String.

Fixpoint length (s : string) : nat :=
  match s with
  | EmptyString => O
  | String _ s' => S (length s')
  end.

Fixpoint get (i : nat) (s : string) : option char :=
  match s, i with
  | EmptyString, _ => None
  | String c _, O => Some c
  | String _ s', S i' => get i' s'
  end.

Fixpoint append (s1 s2 : string) : string :=
  match s1 with
  | EmptyString => s2
  | String c s1' => String c (append s1' s2)
  end.

Fixpoint eqb (s1 s2 : string) : bool :=
  match s1, s2 with
  | EmptyString, EmptyString => true
  | String c1 s1', String c2 s2' => (c1 =? c2)%N && eqb s1' s2'
  | _, _ => false
  end.

Fixpoint to_list (s : string) : list char :=
  match s with
  | EmptyString => []
  | String c s' => c :: to_list s'
  end.

Fixpoint of_list (l : list char) : string :=
  match l with
  | [] => EmptyString
  | c :: l' => String c (of_list l')
  end.

End String.

Infix "++" := String.append : str_scope.

#[export] Instance string_eq_dec : EqDecision string.
Proof. solve_decision. Defined.

#[export] Program Instance string_countable : Countable string :=
  inj_countable' String.to_list String.of_list _.
Next Obligation. intros s. induction s as [|c s IH]; simpl; congruence. Qed.

Local Open Scope str_scope.
Local Open Scope list_scope.
Local Open Scope Z_scope.

(** ** Exceptions and the error monad *)

(** [OutsideModel] is no Python exception: it marks a run in which an
    infinity or a NaN would be stored in a NumPy array, which the arrays of
    this model (lists of reals) cannot hold. *)
Inductive exn : Type :=
  | ValueError (msg : string)
  | IndexError (msg : string)
  | NotImplementedError (msg : string)
  | ZeroDivisionError (msg : string)
  | OverflowError (msg : string)
  | OutsideModel (msg : string).

Inductive result (A : Type) : Type :=
  | Ok (a : A)
  | Raise (e : exn).
Arguments Ok {A} a.
Arguments Raise {A} e.

#[export] Instance result_ret : MRet result := fun A a => Ok a.
#[export] Instance result_bind : MBind result := fun A B f r =>
  match r with Ok a => f a | Raise e => Raise e end.
#[export] Instance result_fmap : FMap result := fun A B f r =>
  match r with Ok a => Ok (f a) | Raise e => Raise e end.

Definition is_Ok {A} (r : result A) : Prop := ∃ a, r = Ok a.

Definition is_ValueError {A} (r : result A) : Prop := ∃ msg, r = Raise (ValueError msg).

(** ** The methods of [str] and the built-in [int] *)

Module pystr.

(** Membership in a table of inclusive ranges of code points. *)
Definition in_range (c : char) (r : N * N) : bool :=
  ((r.1 <=? c) && (c <=? r.2))%N.

Definition in_ranges (t : list (N * N)) (c : char) : bool :=
  existsb (in_range c) t.

(** The code points on which [str.isspace] holds: U+0009 to U+000D,
    U+001C to U+0020, U+0085, U+00A0, U+1680, U+2000 to U+200A, U+2028,
    U+2029, U+202F, U+205F, U+3000. *)
Definition space_ranges : list (N * N) :=
  [(9, 13); (28, 32); (133, 133); (160, 160); (5760, 5760); (8192, 8202);
   (8232, 8233); (8239, 8239); (8287, 8287); (12288, 12288)]%N.

(** No code point lies in a range of both tables. *)
Definition ranges_disjoint (t1 t2 : list (N * N)) : bool :=
  forallb (fun r1 => forallb (fun r2 => (r1.2 <? r2.1) || (r2.2 <? r1.1))%N t2) t1.

(** [str.isspace] on one character. *)
Definition isspace (c : char) : bool := in_ranges space_ranges c.

(** The characters [0] to [9]. *)
Definition is_ascii_digit (c : char) : bool := ((48 <=? c) && (c <=? 57))%N.

(** The digit zero of every run of ten decimal digits (the characters of
    the category Nd); the digit of value [d] is at the zero plus [d]. *)
Definition decimal_zeros : list N :=
  [48; 1632; 1776; 1984; 2406; 2534; 2662; 2790; 2918; 3046; 3174; 3302;
   3430; 3558; 3664; 3792; 3872; 4160; 4240; 6112; 6160; 6470; 6608; 6784;
   6800; 6992; 7088; 7232; 7248; 42528; 43216; 43264; 43472; 43504; 43600;
   44016; 65296; 66720; 68912; 69734; 69872; 69942; 70096; 70384; 70736;
   70864; 71248; 71360; 71472; 71904; 72016; 72784; 73040; 73120; 92768;
   92864; 93008; 120782; 120792; 120802; 120812; 120822; 123200; 123632;
   125264; 130032]%N.

(** The decimal value of a character, for the decimal digits. *)
Definition decimal_value (c : char) : option Z :=
  (fun z => Z.of_N (c - z)) <$>
    find (fun z => (z <=? c) && (c <=? z + 9))%N decimal_zeros.

(** The ten digits of every run. *)
Definition decimal_ranges : list (N * N) :=
  map (fun z => (z, z + 9)%N) decimal_zeros.

(** [str.isdecimal] on one character. *)
Definition isdecimal_char (c : char) : bool :=
  match decimal_value c with Some _ => true | None => false end.

(** The digits that are no decimal digits: superscripts, subscripts,
    circled and parenthesised digits and the like. *)
Definition other_digit_ranges : list (N * N) :=
  [(178, 179); (185, 185); (4969, 4977); (6618, 6618); (8304, 8304);
   (8308, 8313); (8320, 8329); (9312, 9320); (9332, 9340); (9352, 9360);
   (9450, 9450); (9461, 9469); (9471, 9471); (10102, 10110); (10112, 10120);
   (10122, 10130); (68160, 68163); (69216, 69224); (69714, 69722);
   (127232, 127242)]%N.

(** The characters on which [str.isdigit] holds. *)
Definition isdigit_char (c : char) : bool :=
  isdecimal_char c || in_ranges other_digit_ranges c.

Fixpoint all_chars (f : char → bool) (s : string) : bool :=
  match s with
  | EmptyString => true
  | String c s' => f c && all_chars f s'
  end.

(** [s.isdigit()]: every character is a digit and there is at least one. *)
Definition isdigit (s : string) : bool :=
  match s with
  | EmptyString => false
  | _ => all_chars isdigit_char s
  end.

Definition len (s : string) : Z := Z.of_nat (String.length s).

(** Drop the leading characters on which [sp] holds. *)
Fixpoint lstrip (sp : char → bool) (s : string) : string :=
  match s with
  | EmptyString => EmptyString
  | String c s' => if sp c then lstrip sp s' else s
  end.

(** Drop the trailing characters on which [sp] holds. *)
Fixpoint rstrip (sp : char → bool) (s : string) : string :=
  match s with
  | EmptyString => EmptyString
  | String c s' =>
      match rstrip sp s' with
      | EmptyString => if sp c then EmptyString else String c EmptyString
      | r => String c r
      end
  end.

(** [s.strip()] *)
Definition strip (s : string) : string := rstrip isspace (lstrip isspace s).

(** [s[i]] for [i >= 0]. *)
Definition getitem (s : string) (i : nat) : result string :=
  match String.get i s with
  | Some c => Ok (String c EmptyString)
  | None => Raise (IndexError "string index out of range")
  end.

(** [s[i:]] for [i >= 0]. *)
Fixpoint slice_from (s : string) (i : nat) {struct i} : string :=
  match i with
  | O => s
  | S i' =>
      match s with
      | String _ s' => slice_from s' i'
      | EmptyString => EmptyString
      end
  end.

(** The value of an ASCII digit. *)
Definition digit_val (c : char) : Z := Z.of_N c - 48.

(** [int] first rewrites its argument to ASCII: a code point below 127 is
    kept, any other whitespace becomes a blank, any other decimal digit
    becomes the ASCII digit of its value, and everything else becomes a
    character that no integer literal contains. *)
Definition to_ascii (c : char) : char :=
  if (c <? 127)%N then c
  else if isspace c then " "%char
  else match decimal_value c with
       | Some d => (48 + Z.to_N d)%N
       | None => "?"%char
       end.

Fixpoint map_chars (f : char → char) (s : string) : string :=
  match s with
  | EmptyString => EmptyString
  | String c s' => String (f c) (map_chars f s')
  end.

(** The whitespace that the parser of integer literals skips: blank, tab,
    newline, vertical tab, form feed, carriage return. *)
Definition ascii_isspace (c : char) : bool :=
  (((9 <=? c) && (c <=? 13)) || (c =? 32))%N.

(** The digits of an integer literal: decimal digits, with single
    underscores allowed between two digits.  [prev] tells whether the
    previous character was a digit. *)
Fixpoint int_digits (acc : Z) (prev : bool) (s : string) : option Z :=
  match s with
  | EmptyString => if prev then Some acc else None
  | String c s' =>
      if is_ascii_digit c then int_digits (10 * acc + digit_val c) true s'
      else if (c =? "_"%char)%N && prev then
        match s' with
        | EmptyString => None
        | _ => int_digits acc false s'
        end
      else None
  end.

Definition int_error : exn := ValueError "invalid literal for int() with base 10".

(** [int(s)] on a string: the string is rewritten to ASCII, the whitespace
    around the literal is dropped, one sign is allowed.  (The message of the
    real exception goes on with the literal.) *)
Definition int (s : string) : result Z :=
  let s1 := rstrip ascii_isspace (lstrip ascii_isspace (map_chars to_ascii s)) in
  let r :=
    match s1 with
    | String c d =>
        if (c =? "+"%char)%N then int_digits 0 false d
        else if (c =? "-"%char)%N then Z.opp <$> int_digits 0 false d
        else int_digits 0 false s1
    | EmptyString => None
    end in
  match r with
  | Some z => Ok z
  | None => Raise int_error
  end.

(** The value of a string of decimal digits. *)
Fixpoint decimal (acc : Z) (s : string) : Z :=
  match s with
  | EmptyString => acc
  | String c s' => decimal (10 * acc + default 0 (decimal_value c)) s'
  end.

(** [str(z)] on an integer. *)
Fixpoint of_digits (fuel : nat) (n : N) (acc : string) : string :=
  match fuel with
  | O => acc
  | S fuel' =>
      let acc' := String (48 + n mod 10)%N acc in
      if (n <? 10)%N then acc' else of_digits fuel' (n / 10)%N acc'
  end.

Definition of_int (z : Z) : string :=
  match z with
  | Z0 => "0"
  | Zpos p => of_digits (Pos.size_nat p) (Npos p) EmptyString
  | Zneg p => String "-" (of_digits (Pos.size_nat p) (Npos p) EmptyString)
  end.

End pystr.

(** ** Python floats and the [math] module *)

(** A float: a real number, an infinity or NaN.  (The two zeros of binary64
    are one [Finite 0]; no operation below tells them apart.) *)
Inductive float : Type :=
  | Finite (x : R)
  | PosInf
  | NegInf
  | NaN.

Module pyfloat.
Local Open Scope R_scope.

Definition div_error : exn := ZeroDivisionError "float division by zero".
Definition pow_error : exn := OverflowError "(34, 'Numerical result out of range')".
Definition int_error : exn := OverflowError "int too large to convert to float".

(** The least magnitude that binary64 rounds to an infinity:
    [2^1024 - 2^970], half an ulp above the largest float. *)
Definition overflow_bound : R := IZR (2 ^ 1024 - 2 ^ 970).

(** The float of an exact result: the result itself, or an infinity where
    binary64 overflows. *)
Definition round (x : R) : float :=
  if Rle_dec overflow_bound x then PosInf
  else if Rle_dec x (- overflow_bound) then NegInf
  else Finite x.

(** [float(z)], the conversion that [0.05 * P] applies to the integer. *)
Definition of_int (z : Z) : result float :=
  match round (IZR z) with
  | Finite x => Ok (Finite x)
  | _ => Raise int_error
  end.

(** [-a] *)
Definition opp (a : float) : float :=
  match a with
  | Finite x => Finite (- x)
  | PosInf => NegInf
  | NegInf => PosInf
  | NaN => NaN
  end.

(** [a + b] *)
Definition add (a b : float) : float :=
  match a, b with
  | NaN, _ | _, NaN => NaN
  | Finite x, Finite y => round (x + y)
  | PosInf, NegInf | NegInf, PosInf => NaN
  | PosInf, _ | _, PosInf => PosInf
  | NegInf, _ | _, NegInf => NegInf
  end.

(** [a - b] *)
Definition sub (a b : float) : float := add a (opp b).

(** An infinity times or divided by the finite [x]: [positive] is the sign
    of the infinity. *)
Definition inf_times (positive : bool) (x : R) : float :=
  if Req_dec_T x 0 then NaN
  else if Rlt_dec 0 x then (if positive then PosInf else NegInf)
  else (if positive then NegInf else PosInf).

(** [a * b] *)
Definition mul (a b : float) : float :=
  match a, b with
  | NaN, _ | _, NaN => NaN
  | Finite x, Finite y => round (x * y)
  | PosInf, Finite x | Finite x, PosInf => inf_times true x
  | NegInf, Finite x | Finite x, NegInf => inf_times false x
  | PosInf, PosInf | NegInf, NegInf => PosInf
  | PosInf, NegInf | NegInf, PosInf => NegInf
  end.

(** [a / b]: Python raises on a zero divisor, whatever the dividend. *)
Definition div (a b : float) : result float :=
  match b with
  | Finite y =>
      if Req_dec_T y 0 then Raise div_error
      else
        match a with
        | Finite x => Ok (round (x / y))
        | PosInf => Ok (inf_times true y)
        | NegInf => Ok (inf_times false y)
        | NaN => Ok NaN
        end
  | PosInf | NegInf =>
      match a with
      | Finite _ => Ok (Finite 0)
      | _ => Ok NaN
      end
  | NaN => Ok NaN
  end.

(** [a ** n] for an integer literal [n]: an overflow of a finite base
    raises. *)
Definition pow (a : float) (n : nat) : result float :=
  match n with
  | O => Ok (Finite 1)
  | _ =>
      match a with
      | Finite x =>
          match round (x ^ n) with
          | Finite y => Ok (Finite y)
          | _ => Raise pow_error
          end
      | PosInf => Ok PosInf
      | NegInf => Ok (if Nat.even n then PosInf else NegInf)
      | NaN => Ok NaN
      end
  end.

(** [abs(a)] *)
Definition abs (a : float) : float :=
  match a with
  | Finite x => Finite (Rabs x)
  | PosInf | NegInf => PosInf
  | NaN => NaN
  end.

(** [a > b]: false as soon as one side is NaN. *)
Definition gt (a b : float) : bool :=
  match a, b with
  | NaN, _ | _, NaN => false
  | Finite x, Finite y => if Rgt_dec x y then true else false
  | PosInf, PosInf => false
  | PosInf, _ => true
  | _, PosInf => false
  | NegInf, _ => false
  | _, NegInf => true
  end.

End pyfloat.

Module pymath.
Local Open Scope R_scope.

Definition domain_error : exn := ValueError "math domain error".
Definition div_error : exn := pyfloat.div_error.

(** [a / b] on two floats that are finite, with a finite quotient. *)
Definition div (a b : R) : result R :=
  if Req_dec_T b 0 then Raise div_error else Ok (a / b).

(** [math.sqrt(a)]: NaN and infinity go through, a negative number raises. *)
Definition sqrt (a : float) : result float :=
  match a with
  | Finite x => if Rlt_dec x 0 then Raise domain_error else Ok (Finite (R_sqrt.sqrt x))
  | PosInf => Ok PosInf
  | NegInf => Raise domain_error
  | NaN => Ok NaN
  end.

(** [math.asin(a)]: NaN goes through, everything outside [-1, 1] raises. *)
Definition asin (a : float) : result float :=
  match a with
  | Finite x =>
      if Rlt_dec x (-1) then Raise domain_error
      else if Rlt_dec 1 x then Raise domain_error
      else Ok (Finite (Ratan.asin x))
  | PosInf | NegInf => Raise domain_error
  | NaN => Ok NaN
  end.

End pymath.

(** ** NumPy arrays *)

Module np.
Local Open Scope R_scope.

Definition linspace_error (num : Z) : exn :=
  ValueError ("Number of samples, " ++ pystr.of_int num ++ ", must be non-negative.").
Definition max_error : exn :=
  ValueError "zero-size array to reduction operation maximum which has no identity".
Definition dot_error : exn := ValueError "shapes not aligned".

(** [np.linspace(start, stop, num)]: [num] equally spaced samples, the end
    point included; the last sample is set to [stop] itself. *)
Definition linspace (start stop : R) (num : Z) : result (list R) :=
  if (num <? 0)%Z then Raise (linspace_error num)
  else
    match Z.to_nat num with
    | O => Ok []
    | S O => Ok [start]
    | S div =>
        let step := (stop - start) / INR div in
        Ok (map (fun i => INR i * step + start) (seq 0 div) ++ [stop])
    end.

(** [np.max(a)] *)
Definition max (a : list R) : result R :=
  match a with
  | [] => Raise max_error
  | v :: a' => Ok (foldl Rmax v a')
  end.

(** [np.roll(a, -1)] *)
Definition roll_left (a : list R) : list R := drop 1 a ++ take 1 a.

Definition sum (a : list R) : R := foldr Rplus 0 a.

(** [np.dot(a, b)] on two one-dimensional arrays. *)
Definition dot (a b : list R) : result R :=
  if decide (length a = length b) then Ok (sum (zip_with Rmult a b))
  else Raise dot_error.

(** [np.concatenate([u[::-1], l[1:]])] *)
Definition closed_loop (u l : list R) : list R := reverse u ++ drop 1 l.

End np.

(** ** Values of the metrics dictionaries *)

Inductive value : Type :=
  | VStr (s : string)
  | VInt (z : Z)
  | VFloat (r : R).

(** What every [generate_naca*_full] returns:
    [(x_loop, y_loop, x_c, yc, metrics)]. *)
Record full_result : Type := FullResult {
  x_loop : list R;
  y_loop : list R;
  x_c : list R;
  yc : list R;
  metrics : gmap string value
}.

(** What every [generate_geometry] returns:
    [(x_loop, y_loop, x_c, yc, x, yt)]. *)
Record geometry : Type := Geometry {
  g_x_loop : list R;
  g_y_loop : list R;
  g_x_c : list R;
  g_yc : list R;
  g_x : list R;
  g_yt : list R
}.

(** ** Parts that the families share word for word *)

Module common.
Local Open Scope R_scope.

Definition spacing_error : exn := ValueError "spacing must be 'cosine' or 'linear'.".

(** The chordwise sample positions (the [x] of every [generate_geometry]). *)
Definition sample_x (n_points : Z) (spacing : string) : result (list R) :=
  if decide (spacing = "cosine") then
    beta ← np.linspace 0 PI n_points;
    mret (map (fun b => (1 - cos b) / 2) beta)
  else if decide (spacing = "linear") then
    np.linspace 0 1 n_points
  else Raise spacing_error.

(** The half thickness at one sample.  ([np.sqrt] is applied to samples in
    [0, 1] only, where it is the real square root.) *)
Definition thickness_at (t x : R) : R :=
  5 * t * (0.2969 * sqrt x - 0.1260 * x - 0.3516 * x ^ 2
           + 0.2843 * x ^ 3 - 0.1015 * x ^ 4).

(** [yt] *)
Definition thickness (t : R) (x : list R) : list R := map (thickness_at t) x.

(** The upper and lower surfaces from the samples, the thickness, the
    camber and the surface angle: [(xu, yu, xl, yl)]. *)
Record surfaces : Type := Surfaces {
  xu : list R; yu : list R; xl : list R; yl : list R
}.

(** [xu = x - yt*sin(theta)], [yu = yc + yt*cos(theta)],
    [xl = x + yt*sin(theta)], [yl = yc - yt*cos(theta)], element by element
    (all four arrays have the length of [x]). *)
Definition surfaces_of (x yt yc theta : list R) : surfaces :=
  {| xu := zip_with Rminus x (zip_with Rmult yt (map sin theta));
     yu := zip_with Rplus yc (zip_with Rmult yt (map cos theta));
     xl := zip_with Rplus x (zip_with Rmult yt (map sin theta));
     yl := zip_with Rminus yc (zip_with Rmult yt (map cos theta)) |}.

(** A [for] loop that fills an array and stops at the first exception. *)
Fixpoint for_each {A B : Type} (f : A → result B) (l : list A) : result (list B) :=
  match l with
  | [] => Ok []
  | a :: l' => b ← f a; bs ← for_each f l'; mret (b :: bs)
  end.

(** The shoelace area of [compute_metrics]. *)
Definition shoelace (x_loop y_loop : list R) : result R :=
  a ← np.dot x_loop (np.roll_left y_loop);
  b ← np.dot y_loop (np.roll_left x_loop);
  mret (0.5 * Rabs (a - b)).

(** [x_loop, y_loop] from the two surfaces, with [x_loop *= c]. *)
Definition assemble (s : surfaces) (c : R) : list R * list R :=
  (map (fun v => v * c) (np.closed_loop (xu s) (xl s)),
   np.closed_loop (yu s) (yl s)).

End common.

(** ** core/naca4.py *)

Module naca4.
Local Open Scope R_scope.

Record NACA4Params : Type := {
  code : string;
  m : R;
  p : R;
  t : R;
  chord : R
}.

Definition format_error : exn :=
  ValueError "NACA 4-digit code must be 4 digits, e.g. '2412'.".

Definition parse_naca4 (code0 : string) (chord0 : R) : result NACA4Params :=
  let s := pystr.strip code0 in
  if negb (pystr.len s =? 4)%Z || negb (pystr.isdigit s) then Raise format_error
  else
    c0 ← pystr.getitem s 0; d0 ← pystr.int c0;
    c1 ← pystr.getitem s 1; d1 ← pystr.int c1;
    d2 ← pystr.int (pystr.slice_from s 2);
    mret {| code := s; m := IZR d0 / 100; p := IZR d1 / 10;
            t := IZR d2 / 100; chord := chord0 |}.

(** One turn of the camber loop: [(yc[i], dyc_dx[i])]. *)
Definition camber_at (m0 p0 xi : R) : result (R * R) :=
  if Rlt_dec xi p0 then
    a ← pymath.div m0 (p0 ^ 2);
    b ← pymath.div (2 * m0) (p0 ^ 2);
    mret (a * (2 * p0 * xi - xi ^ 2), b * (p0 - xi))
  else
    a ← pymath.div m0 ((1 - p0) ^ 2);
    b ← pymath.div (2 * m0) ((1 - p0) ^ 2);
    mret (a * ((1 - 2 * p0) + 2 * p0 * xi - xi ^ 2), b * (p0 - xi)).

(** The camber line and its slope: [(yc, dyc_dx)]. *)
Definition camber (m0 p0 : R) (x : list R) : result (list R * list R) :=
  if Req_dec_T p0 0 then
    Ok (map (fun _ => 0) x, map (fun _ => 0) x)
  else
    l ← common.for_each (camber_at m0 p0) x;
    mret (map fst l, map snd l).

(** The body of [generate_geometry] up to the two surfaces:
    [(x, yt, yc, surfaces)]. *)
Definition generate_surfaces (params : NACA4Params) (n_points : Z) (spacing : string)
  : result (list R * list R * list R * common.surfaces) :=
  x ← common.sample_x n_points spacing;
  let yt := common.thickness (t params) x in
  cd ← camber (m params) (p params) x;
  let theta := map atan cd.2 in
  mret (x, yt, cd.1, common.surfaces_of x yt cd.1 theta).

Definition generate_geometry (params : NACA4Params) (n_points : Z) (spacing : string)
  : result geometry :=
  r ← generate_surfaces params n_points spacing;
  let '(x, yt, yc0, s) := r in
  let c := chord params in
  let xy := common.assemble s c in
  mret (Geometry xy.1 xy.2 (map (fun v => v * c) x) yc0 x yt).

Definition compute_metrics (params : NACA4Params)
    (x_loop0 y_loop0 x yc0 yt : list R) : result (gmap string value) :=
  mt ← np.max (map (Rmult 2) yt);
  let max_thickness := mt * chord params in
  mc ← np.max (map Rabs yc0);
  let max_camber := mc * chord params in
  area ← common.shoelace x_loop0 y_loop0;
  let r_le := 1.1019 * (t params ^ 2) * chord params in
  mret (list_to_map [
    ("code", VStr (code params));
    ("m", VFloat (m params));
    ("p", VFloat (p params));
    ("t", VFloat (t params));
    ("chord", VFloat (chord params));
    ("max_thickness", VFloat max_thickness);
    ("max_camber", VFloat max_camber);
    ("area", VFloat area);
    ("leading_edge_radius", VFloat r_le)]).

Definition generate_naca4_full (code0 : string) (chord0 : R) (n_points : Z)
    (spacing : string) : result full_result :=
  params ← parse_naca4 code0 chord0;
  g ← generate_geometry params n_points spacing;
  metrics0 ← compute_metrics params (g_x_loop g) (g_y_loop g) (g_x g) (g_yc g) (g_yt g);
  mret (FullResult (g_x_loop g) (g_y_loop g) (g_x_c g) (g_yc g) metrics0).

End naca4.

(** ** core/naca5.py *)

Module naca5.
Local Open Scope R_scope.

Record NACA5Params : Type := {
  code : string;
  L : Z;
  P : Z;
  Q : Z;
  t : R;
  chord : R
}.

Definition format_error : exn :=
  ValueError "NACA 5-digit code must be 5 digits, e.g. '23012'.".
Definition q_error : exn :=
  ValueError "Third digit (Q) must be 0 (standard) or 1 (reflex).".
Definition reflex_error : exn :=
  NotImplementedError "Reflexed NACA 5-digit (Q=1) not implemented yet.".

Definition parse_naca5 (code0 : string) (chord0 : R) : result NACA5Params :=
  let s := pystr.strip code0 in
  if negb (pystr.len s =? 5)%Z || negb (pystr.isdigit s) then Raise format_error
  else
    c0 ← pystr.getitem s 0; l0 ← pystr.int c0;
    c1 ← pystr.getitem s 1; p0 ← pystr.int c1;
    c2 ← pystr.getitem s 2; q0 ← pystr.int c2;
    d ← pystr.int (pystr.slice_from s 3);
    if negb ((q0 =? 0)%Z || (q0 =? 1)%Z) then Raise q_error
    else mret {| code := s; L := l0; P := p0; Q := q0;
                 t := IZR d / 100; chord := chord0 |}.

(** The variables of the loop of [_compute_r_standard]. *)
Record solver_state : Type := SolverState {
  r_old : float;
  diff : float;
  it : Z
}.

(** The loop [while diff > tol and it < max_iter].  [fuel] bounds the
    recursion: [max_iter] turns are all that the counter [it] allows. *)
Fixpoint r_loop (xmc tol : float) (max_iter : Z) (fuel : nat) (st : solver_state)
  : result solver_state :=
  match fuel with
  | O => Ok st
  | S fuel' =>
      if pyfloat.gt (diff st) tol && (it st <? max_iter)%Z then
        q ← pyfloat.div (r_old st) (Finite 3);
        s ← pymath.sqrt q;
        let r := pyfloat.add xmc (pyfloat.mul (r_old st) s) in
        r_loop xmc tol max_iter fuel'
          {| r_old := r; diff := pyfloat.abs (pyfloat.sub r (r_old st));
             it := (it st + 1)%Z |}
      else Ok st
  end.

(** The state in which the loop is entered. *)
Definition solver_init : solver_state :=
  {| r_old := Finite 0.1; diff := Finite 1; it := 0%Z |}.

(** The state in which the loop of [_compute_r_standard] is left. *)
Definition solver_run (xmc tol : float) (max_iter : Z) : result solver_state :=
  r_loop xmc tol max_iter (Z.to_nat max_iter) solver_init.

Definition _compute_r_standard (xmc tol : float) (max_iter : Z) : result float :=
  st ← solver_run xmc tol max_iter;
  mret (r_old st).

(** [N(r)], the variable [N] of [_compute_k1_standard].  The expression is
    evaluated from left to right: the powers of the numerator, the square
    root, the quotient, then the arcsine. *)
Definition N_of_r (r : float) : result float :=
  r2 ← pyfloat.pow r 2;
  r3 ← pyfloat.pow r 3;
  r4 ← pyfloat.pow r 4;
  let num :=
    pyfloat.sub
      (pyfloat.add
         (pyfloat.sub (pyfloat.mul (Finite 3) r) (pyfloat.mul (Finite 7) r2))
         (pyfloat.mul (Finite 8) r3))
      (pyfloat.mul (Finite 4) r4) in
  r2' ← pyfloat.pow r 2;
  s ← pymath.sqrt (pyfloat.sub r r2');
  q ← pyfloat.div num s;
  let c := pyfloat.sub (Finite 1) (pyfloat.mul (Finite 2) r) in
  h ← pyfloat.div (Finite PI) (Finite 2);
  a ← pymath.asin c;
  mret (pyfloat.sub q
          (pyfloat.mul (pyfloat.mul (Finite 1.5) c) (pyfloat.sub h a))).

Definition _compute_k1_standard (l0 : Z) (r : float) : result float :=
  l ← pyfloat.of_int l0;
  let cli := pyfloat.mul (Finite 0.15) l in
  n ← N_of_r r;
  pyfloat.div (pyfloat.mul (Finite 6) cli) n.

(** One turn of the camber loop: [(yc[i], dyc_dx[i])]. *)
Definition camber_at (k1 r xi : R) : R * R :=
  if Rlt_dec xi r then
    ((k1 / 6) * (xi ^ 3 - 3 * r * xi ^ 2 + r ^ 2 * (3 - r) * xi),
     (k1 / 6) * (3 * xi ^ 2 - 6 * r * xi + r ^ 2 * (3 - r)))
  else
    ((k1 * r ^ 3 / 6) * (1 - xi), - (k1 * r ^ 3 / 6)).

(** The default arguments of [_compute_r_standard]. *)
Definition tol_default : R := 1e-6.
Definition max_iter_default : Z := 1000.

Definition non_finite : exn :=
  OutsideModel "an infinity or NaN would be stored in the camber arrays".

(** The camber loop over the samples: [[(yc[i], dyc_dx[i])]].  It computes
    with [k1] and [r] only when there is a sample. *)
Definition camber (k1 r : float) (x : list R) : result (list (R * R)) :=
  match x with
  | [] => Ok []
  | _ =>
      match k1, r with
      | Finite k, Finite r' => Ok (map (camber_at k r') x)
      | _, _ => Raise non_finite
      end
  end.

Definition generate_surfaces (params : NACA5Params) (n_points : Z) (spacing : string)
  : result (list R * list R * list R * common.surfaces) :=
  if (Q params =? 1)%Z then Raise reflex_error
  else
    x ← common.sample_x n_points spacing;
    let yt := common.thickness (t params) x in
    p ← pyfloat.of_int (P params);
    let xmc := pyfloat.mul (Finite 0.05) p in
    r ← _compute_r_standard xmc (Finite tol_default) max_iter_default;
    k1 ← _compute_k1_standard (L params) r;
    cd ← camber k1 r x;
    let theta := map atan (map snd cd) in
    mret (x, yt, map fst cd, common.surfaces_of x yt (map fst cd) theta).

Definition generate_geometry (params : NACA5Params) (n_points : Z) (spacing : string)
  : result geometry :=
  r ← generate_surfaces params n_points spacing;
  let '(x, yt, yc0, s) := r in
  let c := chord params in
  let xy := common.assemble s c in
  mret (Geometry xy.1 xy.2 (map (fun v => v * c) x) yc0 x yt).

Definition compute_metrics (params : NACA5Params)
    (x_loop0 y_loop0 x yc0 yt : list R) : result (gmap string value) :=
  mt ← np.max (map (Rmult 2) yt);
  let max_thickness := mt * chord params in
  mc ← np.max (map Rabs yc0);
  let max_camber := mc * chord params in
  area ← common.shoelace x_loop0 y_loop0;
  let r_le := 1.1019 * (t params ^ 2) * chord params in
  mret (list_to_map [
    ("code", VStr (code params));
    ("L", VInt (L params));
    ("P", VInt (P params));
    ("Q", VInt (Q params));
    ("t", VFloat (t params));
    ("chord", VFloat (chord params));
    ("max_thickness", VFloat max_thickness);
    ("max_camber", VFloat max_camber);
    ("area", VFloat area);
    ("leading_edge_radius", VFloat r_le)]).

Definition generate_naca5_full (code0 : string) (chord0 : R) (n_points : Z)
    (spacing : string) : result full_result :=
  params ← parse_naca5 code0 chord0;
  g ← generate_geometry params n_points spacing;
  metrics0 ← compute_metrics params (g_x_loop g) (g_y_loop g) (g_x g) (g_yc g) (g_yt g);
  mret (FullResult (g_x_loop g) (g_y_loop g) (g_x_c g) (g_yc g) metrics0).

End naca5.

(** ** core/naca6.py *)

Module naca6.
Local Open Scope R_scope.

Record NACA6Params : Type := {
  code : string;
  pos_min_pressure : Z;
  design_cl : R;
  thickness : R;
  chord : R
}.

Definition format_error : exn :=
  ValueError "NACA 6-series format: e.g. '63-018', '65-415'.".

Definition parse_naca6 (code0 : string) (chord0 : R) : result NACA6Params :=
  let s := pystr.strip code0 in
  if negb (pystr.len s =? 6)%Z then Raise format_error
  else
    c0 ← pystr.getitem s 0;
    if negb (String.eqb c0 "6") then Raise format_error
    else
      c2 ← pystr.getitem s 2;
      if negb (String.eqb c2 "-") then Raise format_error
      else
        c1 ← pystr.getitem s 1; pos_min ← pystr.int c1;
        c3 ← pystr.getitem s 3; cl_digit ← pystr.int c3;
        d ← pystr.int (pystr.slice_from s 4);
        mret {| code := s; pos_min_pressure := pos_min;
                design_cl := IZR cl_digit / 10;
                thickness := IZR d / 100; chord := chord0 |}.

Definition generate_surfaces (params : NACA6Params) (n_points : Z) (spacing : string)
  : result (list R * list R * list R * common.surfaces) :=
  x ← common.sample_x n_points spacing;
  let yt := common.thickness (thickness params) x in
  let yc0 := map (fun _ => 0) x in
  mret (x, yt, yc0,
        {| common.xu := x; common.yu := yt; common.xl := x; common.yl := map Ropp yt |}).

Definition generate_geometry (params : NACA6Params) (n_points : Z) (spacing : string)
  : result geometry :=
  r ← generate_surfaces params n_points spacing;
  let '(x, yt, yc0, s) := r in
  let c := chord params in
  let xy := common.assemble s c in
  mret (Geometry xy.1 xy.2 (map (fun v => v * c) x) yc0 x yt).

Definition compute_metrics (params : NACA6Params)
    (x_loop0 y_loop0 x yc0 yt : list R) : result (gmap string value) :=
  mt ← np.max (map (Rmult 2) yt);
  let max_thickness := mt * chord params in
  mc ← np.max (map Rabs yc0);
  let max_camber := mc * chord params in
  area ← common.shoelace x_loop0 y_loop0;
  let r_le := 1.1019 * (thickness params ^ 2) * chord params in
  mret (list_to_map [
    ("code", VStr (code params));
    ("pos_min_pressure", VInt (pos_min_pressure params));
    ("design_cl", VFloat (design_cl params));
    ("thickness", VFloat (thickness params));
    ("chord", VFloat (chord params));
    ("max_thickness", VFloat max_thickness);
    ("max_camber", VFloat max_camber);
    ("area", VFloat area);
    ("leading_edge_radius", VFloat r_le)]).

Definition generate_naca6_full (code0 : string) (chord0 : R) (n_points : Z)
    (spacing : string) : result full_result :=
  params ← parse_naca6 code0 chord0;
  g ← generate_geometry params n_points spacing;
  metrics0 ← compute_metrics params (g_x_loop g) (g_y_loop g) (g_x g) (g_yc g) (g_yt g);
  mret (FullResult (g_x_loop g) (g_y_loop g) (g_x_c g) (g_yc g) metrics0).

End naca6.

(** ** core/naca7.py *)

Module naca7.

Record NACA7Params : Type := {
  code : string;
  base4 : string;
  chord : R
}.

Definition numeric_error : exn :=
  ValueError "NACA 7-series: en az 4 haneli numeric kod bekleniyor, örn. '7412'.".
Definition prefix_error : exn :=
  ValueError "NACA 7-series kodu 7 ile başlamalı.".
Definition base4_error : exn :=
  ValueError "Şimdilik '7' + 4-digit formatı destekleniyor, örn. 7412, 7309 vb.".

Definition note : string :=
  "Geometry generated using NACA 4-digit equivalent of 7-series code.".

Definition parse_naca7 (code0 : string) (chord0 : R) : result NACA7Params :=
  let s := pystr.strip code0 in
  if (pystr.len s <? 4)%Z || negb (pystr.isdigit s) then Raise numeric_error
  else
    c0 ← pystr.getitem s 0;
    if negb (String.eqb c0 "7") then Raise prefix_error
    else
      let b := pystr.slice_from s 1 in
      if negb (pystr.len b =? 4)%Z then Raise base4_error
      else mret {| code := s; base4 := b; chord := chord0 |}.

Definition generate_naca7_full (code0 : string) (chord0 : R) (n_points : Z)
    (spacing : string) : result full_result :=
  params ← parse_naca7 code0 chord0;
  r4 ← naca4.generate_naca4_full (base4 params) chord0 n_points spacing;
  let metrics0 :=
    <["note" := VStr note]> (<["code" := VStr (code params)]> (metrics r4)) in
  mret (FullResult (x_loop r4) (y_loop r4) (x_c r4) (yc r4) metrics0).

End naca7.

(** ** core/naca8.py *)

Module naca8.

Record NACA8Params : Type := {
  code : string;
  base4 : string;
  chord : R
}.

Definition numeric_error : exn :=
  ValueError "NACA 8-series: en az 4 haneli numeric kod bekleniyor, örn. '8412'.".
Definition prefix_error : exn :=
  ValueError "NACA 8-series kodu 8 ile başlamalı.".
Definition base4_error : exn :=
  ValueError "Şimdilik '8' + 4-digit formatı destekleniyor, örn. 8412, 8309 vb.".

Definition note : string :=
  "Geometry generated using NACA 4-digit equivalent of 8-series code.".

Definition parse_naca8 (code0 : string) (chord0 : R) : result NACA8Params :=
  let s := pystr.strip code0 in
  if (pystr.len s <? 4)%Z || negb (pystr.isdigit s) then Raise numeric_error
  else
    c0 ← pystr.getitem s 0;
    if negb (String.eqb c0 "8") then Raise prefix_error
    else
      let b := pystr.slice_from s 1 in
      if negb (pystr.len b =? 4)%Z then Raise base4_error
      else mret {| code := s; base4 := b; chord := chord0 |}.

Definition generate_naca8_full (code0 : string) (chord0 : R) (n_points : Z)
    (spacing : string) : result full_result :=
  params ← parse_naca8 code0 chord0;
  r4 ← naca4.generate_naca4_full (base4 params) chord0 n_points spacing;
  let metrics0 :=
    <["note" := VStr note]> (<["code" := VStr (code params)]> (metrics r4)) in
  mret (FullResult (x_loop r4) (y_loop r4) (x_c r4) (yc r4) metrics0).

End naca8.

(** ** The family facade

    The five [generate_<family>_full] entry points, selected by family as
    [_on_generate_clicked] of [wingscad_ui.py] selects them. *)

Inductive family : Type := NACA4 | NACA5 | NACA6 | NACA7 | NACA8.

Inductive parsed : Type :=
  | P4 (q : naca4.NACA4Params)
  | P5 (q : naca5.NACA5Params)
  | P6 (q : naca6.NACA6Params)
  | P7 (q : naca7.NACA7Params)
  | P8 (q : naca8.NACA8Params).

Definition parse (fam : family) (code0 : string) (chord0 : R) : result parsed :=
  match fam with
  | NACA4 => P4 <$> naca4.parse_naca4 code0 chord0
  | NACA5 => P5 <$> naca5.parse_naca5 code0 chord0
  | NACA6 => P6 <$> naca6.parse_naca6 code0 chord0
  | NACA7 => P7 <$> naca7.parse_naca7 code0 chord0
  | NACA8 => P8 <$> naca8.parse_naca8 code0 chord0
  end.

(** The [code] field of a parameter record. *)
Definition parsed_code (q : parsed) : string :=
  match q with
  | P4 q => naca4.code q
  | P5 q => naca5.code q
  | P6 q => naca6.code q
  | P7 q => naca7.code q
  | P8 q => naca8.code q
  end.

Definition generate_full (fam : family) (code0 : string) (chord0 : R)
    (n_points : Z) (spacing : string) : result full_result :=
  match fam with
  | NACA4 => naca4.generate_naca4_full code0 chord0 n_points spacing
  | NACA5 => naca5.generate_naca5_full code0 chord0 n_points spacing
  | NACA6 => naca6.generate_naca6_full code0 chord0 n_points spacing
  | NACA7 => naca7.generate_naca7_full code0 chord0 n_points spacing
  | NACA8 => naca8.generate_naca8_full code0 chord0 n_points spacing
  end.

(** The upper and lower surfaces that a family computes for a code: the
    parser of the family followed by its [generate_geometry] up to the
    surfaces (for the 7- and 8-series, those of the 4-digit code [base4]). *)
Definition family_surfaces (fam : family) (code0 : string) (chord0 : R)
    (n_points : Z) (spacing : string) : result common.surfaces :=
  match fam with
  | NACA4 =>
      q ← naca4.parse_naca4 code0 chord0;
      r ← naca4.generate_surfaces q n_points spacing; mret r.2
  | NACA5 =>
      q ← naca5.parse_naca5 code0 chord0;
      r ← naca5.generate_surfaces q n_points spacing; mret r.2
  | NACA6 =>
      q ← naca6.parse_naca6 code0 chord0;
      r ← naca6.generate_surfaces q n_points spacing; mret r.2
  | NACA7 =>
      q7 ← naca7.parse_naca7 code0 chord0;
      q ← naca4.parse_naca4 (naca7.base4 q7) chord0;
      r ← naca4.generate_surfaces q n_points spacing; mret r.2
  | NACA8 =>
      q8 ← naca8.parse_naca8 code0 chord0;
      q ← naca4.parse_naca4 (naca8.base4 q8) chord0;
      r ← naca4.generate_surfaces q n_points spacing; mret r.2
  end.

(** ** Reference decoders, written from the wording of the specification *)

(** "Exactly 4 ASCII digits: digit 1, digit 2, digits 3-4". *)
Definition ascii_digits4 (s : string) : option (Z * Z * Z) :=
  match s with
  | String a (String b (String c (String d EmptyString))) =>
      if pystr.is_ascii_digit a && pystr.is_ascii_digit b
         && pystr.is_ascii_digit c && pystr.is_ascii_digit d
      then Some (pystr.digit_val a, pystr.digit_val b,
                 10 * pystr.digit_val c + pystr.digit_val d)
      else None
  | _ => None
  end.

(** Four decimal digits, ASCII or not, with their values: what the 4-digit
    parser reads. *)
Definition decimal_digits4 (s : string) : option (Z * Z * Z) :=
  match s with
  | String a (String b (String c (String d EmptyString))) =>
      da ← pystr.decimal_value a; db ← pystr.decimal_value b;
      dc ← pystr.decimal_value c; dd ← pystr.decimal_value d;
      Some (da, db, 10 * dc + dd)
  | _ => None
  end.

(** The geometry part of a full result: closed contour and camber line. *)
Definition geometry_of (r : full_result) : list R * list R * list R * list R :=
  (x_loop r, y_loop r, x_c r, yc r).

(** The record of a code of four decimal digits, the whitespace around the
    code dropped first as the parser does. *)
Definition naca4_decode (code0 : string) (chord0 : R) : option naca4.NACA4Params :=
  match decimal_digits4 (pystr.strip code0) with
  | Some (d1, d2, d34) =>
      Some {| naca4.code := pystr.strip code0;
              naca4.m := (IZR d1 / 100)%R;
              naca4.p := (IZR d2 / 10)%R;
              naca4.t := (IZR d34 / 100)%R;
              naca4.chord := chord0 |}
  | None => None
  end.

(** ** Auxiliary definitions for the statements *)

Module aux.
Import common naca4.
Local Open Scope R_scope.

(** What it means for a full result to hold the contour assembled from the
    two surfaces [sf], each of [n] samples, at chord [c]. *)
Definition assembled (c : R) (n : nat) (sf : surfaces) (out : full_result) : Prop :=
  length (xu sf) = n ∧ length (yu sf) = n
  ∧ length (xl sf) = n ∧ length (yl sf) = n
  ∧ x_loop out = map (fun v => v * c) (reverse (xu sf) ++ drop 1 (xl sf))
  ∧ y_loop out = reverse (yu sf) ++ drop 1 (yl sf).

(** The inputs on which a family returns a contour: a code that its parser
    accepts; for the 5-digit family one with the standard camber line and a
    [P] digit from 1 to 8; for the 7- and 8-series one whose [base4] the
    4-digit parser accepts. *)
Definition generates (fam : family) (code0 : string) (chord0 : R) : Prop :=
  match fam with
  | NACA4 => is_Ok (naca4.parse_naca4 code0 chord0)
  | NACA5 =>
      ∃ q, naca5.parse_naca5 code0 chord0 = Ok q
           ∧ naca5.Q q = 0%Z ∧ (1 ≤ naca5.P q ≤ 8)%Z
  | NACA6 => is_Ok (naca6.parse_naca6 code0 chord0)
  | NACA7 =>
      ∃ q, naca7.parse_naca7 code0 chord0 = Ok q
           ∧ is_Ok (naca4.parse_naca4 (naca7.base4 q) chord0)
  | NACA8 =>
      ∃ q, naca8.parse_naca8 code0 chord0 = Ok q
           ∧ is_Ok (naca4.parse_naca4 (naca8.base4 q) chord0)
  end.

(** The record of a code at another chord. *)
Definition with_chord (q : NACA4Params) (c : R) : NACA4Params :=
  {| code := code q; m := m q; p := p q; t := t q; chord := c |}.

(** The shoelace sum before the absolute value and the factor 1/2. *)
Definition signed_sum (xs ys : list R) : R :=
  np.sum (zip_with Rmult xs (np.roll_left ys))
  - np.sum (zip_with Rmult ys (np.roll_left xs)).

(** The full result in terms of the surfaces and of the two maxima. *)
Definition full_of (q : NACA4Params) (c : R) (x yc0 : list R) (sf : surfaces)
    (mt mc : R) : full_result :=
  let xs := np.closed_loop (xu sf) (xl sf) in
  let ys := np.closed_loop (yu sf) (yl sf) in
  FullResult (map (fun v => v * c) xs) ys (map (fun v => v * c) x) yc0
    (list_to_map [
      ("code", VStr (code q)); ("m", VFloat (m q)); ("p", VFloat (p q));
      ("t", VFloat (t q)); ("chord", VFloat c);
      ("max_thickness", VFloat (mt * c)); ("max_camber", VFloat (mc * c));
      ("area", VFloat (Rabs c * (0.5 * Rabs (signed_sum xs ys))));
      ("leading_edge_radius", VFloat (1.1019 * (t q ^ 2) * c))]).

End aux.

(** The fixed-point iteration as the specification words it: [r = 0.1] at the
    start, then [r_new = xmc + r_old * sqrt (r_old / 3)]. *)
Fixpoint r_iter (xmc : R) (k : nat) : R :=
  match k with
  | O => 0.1
  | S k' => xmc + r_iter xmc k' * R_sqrt.sqrt (r_iter xmc k' / 3)
  end.

(** The state of the solver after [k] turns in which nothing overflowed,
    with the difference [d]. *)
Definition solver_at (xmc : R) (k : nat) (d : R) : naca5.solver_state :=
  {| naca5.r_old := Finite (r_iter xmc k); naca5.diff := Finite d;
     naca5.it := Z.of_nat k |}.

(** [N(r)] on the reals. *)
Definition N_exact (r : R) : R :=
  (3 * r - 7 * r ^ 2 + 8 * r ^ 3 - 4 * r ^ 4) / R_sqrt.sqrt (r - r ^ 2)
  - 1.5 * (1 - 2 * r) * (PI / 2 - Ratan.asin (1 - 2 * r)).

(** The gap between the arc tangent and a rational bound of it, and the
    slope of the gap; the gap grows, which bounds [N(r)] from below. *)
Definition atan_gap (t : R) : R :=
  t - t ^ 3 / (3 * (1 + t ^ 2)) - atan t - t ^ 6 / (3 * (1 + t ^ 2) ^ 3).

Definition atan_gap_slope (t : R) : R :=
  1 - (3 * t ^ 2 * (3 * (1 + t ^ 2)) - 6 * t * t ^ 3) / (3 * (1 + t ^ 2))²
    - / (1 + t ^ 2)
    - (6 * t ^ 5 * (3 * (1 + t ^ 2) ^ 3) - 18 * t * (1 + t ^ 2) ^ 2 * t ^ 6)
      / (3 * (1 + t ^ 2) ^ 3)².

(** [|r_new - r_old|] at the [k]-th turn, [k >= 1]. *)
Definition step_size (xmc : R) (k : nat) : R :=
  Rabs (r_iter xmc k - r_iter xmc (pred k)).

(** The difference that decides whether the loop goes on from turn [j],
    when it was entered at turn [i] with [diff]. *)
Definition diff_at (xmc : R) (i : nat) (diff : R) (j : nat) : R :=
  if decide (j = i) then diff else step_size xmc j.

(** ** Decoders of the other parsers *)

(** Five decimal digits, ASCII or not, with their values: [L], [P], [Q] and
    the two thickness digits. *)
Definition decimal_digits5 (s : string) : option (Z * Z * Z * Z) :=
  match s with
  | String a (String b (String c (String d (String e EmptyString)))) =>
      da ← pystr.decimal_value a; db ← pystr.decimal_value b;
      dc ← pystr.decimal_value c; dd ← pystr.decimal_value d;
      de ← pystr.decimal_value e;
      Some (da, db, dc, 10 * dd + de)
  | _ => None
  end.

(** Every sample position by its index: [i/(n-1)] for the linear spacing,
    [(1 - cos (pi*i/(n-1)))/2] for the cosine spacing, and 0 for a single
    sample. *)
Definition sample_position (n : nat) (sp : string) (i : nat) : R :=
  if decide (n = 1%nat) then 0
  else if decide (sp = "cosine") then (1 - cos (INR i * (PI / INR (n - 1)))) / 2
  else INR i * (1 / INR (n - 1)).

(** The sum of the element-wise products of two arrays: the value of [np.dot]
    on two arrays of the same length. *)
Definition dotsum (u v : list R) : R := np.sum (zip_with Rmult u v).

(** * Properties *)

(** ** The error monad *)

Lemma bind_Ok {A B} (f : A → result B) (r : result A) (b : B) :
  r ≫= f = Ok b → ∃ a, r = Ok a ∧ f a = Ok b.
Proof. destruct r as [a|e]; simpl; [eauto | discriminate]. Qed.

Lemma fmap_Ok {A B} (f : A → B) (r : result A) (b : B) :
  f <$> r = Ok b → ∃ a, r = Ok a ∧ b = f a.
Proof. destruct r as [a|e]; simpl; [intros [= <-]; eauto | discriminate]. Qed.

Tactic Notation "inv_bind" hyp(H) :=
  let a := fresh "a" in
  let Ha := fresh "Ha" in
  apply bind_Ok in H as (a & Ha & H).

Tactic Notation "inv_bind" hyp(H) "as" simple_intropattern(a) ident(Ha) :=
  apply bind_Ok in H as (a & Ha & H).

(** ** Strings *)

Module pystr_facts.
Import pystr.

(** Decide the comparisons of code points in the goal. *)
Ltac ncases :=
  repeat match goal with
    | |- context [(?a <=? ?b)%N] => destruct (N.leb_spec a b)
    | |- context [(?a <? ?b)%N] => destruct (N.ltb_spec a b)
    | |- context [(?a =? ?b)%N] => destruct (N.eqb_spec a b)
    end;
  simpl; try done; try lia.

(** *** The tables *)

Lemma in_ranges_spec t c :
  in_ranges t c = true ↔ ∃ r, r ∈ t ∧ (r.1 ≤ c ≤ r.2)%N.
Proof.
  unfold in_ranges. rewrite existsb_exists. split.
  - intros (r & Hr & Hc). exists r. split; [by apply list_elem_of_In|].
    unfold in_range in Hc. apply andb_prop in Hc as [H1 H2].
    apply N.leb_le in H1, H2. lia.
  - intros (r & Hr & Hc). exists r. split; [by apply list_elem_of_In|].
    unfold in_range. apply andb_true_intro.
    split; apply N.leb_le; lia.
Qed.

Lemma in_ranges_disjoint t1 t2 c :
  ranges_disjoint t1 t2 = true → in_ranges t1 c = true → in_ranges t2 c = false.
Proof.
  intros Hd (r1 & Hr1 & Hc1)%in_ranges_spec.
  destruct (in_ranges t2 c) eqn:E; [|done]. exfalso.
  apply in_ranges_spec in E as (r2 & Hr2 & Hc2).
  unfold ranges_disjoint in Hd. rewrite forallb_forall in Hd.
  specialize (Hd r1 ltac:(by apply list_elem_of_In)).
  rewrite forallb_forall in Hd.
  specialize (Hd r2 ltac:(by apply list_elem_of_In)).
  apply orb_prop in Hd as [H|H]; apply N.ltb_lt in H; lia.
Qed.

Lemma decimal_value_spec c d :
  decimal_value c = Some d ↔
  ∃ z, z ∈ decimal_zeros ∧ (z ≤ c ≤ z + 9)%N ∧ d = Z.of_N (c - z)
       ∧ find (fun z => (z <=? c) && (c <=? z + 9))%N decimal_zeros = Some z.
Proof.
  unfold decimal_value. split.
  - destruct (find _ _) as [z|] eqn:E; [|done]. intros [= <-].
    pose proof (find_some _ _ E) as [Hin Hz].
    apply andb_prop in Hz as [H1 H2]. apply N.leb_le in H1, H2.
    exists z. split_and!; [by apply list_elem_of_In|lia|lia|done|done].
  - intros (z & _ & _ & -> & ->). done.
Qed.

Lemma decimal_value_range c d : decimal_value c = Some d → (0 ≤ d ≤ 9)%Z.
Proof. intros (z & _ & Hz & -> & _)%decimal_value_spec. lia. Qed.

Lemma isdecimal_char_ranges c : isdecimal_char c = in_ranges decimal_ranges c.
Proof.
  unfold isdecimal_char, decimal_value, in_ranges, decimal_ranges.
  induction decimal_zeros as [|z l IH]; [done|].
  simpl. unfold in_range at 1. simpl.
  destruct ((z <=? c) && (c <=? z + 9))%N; [done|]. exact IH.
Qed.

Lemma isdigit_char_ranges c :
  isdigit_char c = in_ranges (decimal_ranges ++ other_digit_ranges) c.
Proof.
  unfold isdigit_char. rewrite isdecimal_char_ranges.
  unfold in_ranges. by rewrite existsb_app.
Qed.

Lemma ascii_digit_decimal c :
  is_ascii_digit c = true → decimal_value c = Some (digit_val c).
Proof.
  unfold is_ascii_digit, decimal_value, digit_val. intros H.
  change decimal_zeros with (48%N :: tail decimal_zeros).
  cbn [find]. change (48 + 9)%N with 57%N. rewrite H. simpl.
  apply andb_prop in H as [H _]. apply N.leb_le in H. f_equal. lia.
Qed.

Lemma ascii_digit_isdecimal c : is_ascii_digit c = true → isdecimal_char c = true.
Proof. intros H. unfold isdecimal_char. by rewrite (ascii_digit_decimal _ H). Qed.

Lemma ascii_digit_isdigit c : is_ascii_digit c = true → isdigit_char c = true.
Proof. intros H. unfold isdigit_char. by rewrite (ascii_digit_isdecimal _ H). Qed.

Lemma isdecimal_isdigit c : isdecimal_char c = true → isdigit_char c = true.
Proof. intros H. unfold isdigit_char. by rewrite H. Qed.

Lemma isdigit_char_not_space c : isdigit_char c = true → isspace c = false.
Proof.
  rewrite isdigit_char_ranges. unfold isspace. apply in_ranges_disjoint.
  by vm_compute.
Qed.

(** Below U+007F the only digits are the ASCII digits. *)
Lemma isdigit_char_ascii c :
  isdigit_char c = true → (c < 127)%N → is_ascii_digit c = true.
Proof.
  rewrite isdigit_char_ranges. intros (r & Hr & Hc)%in_ranges_spec Hlt.
  assert (forallb (fun r => (r.1 =? 48)%N && (r.2 =? 57)%N || (127 <=? r.1)%N)
            (decimal_ranges ++ other_digit_ranges) = true) as Hall
    by (by vm_compute).
  rewrite forallb_forall in Hall.
  specialize (Hall r ltac:(by apply list_elem_of_In)).
  unfold is_ascii_digit. apply andb_true_intro.
  apply orb_prop in Hall as [H|H].
  - apply andb_prop in H as [H1 H2]. apply N.eqb_eq in H1, H2.
    split; apply N.leb_le; lia.
  - apply N.leb_le in H. lia.
Qed.

(** What [int] makes of a digit: an ASCII digit of the same value when the
    digit is decimal, and a character that it rejects otherwise. *)
Lemma to_ascii_digit c :
  isdigit_char c = true →
  ascii_isspace (to_ascii c) = false
  ∧ (to_ascii c =? "_"%char)%N = false
  ∧ (to_ascii c =? "+"%char)%N = false
  ∧ (to_ascii c =? "-"%char)%N = false
  ∧ is_ascii_digit (to_ascii c) = isdecimal_char c
  ∧ (isdecimal_char c = true →
     digit_val (to_ascii c) = default 0 (decimal_value c)).
Proof.
  intros Hd. unfold to_ascii. destruct (N.ltb_spec c 127) as [Hlt|Hge].
  - pose proof (isdigit_char_ascii _ Hd Hlt) as Ha.
    rewrite (ascii_digit_isdecimal _ Ha), (ascii_digit_decimal _ Ha).
    unfold is_ascii_digit in Ha. apply andb_prop in Ha as [H1 H2].
    apply N.leb_le in H1, H2.
    unfold ascii_isspace, is_ascii_digit. split_and!; [ncases..|done].
  - rewrite (isdigit_char_not_space _ Hd). unfold isdecimal_char.
    destruct (decimal_value c) as [d|] eqn:E.
    + pose proof (decimal_value_range _ _ E) as Hr.
      unfold ascii_isspace, is_ascii_digit, digit_val.
      split_and!; [ncases..|intros _; simpl; lia].
    + by vm_compute.
Qed.

(** *** Stripping *)

Lemma lstrip_app_space sp a s :
  all_chars sp a = true → lstrip sp (a ++ s)%string = lstrip sp s.
Proof.
  induction a as [|c a IH]; simpl; [done|].
  intros [Hc Ha]%andb_prop. rewrite Hc. auto.
Qed.

Lemma lstrip_space sp a : all_chars sp a = true → lstrip sp a = EmptyString.
Proof.
  induction a as [|c a IH]; simpl; [done|].
  intros [Hc Ha]%andb_prop. rewrite Hc. auto.
Qed.

Lemma rstrip_space sp a : all_chars sp a = true → rstrip sp a = EmptyString.
Proof.
  induction a as [|c a IH]; simpl; [done|].
  intros [Hc Ha]%andb_prop. rewrite (IH Ha), Hc. done.
Qed.

Lemma rstrip_app_space sp s b :
  all_chars sp b = true → rstrip sp (s ++ b)%string = rstrip sp s.
Proof.
  intros Hb. induction s as [|c s IH]; simpl.
  - by apply rstrip_space.
  - by rewrite IH.
Qed.

Lemma lstrip_app_r sp s b :
  all_chars sp b = true →
  lstrip sp (s ++ b)%string
  = (lstrip sp s ++ (if all_chars sp s then EmptyString else b))%string.
Proof.
  intros Hb. induction s as [|c s IH]; simpl.
  - by apply lstrip_space.
  - destruct (sp c); simpl; [done|reflexivity].
Qed.

Lemma app_empty_r (s : string) : (s ++ EmptyString)%string = s.
Proof. induction s as [|c s IH]; simpl; [done|]. by rewrite IH. Qed.

(** Whitespace around a code does not change what [strip] returns. *)
Lemma strip_pad a s b :
  all_chars isspace a = true → all_chars isspace b = true →
  strip (a ++ s ++ b)%string = strip s.
Proof.
  intros Ha Hb. unfold strip. rewrite (lstrip_app_space _ _ _ Ha).
  rewrite (lstrip_app_r _ _ _ Hb).
  destruct (all_chars isspace s).
  - by rewrite app_empty_r.
  - by apply rstrip_app_space.
Qed.

Lemma rstrip_no_space sp s :
  all_chars (fun c => negb (sp c)) s = true → rstrip sp s = s.
Proof.
  induction s as [|c s IH]; simpl; [done|].
  intros [Hc Hs]%andb_prop. rewrite (IH Hs).
  destruct (sp c); [done|]. by destruct s.
Qed.

Lemma lstrip_no_space sp s :
  all_chars (fun c => negb (sp c)) s = true → lstrip sp s = s.
Proof. destruct s as [|c s]; simpl; [done|]. by destruct (sp c). Qed.

Lemma all_chars_impl (f g : char → bool) s :
  (∀ c, f c = true → g c = true) → all_chars f s = true → all_chars g s = true.
Proof.
  intros Hfg. induction s as [|c s IH]; simpl; [done|].
  intros [Hc Hs]%andb_prop. by rewrite (Hfg _ Hc), IH.
Qed.

(** A string of digits has no whitespace to strip. *)
Lemma strip_digits s : all_chars isdigit_char s = true → strip s = s.
Proof.
  intros H. assert (all_chars (fun c => negb (isspace c)) s = true) as Hn.
  { revert H. apply all_chars_impl. intros c Hc.
    by rewrite (isdigit_char_not_space _ Hc). }
  unfold strip. by rewrite (lstrip_no_space _ _ Hn), rstrip_no_space.
Qed.

Lemma isdigit_all s : isdigit s = true → all_chars isdigit_char s = true.
Proof. by destruct s. Qed.

Lemma string_length_app (a b : string) :
  String.length (a ++ b)%string = (String.length a + String.length b)%nat.
Proof. induction a as [|c a IH]; simpl; [done|]. by rewrite IH. Qed.

Lemma string_eqb_eq (a b : string) : String.eqb a b = true ↔ a = b.
Proof.
  revert b. induction a as [|c a IH]; intros [|d b]; simpl; try done.
  rewrite andb_true_iff, N.eqb_eq, IH. split; [intros [-> ->]|intros [= -> ->]]; done.
Qed.

(** *** [int] *)

Lemma map_chars_no_space s :
  all_chars isdigit_char s = true →
  all_chars (fun c => negb (ascii_isspace c)) (map_chars to_ascii s) = true.
Proof.
  induction s as [|c s IH]; simpl; [done|].
  intros [Hc Hs]%andb_prop.
  destruct (to_ascii_digit _ Hc) as (-> & _). simpl. auto.
Qed.

Lemma int_digits_isdigit s : ∀ acc prev,
  all_chars isdigit_char s = true →
  int_digits acc prev (map_chars to_ascii s) =
    if all_chars isdecimal_char s
    then (match s with EmptyString => if prev then Some acc else None
          | _ => Some (decimal acc s) end)
    else None.
Proof.
  induction s as [|c s IH]; intros acc prev; simpl; [done|].
  intros [Hc Hs]%andb_prop.
  destruct (to_ascii_digit _ Hc) as (_ & Hu & _ & _ & Hd & Hv).
  rewrite Hd. destruct (isdecimal_char c) eqn:Ec; simpl.
  - rewrite (IH _ _ Hs), (Hv eq_refl).
    destruct (all_chars isdecimal_char s); [|done]. by destruct s.
  - by rewrite Hu.
Qed.

(** [int] on a string accepted by [isdigit]. *)
Lemma int_isdigit s :
  isdigit s = true →
  int s = if all_chars isdecimal_char s then Ok (decimal 0 s) else Raise int_error.
Proof.
  intros H. pose proof (isdigit_all _ H) as Ha.
  unfold int.
  rewrite (lstrip_no_space _ _ (map_chars_no_space _ Ha)).
  rewrite (rstrip_no_space _ _ (map_chars_no_space _ Ha)).
  pose proof (int_digits_isdigit s 0 false Ha) as Hi.
  destruct s as [|c s]; [done|].
  assert (Hc : isdigit_char c = true) by (simpl in Ha; by apply andb_prop in Ha as [? _]).
  destruct (to_ascii_digit _ Hc) as (_ & _ & Hp & Hm & _).
  cbn [map_chars] in *. rewrite Hp, Hm, Hi.
  by destruct (all_chars isdecimal_char (String c s)).
Qed.

(** [int] on one character, whatever it is. *)
Lemma int_any_char c :
  int (String c EmptyString) =
    match decimal_value c with Some d => Ok d | None => Raise int_error end.
Proof.
  destruct (isdigit_char c) eqn:Hd.
  - rewrite int_isdigit by (simpl; by rewrite Hd).
    simpl. unfold isdecimal_char. by destruct (decimal_value c).
  - assert (decimal_value c = None) as Hn.
    { destruct (decimal_value c) eqn:E; [|done].
      assert (isdecimal_char c = true) as Hc by (unfold isdecimal_char; by rewrite E).
      by rewrite (isdecimal_isdigit _ Hc) in Hd. }
    rewrite Hn. unfold int. cbn [map_chars lstrip].
    assert (is_ascii_digit (to_ascii c) = false) as Hna.
    { unfold to_ascii. destruct (N.ltb_spec c 127) as [Hlt|Hge].
      - destruct (is_ascii_digit c) eqn:E; [|done].
        by rewrite (ascii_digit_isdigit _ E) in Hd.
      - rewrite Hn. by destruct (isspace c). }
    destruct (ascii_isspace (to_ascii c)) eqn:Es; cbn [lstrip rstrip].
    + done.
    + rewrite Es. cbn [int_digits]. rewrite Hna.
      destruct (to_ascii c =? "+"%char)%N; [done|].
      destruct (to_ascii c =? "-"%char)%N; [done|].
      by rewrite andb_false_r.
Qed.

End pystr_facts.

(** ** The parsers *)

Module parser_facts.
Import pystr pystr_facts.

Lemma int_char c :
  isdigit_char c = true →
  int (String c EmptyString) =
    if isdecimal_char c then Ok (default 0 (decimal_value c)) else Raise int_error.
Proof.
  intros H. rewrite int_any_char. unfold isdecimal_char.
  by destruct (decimal_value c).
Qed.

Lemma int_char2 c d :
  isdigit_char c = true → isdigit_char d = true →
  int (String c (String d EmptyString)) =
    if isdecimal_char c && isdecimal_char d
    then Ok (10 * default 0 (decimal_value c) + default 0 (decimal_value d))
    else Raise int_error.
Proof.
  intros Hc Hd. rewrite int_isdigit by (simpl; by rewrite Hc, Hd).
  simpl. by destruct (isdecimal_char c), (isdecimal_char d).
Qed.

Lemma decimal_digits4_ascii s v : ascii_digits4 s = Some v → decimal_digits4 s = Some v.
Proof.
  unfold ascii_digits4, decimal_digits4.
  destruct s as [|a [|b [|c [|d [|e r]]]]]; try done.
  destruct (is_ascii_digit a) eqn:Ha; [|done].
  destruct (is_ascii_digit b) eqn:Hb; [|done].
  destruct (is_ascii_digit c) eqn:Hc; [|done].
  destruct (is_ascii_digit d) eqn:Hd; [|done].
  simpl. intros [= <-].
  by rewrite !ascii_digit_decimal.
Qed.

(** The 4-digit parser against its decoder: it returns the decoded record,
    and raises a [ValueError] where there is none. *)
Lemma parse_naca4_decode code0 chord0 :
  match naca4_decode code0 chord0 with
  | Some q => naca4.parse_naca4 code0 chord0 = Ok q
  | None => is_ValueError (naca4.parse_naca4 code0 chord0)
  end.
Proof.
  unfold naca4_decode, naca4.parse_naca4.
  destruct (strip code0) as [|a [|b [|c [|d [|e r]]]]] eqn:Hs;
    try (simpl; eexists; reflexivity).
  - (* four characters *)
    unfold decimal_digits4.
    change (len (String a (String b (String c (String d EmptyString)))) =? 4) with true.
    cbn [negb orb isdigit all_chars].
    destruct (isdigit_char a) eqn:Ha; cycle 1.
    { assert (decimal_value a = None) as ->.
      { destruct (decimal_value a) eqn:E; [|done].
        assert (isdecimal_char a = true) as Hx by (unfold isdecimal_char; by rewrite E).
        by rewrite (isdecimal_isdigit _ Hx) in Ha. }
      simpl. by eexists. }
    destruct (isdigit_char b) eqn:Hb; cycle 1.
    { assert (decimal_value b = None) as ->.
      { destruct (decimal_value b) eqn:E; [|done].
        assert (isdecimal_char b = true) as Hx by (unfold isdecimal_char; by rewrite E).
        by rewrite (isdecimal_isdigit _ Hx) in Hb. }
      destruct (decimal_value a); simpl; by eexists. }
    destruct (isdigit_char c) eqn:Hc; cycle 1.
    { assert (decimal_value c = None) as ->.
      { destruct (decimal_value c) eqn:E; [|done].
        assert (isdecimal_char c = true) as Hx by (unfold isdecimal_char; by rewrite E).
        by rewrite (isdecimal_isdigit _ Hx) in Hc. }
      destruct (decimal_value a), (decimal_value b); simpl; by eexists. }
    destruct (isdigit_char d) eqn:Hd; cycle 1.
    { assert (decimal_value d = None) as ->.
      { destruct (decimal_value d) eqn:E; [|done].
        assert (isdecimal_char d = true) as Hx by (unfold isdecimal_char; by rewrite E).
        by rewrite (isdecimal_isdigit _ Hx) in Hd. }
      destruct (decimal_value a), (decimal_value b), (decimal_value c);
        simpl; by eexists. }
    cbn [andb negb getitem String.get mbind result_bind slice_from].
    rewrite !int_any_char, (int_char2 _ _ Hc Hd). unfold isdecimal_char.
    destruct (decimal_value a) as [da|]; [|simpl; by eexists].
    destruct (decimal_value b) as [db|]; [|simpl; by eexists].
    destruct (decimal_value c) as [dc|]; [|simpl; by eexists].
    destruct (decimal_value d) as [dd|]; [|simpl; by eexists].
    reflexivity.
  - (* five characters or more *)
    assert ((len (String a (String b (String c (String d (String e r))))) =? 4) = false) as ->.
    { apply Z.eqb_neq. unfold len. simpl String.length. lia. }
    simpl. by eexists.
Qed.

End parser_facts.

(** ** Arrays: lengths *)

Module array_facts.
Import common.
Local Open Scope R_scope.

Lemma linspace_Ok start stop num l :
  np.linspace start stop num = Ok l → (0 ≤ num)%Z ∧ length l = Z.to_nat num.
Proof.
  unfold np.linspace. destruct (Z.ltb_spec num 0); [done|].
  destruct (Z.to_nat num) as [|[|k]]; intros [= <-]; (split; [done|]); simpl; [done..|].
  rewrite length_app, length_map, length_seq. simpl. lia.
Qed.

Lemma linspace_total start stop num :
  (0 ≤ num)%Z → is_Ok (np.linspace start stop num).
Proof.
  intros H. unfold np.linspace. destruct (Z.ltb_spec num 0); [lia|].
  destruct (Z.to_nat num) as [|[|k]]; by eexists.
Qed.

(** The message names the count. *)
Lemma linspace_negative :
  np.linspace 0 1 (-1)
  = Raise (ValueError "Number of samples, -1, must be non-negative.").
Proof. reflexivity. Qed.

Lemma sample_x_Ok n sp x :
  sample_x n sp = Ok x → (0 ≤ n)%Z ∧ length x = Z.to_nat n.
Proof.
  unfold sample_x. repeat case_decide; [| |done].
  - intros Hx. inv_bind Hx. injection Hx as <-.
    apply linspace_Ok in Ha as [? ?]. by rewrite length_map.
  - apply linspace_Ok.
Qed.

Lemma sample_x_total n sp :
  (0 ≤ n)%Z → sp = "cosine" ∨ sp = "linear" → is_Ok (sample_x n sp).
Proof.
  intros Hn Hsp. unfold sample_x.
  destruct (linspace_total 0 PI n Hn) as [b Hb].
  destruct (linspace_total 0 1 n Hn) as [l Hl].
  repeat case_decide; [rewrite Hb; by eexists|by eexists|by destruct Hsp].
Qed.

Lemma for_each_length {A B} (f : A → result B) l l' :
  for_each f l = Ok l' → length l' = length l.
Proof.
  revert l'. induction l as [|a l IH]; simpl; intros l' H.
  - by injection H as <-.
  - inv_bind H. inv_bind H. injection H as <-. simpl. f_equal. by apply IH.
Qed.

Lemma for_each_total {A B} (f : A → result B) l :
  (∀ a, a ∈ l → is_Ok (f a)) → is_Ok (for_each f l).
Proof.
  induction l as [|a l IH]; intros H; simpl; [by eexists|].
  destruct (H a) as [b ->]; [by left|]. simpl.
  destruct IH as [bs ->]; [intros; apply H; by right|]. by eexists.
Qed.

Lemma thickness_length t x : length (thickness t x) = length x.
Proof. apply length_map. Qed.

Lemma surfaces_of_lengths x yt yc0 theta n :
  length x = n → length yt = n → length yc0 = n → length theta = n →
  length (xu (surfaces_of x yt yc0 theta)) = n
  ∧ length (yu (surfaces_of x yt yc0 theta)) = n
  ∧ length (xl (surfaces_of x yt yc0 theta)) = n
  ∧ length (yl (surfaces_of x yt yc0 theta)) = n.
Proof.
  intros. simpl. rewrite !length_zip_with, !length_map. lia.
Qed.

Lemma closed_loop_length u l :
  length (np.closed_loop u l) = (length u + (length l - 1))%nat.
Proof. unfold np.closed_loop. by rewrite length_app, length_reverse, length_drop. Qed.

Lemma roll_left_length a : length (np.roll_left a) = length a.
Proof.
  unfold np.roll_left. rewrite length_app, length_drop, length_take. lia.
Qed.

Lemma dot_total a b : length a = length b → is_Ok (np.dot a b).
Proof. intros H. unfold np.dot. case_decide; [by eexists|done]. Qed.

Lemma shoelace_total a b : length a = length b → is_Ok (shoelace a b).
Proof.
  intros H. unfold shoelace.
  destruct (dot_total a (np.roll_left b)) as [u ->]; [by rewrite roll_left_length|].
  destruct (dot_total b (np.roll_left a)) as [v ->]; [by rewrite roll_left_length|].
  by eexists.
Qed.

Lemma max_total a : (0 < length a)%nat → is_Ok (np.max a).
Proof. destruct a; simpl; [lia|by eexists]. Qed.

Lemma max_Ok a v : np.max a = Ok v → (0 < length a)%nat.
Proof. destruct a; simpl; [done|lia]. Qed.

End array_facts.

(** ** The 4-digit family *)

Module naca4_facts.
Import common array_facts naca4.
Local Open Scope R_scope.

Lemma parse_naca4_fields s c q :
  parse_naca4 s c = Ok q → code q = pystr.strip s ∧ chord q = c.
Proof.
  unfold parse_naca4. destruct (_ || _); [done|]. intros Hq.
  repeat inv_bind Hq. by injection Hq as <-.
Qed.

(** A record that the parser returns is the decoded one. *)
Lemma parse_naca4_decoded s c q :
  parse_naca4 s c = Ok q → naca4_decode s c = Some q.
Proof.
  intros H. pose proof (parser_facts.parse_naca4_decode s c) as D.
  destruct (naca4_decode s c) as [q'|].
  - congruence.
  - destruct D as [msg D]. congruence.
Qed.

Lemma digit_val_range a :
  pystr.is_ascii_digit a = true → (0 ≤ pystr.digit_val a ≤ 9)%Z.
Proof.
  unfold pystr.is_ascii_digit, pystr.digit_val.
  intros [H1 H2]%andb_prop. apply N.leb_le in H1, H2. lia.
Qed.

(** The digits behind a record that the parser returns. *)
Lemma parse_naca4_digits s c q :
  parse_naca4 s c = Ok q →
  ∃ a b c' d da db dc dd,
    pystr.strip s = String a (String b (String c' (String d EmptyString)))
    ∧ pystr.decimal_value a = Some da ∧ pystr.decimal_value b = Some db
    ∧ pystr.decimal_value c' = Some dc ∧ pystr.decimal_value d = Some dd
    ∧ q = {| code := pystr.strip s; m := IZR da / 100; p := IZR db / 10;
             t := IZR (10 * dc + dd) / 100; chord := c |}.
Proof.
  intros H%parse_naca4_decoded. unfold naca4_decode, decimal_digits4 in H.
  destruct (pystr.strip s) as [|a [|b [|c' [|d [|e r]]]]]; try done.
  destruct (pystr.decimal_value a) as [da|] eqn:Ha; [|done].
  destruct (pystr.decimal_value b) as [db|] eqn:Hb; [|done].
  destruct (pystr.decimal_value c') as [dc|] eqn:Hc; [|done].
  destruct (pystr.decimal_value d) as [dd|] eqn:Hd; [|done].
  simpl in H. injection H as <-.
  exists a, b, c', d, da, db, dc, dd. by split_and!.
Qed.

(** The ranges of the decoded fractions. *)
Lemma parse_naca4_ranges s c q :
  parse_naca4 s c = Ok q →
  0 <= m q <= 0.09 ∧ 0 <= p q <= 0.9 ∧ 0 <= t q <= 0.99.
Proof.
  intros (a & b & c' & d & da & db & dc & dd & _ & Ha & Hb & Hc & Hd & ->)
    %parse_naca4_digits.
  simpl.
  apply pystr_facts.decimal_value_range in Ha, Hb, Hc, Hd.
  assert (0 ≤ 10 * dc + dd ≤ 99)%Z as Hcd by lia.
  destruct Ha as [Ha1 Ha2], Hb as [Hb1 Hb2], Hcd as [Hc1 Hc2].
  apply IZR_le in Ha1, Ha2, Hb1, Hb2, Hc1, Hc2. lra.
Qed.

Lemma camber_at_total m0 p0 xi :
  p0 ≠ 0 → p0 ≠ 1 → is_Ok (camber_at m0 p0 xi).
Proof.
  intros H0 H1. unfold camber_at, pymath.div.
  destruct (Rlt_dec xi p0).
  - destruct (Req_dec_T (p0 ^ 2) 0) as [E|_]; [|by eexists].
    exfalso. apply H0. nra.
  - destruct (Req_dec_T ((1 - p0) ^ 2) 0) as [E|_]; [|by eexists].
    exfalso. apply H1. nra.
Qed.

Lemma camber_total m0 p0 x : p0 ≠ 1 → is_Ok (camber m0 p0 x).
Proof.
  intros H1. unfold camber. destruct (Req_dec_T p0 0) as [|H0]; [by eexists|].
  destruct (for_each_total (camber_at m0 p0) x) as [l ->]; [|by eexists].
  intros. by apply camber_at_total.
Qed.

Lemma camber_lengths m0 p0 x yc0 d :
  camber m0 p0 x = Ok (yc0, d) → length yc0 = length x ∧ length d = length x.
Proof.
  unfold camber. destruct (Req_dec_T p0 0).
  - intros [= <- <-]. by rewrite !length_map.
  - intros H. inv_bind H. injection H as <- <-.
    apply for_each_length in Ha. by rewrite !length_map.
Qed.

Lemma generate_surfaces_lengths q n sp x yt yc0 sf :
  generate_surfaces q n sp = Ok (x, yt, yc0, sf) →
  (0 ≤ n)%Z ∧ sample_x n sp = Ok x ∧ yt = thickness (t q) x
  ∧ length x = Z.to_nat n ∧ length yc0 = Z.to_nat n
  ∧ length (xu sf) = Z.to_nat n ∧ length (yu sf) = Z.to_nat n
  ∧ length (xl sf) = Z.to_nat n ∧ length (yl sf) = Z.to_nat n.
Proof.
  unfold generate_surfaces. intros H. inv_bind H as x' Ha.
  inv_bind H as [yc1 d] Ha0. simpl in H. injection H as <- <- <- <-.
  apply sample_x_Ok in Ha as Hx. destruct Hx as [Hn Hx].
  apply camber_lengths in Ha0 as [Hyc Hd].
  split_and!; try done; try congruence.
  all: apply surfaces_of_lengths;
    rewrite ?thickness_length, ?length_map; congruence.
Qed.

(** [generate_naca4_full] taken apart. *)
Lemma full_inv s c n sp out :
  generate_naca4_full s c n sp = Ok out →
  ∃ q x yt yc0 sf,
    parse_naca4 s c = Ok q
    ∧ generate_surfaces q n sp = Ok (x, yt, yc0, sf)
    ∧ compute_metrics q (x_loop out) (y_loop out) x yc0 yt = Ok (metrics out)
    ∧ x_loop out = map (fun v => v * c) (np.closed_loop (xu sf) (xl sf))
    ∧ y_loop out = np.closed_loop (yu sf) (yl sf)
    ∧ x_c out = map (fun v => v * c) x
    ∧ yc out = yc0.
Proof.
  unfold generate_naca4_full. intros H. inv_bind H as q Hq.
  inv_bind H as g Hg. inv_bind H as mtr Hm. injection H as <-. simpl.
  unfold generate_geometry in Hg. inv_bind Hg as [[[x yt] yc0] sf] Hs.
  injection Hg as <-. simpl in *.
  apply parse_naca4_fields in Hq as Hf. destruct Hf as [_ Hc]. rewrite Hc in *.
  by exists q, x, yt, yc0, sf.
Qed.

Lemma compute_metrics_total q xs ys x yc0 yt :
  (0 < length yt)%nat → (0 < length yc0)%nat → length xs = length ys →
  is_Ok (compute_metrics q xs ys x yc0 yt).
Proof.
  intros Hyt Hyc Hl. unfold compute_metrics.
  destruct (max_total (map (Rmult 2) yt)) as [a ->]; [by rewrite length_map|].
  destruct (max_total (map Rabs yc0)) as [b ->]; [by rewrite length_map|].
  destruct (shoelace_total xs ys Hl) as [ar ->]. by eexists.
Qed.

(** Generation succeeds on every code that the parser accepts, for at least
    one sample and a known spacing. *)
Lemma full_total s c n sp q :
  parse_naca4 s c = Ok q → (1 ≤ n)%Z → sp = "cosine" ∨ sp = "linear" →
  is_Ok (generate_naca4_full s c n sp).
Proof.
  intros Hq Hn Hsp. pose proof (parse_naca4_ranges _ _ _ Hq) as (_ & Hp & _).
  unfold generate_naca4_full. rewrite Hq. simpl.
  destruct (sample_x_total n sp) as [x Hx]; [lia|done|].
  destruct (camber_total (m q) (p q) x) as [[yc0 d] Hcd]; [lra|].
  assert (generate_surfaces q n sp =
          Ok (x, thickness (t q) x, yc0,
              surfaces_of x (thickness (t q) x) yc0 (map atan d))) as Hs.
  { unfold generate_surfaces. rewrite Hx. simpl. by rewrite Hcd. }
  pose proof (generate_surfaces_lengths _ _ _ _ _ _ _ Hs)
    as (_ & _ & _ & Hlx & Hlyc & Hxu & Hyu & Hxl & Hyl).
  unfold generate_geometry. rewrite Hs. simpl.
  match goal with |- is_Ok (?r ≫= _) => destruct r as [mtr|e] eqn:Hm end.
  - by eexists.
  - exfalso.
    destruct (compute_metrics_total q
      (map (λ v, v * chord q)
         (np.closed_loop (xu (surfaces_of x (thickness (t q) x) yc0 (map atan d)))
                         (xl (surfaces_of x (thickness (t q) x) yc0 (map atan d)))))
      (np.closed_loop (yu (surfaces_of x (thickness (t q) x) yc0 (map atan d)))
                      (yl (surfaces_of x (thickness (t q) x) yc0 (map atan d))))
      x yc0 (thickness (t q) x)) as [mtr Hmtr].
    + rewrite thickness_length. lia.
    + lia.
    + rewrite length_map, !closed_loop_length. lia.
    + simpl in Hmtr. congruence.
Qed.

End naca4_facts.

(** ** All five families: the code string *)

Module facade_facts.
Import pystr pystr_facts.

(** Take a successful run of a parser or facade apart. *)
Ltac unravel H :=
  repeat first
    [ discriminate H
    | inv_bind H
    | match type of H with
      | (if ?b then _ else _) = Ok _ => destruct b eqn:?
      end ].

Lemma parse_code fam s c q : parse fam s c = Ok q → parsed_code q = strip s.
Proof.
  destruct fam; simpl; intros H; apply fmap_Ok in H as (q' & H & ->); simpl.
  - by apply naca4_facts.parse_naca4_fields in H as [? _].
  - unfold naca5.parse_naca5 in H. unravel H. by injection H as <-.
  - unfold naca6.parse_naca6 in H. unravel H. by injection H as <-.
  - unfold naca7.parse_naca7 in H. unravel H. by injection H as <-.
  - unfold naca8.parse_naca8 in H. unravel H. by injection H as <-.
Qed.

Lemma parse_pad fam a s b c :
  all_chars isspace a = true → all_chars isspace b = true →
  parse fam (a ++ s ++ b)%string c = parse fam s c.
Proof.
  intros Ha Hb.
  destruct fam; simpl; f_equal;
    unfold naca4.parse_naca4, naca5.parse_naca5, naca6.parse_naca6,
           naca7.parse_naca7, naca8.parse_naca8;
    by rewrite (strip_pad _ _ _ Ha Hb).
Qed.

Lemma parse_inj_pad fam a s b c :
  all_chars isspace a = true → all_chars isspace b = true →
  match fam with
  | NACA4 => naca4.parse_naca4 (a ++ s ++ b)%string c = naca4.parse_naca4 s c
  | NACA5 => naca5.parse_naca5 (a ++ s ++ b)%string c = naca5.parse_naca5 s c
  | NACA6 => naca6.parse_naca6 (a ++ s ++ b)%string c = naca6.parse_naca6 s c
  | NACA7 => naca7.parse_naca7 (a ++ s ++ b)%string c = naca7.parse_naca7 s c
  | NACA8 => naca8.parse_naca8 (a ++ s ++ b)%string c = naca8.parse_naca8 s c
  end.
Proof.
  intros Ha Hb.
  destruct fam;
    unfold naca4.parse_naca4, naca5.parse_naca5, naca6.parse_naca6,
           naca7.parse_naca7, naca8.parse_naca8;
    by rewrite (strip_pad _ _ _ Ha Hb).
Qed.

Lemma generate_full_pad fam a s b c n sp :
  all_chars isspace a = true → all_chars isspace b = true →
  generate_full fam (a ++ s ++ b)%string c n sp = generate_full fam s c n sp.
Proof.
  intros Ha Hb. pose proof (parse_inj_pad fam a s b c Ha Hb) as E.
  destruct fam; simpl;
    unfold naca4.generate_naca4_full, naca5.generate_naca5_full,
           naca6.generate_naca6_full, naca7.generate_naca7_full,
           naca8.generate_naca8_full;
    by rewrite E.
Qed.

(** The [code] entry of the metrics is the [code] field of the record. *)
Lemma full_code fam s c n sp out :
  generate_full fam s c n sp = Ok out →
  metrics out !! "code" = Some (VStr (strip s)).
Proof.
  destruct fam; simpl; intros H.
  - unfold naca4.generate_naca4_full in H.
    inv_bind H as q Hq. inv_bind H as g Hg. inv_bind H as mt Hm. injection H as <-.
    apply naca4_facts.parse_naca4_fields in Hq as [<- _].
    unfold naca4.compute_metrics in Hm. unravel Hm. injection Hm as <-. simpl.
    apply lookup_insert_eq.
  - unfold naca5.generate_naca5_full in H.
    inv_bind H as q Hq. inv_bind H as g Hg. inv_bind H as mt Hm. injection H as <-.
    assert (parse NACA5 s c = Ok (P5 q)) as Hp by (simpl; by rewrite Hq).
    apply parse_code in Hp. simpl in Hp. rewrite <- Hp.
    unfold naca5.compute_metrics in Hm. unravel Hm. injection Hm as <-. simpl.
    apply lookup_insert_eq.
  - unfold naca6.generate_naca6_full in H.
    inv_bind H as q Hq. inv_bind H as g Hg. inv_bind H as mt Hm. injection H as <-.
    assert (parse NACA6 s c = Ok (P6 q)) as Hp by (simpl; by rewrite Hq).
    apply parse_code in Hp. simpl in Hp. rewrite <- Hp.
    unfold naca6.compute_metrics in Hm. unravel Hm. injection Hm as <-. simpl.
    apply lookup_insert_eq.
  - unfold naca7.generate_naca7_full in H.
    inv_bind H as q Hq. inv_bind H as r4 Hg. injection H as <-.
    assert (parse NACA7 s c = Ok (P7 q)) as Hp by (simpl; by rewrite Hq).
    apply parse_code in Hp. simpl in Hp. rewrite <- Hp. simpl.
    rewrite lookup_insert_ne by done. apply lookup_insert_eq.
  - unfold naca8.generate_naca8_full in H.
    inv_bind H as q Hq. inv_bind H as r4 Hg. injection H as <-.
    assert (parse NACA8 s c = Ok (P8 q)) as Hp by (simpl; by rewrite Hq).
    apply parse_code in Hp. simpl in Hp. rewrite <- Hp. simpl.
    rewrite lookup_insert_ne by done. apply lookup_insert_eq.
Qed.

End facade_facts.

(** * The code string and the parsers *)

Local Open Scope R_scope.

Lemma naca4_padded_parse :
  naca4.parse_naca4 " 2412 " 1 =
    Ok {| naca4.code := "2412"; naca4.m := 2 / 100; naca4.p := 4 / 10;
          naca4.t := 12 / 100; naca4.chord := 1 |}.
Proof. exact (parser_facts.parse_naca4_decode " 2412 " 1). Qed.

Lemma naca4_padded_generates :
  is_Ok (naca4.generate_naca4_full " 2412 " 1 1 "cosine").
Proof.
  eapply naca4_facts.full_total; [apply naca4_padded_parse|lia|by left].
Qed.

(** C3, amended.  [parse_naca4] drops the whitespace around its input and
    then succeeds exactly when 4 decimal digits are left, the ASCII digits or
    the decimal digits of any other script ([str.isdigit] and [int] take both):
    the value of digit 1 gives [m = d1/100], that of digit 2 gives
    [p = d2/10], those of digits 3-4 give [t = d3d4/100], and the stripped
    string is the [code].  In particular 4 ASCII digits are accepted and
    decoded so.  On every other input it raises a [ValueError]; on the
    5-digit string [24123] it raises the format error and does not
    truncate. *)
Theorem parse_naca4_four_digits (code0 : string) (chord0 : R) :
  match naca4_decode code0 chord0 with
  | Some q => naca4.parse_naca4 code0 chord0 = Ok q
  | None => is_ValueError (naca4.parse_naca4 code0 chord0)
  end
  ∧ (∀ d1 d2 d34,
       ascii_digits4 (pystr.strip code0) = Some (d1, d2, d34) →
       naca4.parse_naca4 code0 chord0 =
         Ok {| naca4.code := pystr.strip code0; naca4.m := IZR d1 / 100;
               naca4.p := IZR d2 / 10; naca4.t := IZR d34 / 100;
               naca4.chord := chord0 |})
  ∧ naca4.parse_naca4 "24123" chord0 = Raise naca4.format_error.
Proof.
  split_and!; [apply parser_facts.parse_naca4_decode | | reflexivity].
  intros d1 d2 d34 H%parser_facts.decimal_digits4_ascii.
  pose proof (parser_facts.parse_naca4_decode code0 chord0) as D.
  unfold naca4_decode in D. by rewrite H in D.
Qed.

Lemma parse_naca4_four_digits_witness :
  naca4.parse_naca4 "2412" 1 =
    Ok {| naca4.code := "2412"; naca4.m := 2 / 100; naca4.p := 4 / 10;
          naca4.t := 12 / 100; naca4.chord := 1 |}.
Proof.
  exact (proj1 (proj2 (parse_naca4_four_digits "2412" 1)) 2%Z 4%Z 12%Z eq_refl).
Defined.

(** C3 as stated fails: inputs that are not 4 ASCII digits are accepted, one
    of six characters, two of them blanks, and one of four Arabic-Indic
    digits. *)
Lemma parse_naca4_accepts_padded_input :
  (ascii_digits4 " 2412 " = None
   ∧ String.length " 2412 " = 6%nat
   ∧ naca4.parse_naca4 " 2412 " 1 =
       Ok {| naca4.code := "2412"; naca4.m := 2 / 100; naca4.p := 4 / 10;
             naca4.t := 12 / 100; naca4.chord := 1 |})
  ∧ (ascii_digits4 "٢٤١٢" = None
     ∧ String.length "٢٤١٢" = 4%nat
     ∧ naca4.parse_naca4 "٢٤١٢" 1 =
         Ok {| naca4.code := "٢٤١٢"; naca4.m := 2 / 100; naca4.p := 4 / 10;
               naca4.t := 12 / 100; naca4.chord := 1 |}).
Proof.
  split; (split_and!; [reflexivity | reflexivity |]).
  - apply naca4_padded_parse.
  - exact (parser_facts.parse_naca4_decode "٢٤١٢" 1).
Qed.

(** C10.  Every parser strips the whitespace around the code before it
    validates: a code surrounded by whitespace is parsed to the same result as
    the code itself (accepted when the code is, with equal parameters), the
    [code] field of the record is the stripped string, and the full generation
    and the [code] entry of its metrics are those of the stripped string. *)
Theorem parsers_strip_whitespace (fam : family) (a s b : string) (chord0 : R) :
  pystr.all_chars pystr.isspace a = true →
  pystr.all_chars pystr.isspace b = true →
  parse fam (a ++ s ++ b)%string chord0 = parse fam s chord0
  ∧ (∀ q, parse fam (a ++ s ++ b)%string chord0 = Ok q →
          parsed_code q = pystr.strip s)
  ∧ (∀ n sp,
       generate_full fam (a ++ s ++ b)%string chord0 n sp
       = generate_full fam s chord0 n sp)
  ∧ (∀ n sp out,
       generate_full fam (a ++ s ++ b)%string chord0 n sp = Ok out →
       metrics out !! "code" = Some (VStr (pystr.strip s))).
Proof.
  intros Ha Hb. split_and!.
  - by apply facade_facts.parse_pad.
  - intros q Hq. apply facade_facts.parse_code in Hq.
    by rewrite (pystr_facts.strip_pad _ _ _ Ha Hb) in Hq.
  - intros n sp. by apply facade_facts.generate_full_pad.
  - intros n sp out Hout. apply facade_facts.full_code in Hout.
    by rewrite (pystr_facts.strip_pad _ _ _ Ha Hb) in Hout.
Qed.

Lemma parsers_strip_whitespace_witness :
  parse NACA4 " 2412 " 1 = parse NACA4 "2412" 1.
Proof.
  exact (proj1 (parsers_strip_whitespace NACA4 " " "2412" " " 1 eq_refl eq_refl)).
Defined.

(** C8, amended.  The metrics record that a family's full generation returns
    holds under the key [code] the input code with the whitespace around it
    dropped; it is the input itself when the input has no such whitespace. *)
Theorem metrics_code_round_trip (fam : family) (s : string) (chord0 : R)
    (n : Z) (sp : string) (out : full_result) :
  generate_full fam s chord0 n sp = Ok out →
  metrics out !! "code" = Some (VStr (pystr.strip s))
  ∧ (pystr.strip s = s → metrics out !! "code" = Some (VStr s)).
Proof.
  intros H%facade_facts.full_code. split; [done|]. by intros <-.
Qed.

Lemma metrics_code_round_trip_witness :
  ∃ out, generate_full NACA4 " 2412 " 1 1 "cosine" = Ok out
         ∧ metrics out !! "code" = Some (VStr "2412").
Proof.
  destruct naca4_padded_generates as [out H]. exists out. split; [exact H|].
  exact (proj1 (metrics_code_round_trip NACA4 " 2412 " 1 1 "cosine" out H)).
Defined.

(** C8 as stated fails: the parser accepts the input [" 2412 "], and the
    metrics of the full generation report ["2412"], not the input. *)
Lemma metrics_code_differs_from_padded_input :
  is_Ok (naca4.parse_naca4 " 2412 " 1)
  ∧ ∃ out, generate_full NACA4 " 2412 " 1 1 "cosine" = Ok out
           ∧ metrics out !! "code" = Some (VStr "2412")
           ∧ metrics out !! "code" ≠ Some (VStr " 2412 ").
Proof.
  split; [eexists; apply naca4_padded_parse|].
  destruct naca4_padded_generates as [out H]. exists out.
  pose proof (facade_facts.full_code NACA4 _ _ _ _ _ H) as Hc.
  change (pystr.strip " 2412 ") with "2412" in Hc.
  split_and!; [done|done|]. rewrite Hc. intros [=].
Qed.

(** C1, amended.  For the same chord, sample count and spacing,
    [generate_naca7_full] on a 7-series code made of the digit 7 followed by
    four digits [b] (for instance [72412]) gives the closed contour and the
    camber line of [generate_naca4_full] on [b] ([2412]), and fails as it
    fails. *)
Theorem naca7_geometry_is_naca4 (s b : string) (chord0 : R) (n : Z) (sp : string) :
  pystr.strip s = String "7" b →
  String.length b = 4%nat →
  pystr.isdigit b = true →
  geometry_of <$> naca7.generate_naca7_full s chord0 n sp
  = geometry_of <$> naca4.generate_naca4_full b chord0 n sp.
Proof.
  intros Hs Hl Hd. unfold naca7.generate_naca7_full, naca7.parse_naca7.
  rewrite Hs.
  assert ((pystr.len (String "7" b) <? 4)%Z = false) as ->.
  { apply Z.ltb_ge. unfold pystr.len. simpl String.length. lia. }
  assert (pystr.isdigit (String "7" b) = true) as ->.
  { simpl. by apply pystr_facts.isdigit_all. }
  cbn [orb negb pystr.getitem String.get mbind result_bind pystr.slice_from].
  change (String.eqb "7" "7") with true.
  assert ((pystr.len b =? 4)%Z = true) as ->.
  { apply Z.eqb_eq. unfold pystr.len. lia. }
  simpl. by destruct (naca4.generate_naca4_full b chord0 n sp).
Qed.

Lemma naca7_geometry_is_naca4_witness :
  geometry_of <$> naca7.generate_naca7_full "72412" 1 200 "cosine"
  = geometry_of <$> naca4.generate_naca4_full "2412" 1 200 "cosine".
Proof.
  exact (naca7_geometry_is_naca4 "72412" "2412" 1 200 "cosine"
           eq_refl eq_refl eq_refl).
Defined.

(** C1 as stated fails: [generate_naca7_full] produces no geometry on [7412]
    (three digits are left after the 7), and neither does
    [generate_naca4_full] on [412]. *)
Lemma naca7_7412_is_rejected :
  naca7.generate_naca7_full "7412" 1 200 "cosine" = Raise naca7.base4_error
  ∧ naca4.generate_naca4_full "412" 1 200 "cosine" = Raise naca4.format_error.
Proof. split; reflexivity. Qed.

(** * The closed contour *)

Module contour_facts.
Import common array_facts aux.

Lemma naca5_camber_length k1 r x cd :
  naca5.camber k1 r x = Ok cd → length cd = length x.
Proof.
  unfold naca5.camber. destruct x as [|x0 x]; [by intros [= <-]|].
  destruct k1, r; try done. intros [= <-]. simpl. by rewrite ?length_map.
Qed.

Lemma naca5_surfaces_lengths q n sp x yt yc0 sf :
  naca5.generate_surfaces q n sp = Ok (x, yt, yc0, sf) →
  length x = Z.to_nat n
  ∧ length (xu sf) = Z.to_nat n ∧ length (yu sf) = Z.to_nat n
  ∧ length (xl sf) = Z.to_nat n ∧ length (yl sf) = Z.to_nat n.
Proof.
  unfold naca5.generate_surfaces. destruct (_ =? _)%Z; [done|].
  intros H. inv_bind H as x' Hx. inv_bind H as p Hp. inv_bind H as r Hr.
  inv_bind H as k1 Hk. inv_bind H as cd Hcd.
  injection H as <- <- <- <-.
  apply naca5_camber_length in Hcd.
  apply sample_x_Ok in Hx as [_ Hx]. split; [done|].
  apply surfaces_of_lengths; rewrite ?thickness_length, ?length_map; congruence.
Qed.

Lemma naca6_surfaces_lengths q n sp x yt yc0 sf :
  naca6.generate_surfaces q n sp = Ok (x, yt, yc0, sf) →
  length x = Z.to_nat n
  ∧ length (xu sf) = Z.to_nat n ∧ length (yu sf) = Z.to_nat n
  ∧ length (xl sf) = Z.to_nat n ∧ length (yl sf) = Z.to_nat n.
Proof.
  unfold naca6.generate_surfaces. intros H. inv_bind H as x' Hx.
  injection H as <- <- <- <-.
  apply sample_x_Ok in Hx as [_ Hx]. simpl.
  by rewrite ?length_map, ?thickness_length.
Qed.

(** The metrics need at least one sample. *)
Lemma metrics_need_sample (yt : list R) v :
  np.max (map (Rmult 2) yt) = Ok v → (0 < length yt)%nat.
Proof. intros H%max_Ok. by rewrite length_map in H. Qed.

Lemma naca4_assembled s c n sp out :
  naca4.generate_naca4_full s c n sp = Ok out →
  (1 ≤ n)%Z ∧ ∃ sf, family_surfaces NACA4 s c n sp = Ok sf
                    ∧ assembled c (Z.to_nat n) sf out.
Proof.
  intros H. apply naca4_facts.full_inv in H
    as (q & x & yt & yc0 & sf & Hq & Hs & Hm & Hx & Hy & _).
  pose proof (naca4_facts.generate_surfaces_lengths _ _ _ _ _ _ _ Hs)
    as (Hn & _ & Hyt & Hlx & _ & Hxu & Hyu & Hxl & Hyl).
  unfold naca4.compute_metrics in Hm. inv_bind Hm as v Hv.
  apply metrics_need_sample in Hv.
  rewrite Hyt, thickness_length, Hlx in Hv.
  split; [lia|]. exists sf. split.
  - simpl. rewrite Hq. simpl. by rewrite Hs.
  - by split_and!.
Qed.

Lemma naca5_assembled s c n sp out :
  naca5.generate_naca5_full s c n sp = Ok out →
  (1 ≤ n)%Z ∧ ∃ sf, family_surfaces NACA5 s c n sp = Ok sf
                    ∧ assembled c (Z.to_nat n) sf out.
Proof.
  unfold naca5.generate_naca5_full. intros H.
  inv_bind H as q Hq. inv_bind H as g Hg. inv_bind H as mt Hm. injection H as <-.
  unfold naca5.generate_geometry in Hg. inv_bind Hg as [[[x yt] yc0] sf] Hs.
  injection Hg as <-. simpl in *.
  assert (naca5.chord q = c) as Hc.
  { unfold naca5.parse_naca5 in Hq. facade_facts.unravel Hq. by injection Hq as <-. }
  pose proof (naca5_surfaces_lengths _ _ _ _ _ _ _ Hs) as (Hlx & Hxu & Hyu & Hxl & Hyl).
  unfold naca5.compute_metrics in Hm. inv_bind Hm as v Hv.
  apply metrics_need_sample in Hv.
  assert (length yt = Z.to_nat n) as Hyt.
  { unfold naca5.generate_surfaces in Hs. facade_facts.unravel Hs.
    injection Hs as <- <- _ _. by rewrite thickness_length. }
  split; [lia|]. exists sf. split.
  - rewrite Hq. simpl. by rewrite Hs.
  - rewrite <- Hc. by split_and!.
Qed.

Lemma naca6_assembled s c n sp out :
  naca6.generate_naca6_full s c n sp = Ok out →
  (1 ≤ n)%Z ∧ ∃ sf, family_surfaces NACA6 s c n sp = Ok sf
                    ∧ assembled c (Z.to_nat n) sf out.
Proof.
  unfold naca6.generate_naca6_full. intros H.
  inv_bind H as q Hq. inv_bind H as g Hg. inv_bind H as mt Hm. injection H as <-.
  unfold naca6.generate_geometry in Hg. inv_bind Hg as [[[x yt] yc0] sf] Hs.
  injection Hg as <-. simpl in *.
  assert (naca6.chord q = c) as Hc.
  { unfold naca6.parse_naca6 in Hq. facade_facts.unravel Hq. by injection Hq as <-. }
  pose proof (naca6_surfaces_lengths _ _ _ _ _ _ _ Hs) as (Hlx & Hxu & Hyu & Hxl & Hyl).
  unfold naca6.compute_metrics in Hm. inv_bind Hm as v Hv.
  apply metrics_need_sample in Hv.
  assert (length yt = Z.to_nat n) as Hyt.
  { unfold naca6.generate_surfaces in Hs. facade_facts.unravel Hs.
    injection Hs as <- <- _ _. by rewrite thickness_length. }
  split; [lia|]. exists sf. split.
  - rewrite Hq. simpl. by rewrite Hs.
  - rewrite <- Hc. by split_and!.
Qed.

Lemma assembled_retag c n sf out m' :
  assembled c n sf out →
  assembled c n sf (FullResult (x_loop out) (y_loop out) (x_c out) (yc out) m').
Proof. done. Qed.

Lemma family_assembled fam s c n sp out :
  generate_full fam s c n sp = Ok out →
  (1 ≤ n)%Z ∧ ∃ sf, family_surfaces fam s c n sp = Ok sf
                    ∧ assembled c (Z.to_nat n) sf out.
Proof.
  destruct fam; simpl.
  - apply naca4_assembled.
  - apply naca5_assembled.
  - apply naca6_assembled.
  - unfold naca7.generate_naca7_full. intros H.
    inv_bind H as q Hq. inv_bind H as r4 Hr. injection H as <-.
    apply naca4_assembled in Hr as (Hn & sf & Hsf & Ha).
    split; [done|]. exists sf. rewrite Hq. split; [exact Hsf|].
    by apply assembled_retag.
  - unfold naca8.generate_naca8_full. intros H.
    inv_bind H as q Hq. inv_bind H as r4 Hr. injection H as <-.
    apply naca4_assembled in Hr as (Hn & sf & Hsf & Ha).
    split; [done|]. exists sf. rewrite Hq. split; [exact Hsf|].
    by apply assembled_retag.
Qed.

(** Where the samples of the two surfaces sit in a loop. *)
Lemma loop_positions {A} (u l : list A) (n : nat) :
  length u = n → length l = n → (1 ≤ n)%nat →
  length (reverse u ++ drop 1 l) = (2 * n - 1)%nat
  ∧ (∀ j, (j < n)%nat → (reverse u ++ drop 1 l) !! j = u !! (n - 1 - j)%nat)
  ∧ (∀ j, (1 ≤ j < n)%nat → (reverse u ++ drop 1 l) !! (n - 1 + j)%nat = l !! j).
Proof.
  intros Hu Hl Hn. split_and!.
  - rewrite length_app, length_reverse, length_drop. lia.
  - intros j Hj. rewrite lookup_app_l by (rewrite length_reverse; lia).
    rewrite reverse_lookup by lia. f_equal. lia.
  - intros j Hj. rewrite lookup_app_r by (rewrite length_reverse; lia).
    rewrite length_reverse, lookup_drop. f_equal. lia.
Qed.

End contour_facts.

Lemma naca7_72412_generates :
  is_Ok (generate_full NACA7 "72412" 1 200 "cosine").
Proof.
  destruct (naca4_facts.full_total "2412" 1 200 "cosine" _
              (parser_facts.parse_naca4_decode "2412" 1)) as [r4 H4];
    [lia|by left|].
  simpl. unfold naca7.generate_naca7_full.
  change (naca7.parse_naca7 "72412" 1)
    with (Ok {| naca7.code := "72412"; naca7.base4 := "2412"; naca7.chord := 1 |}).
  cbn [mbind result_bind naca7.base4]. rewrite H4. by eexists.
Qed.

(** * Camber, thickness and chord of the 4-digit family *)

Module metric_facts.
Import common array_facts naca4 aux.

Lemma parse_naca4_chord s c c' q :
  parse_naca4 s c = Ok q → parse_naca4 s c' = Ok (with_chord q c').
Proof.
  intros H%naca4_facts.parse_naca4_decoded.
  pose proof (parser_facts.parse_naca4_decode s c') as D.
  unfold naca4_decode in *.
  destruct (decimal_digits4 (pystr.strip s)) as [[[d1 d2] d34]|]; [|done].
  by injection H as <-.
Qed.

Lemma generate_surfaces_chord q c n sp :
  generate_surfaces (with_chord q c) n sp = generate_surfaces q n sp.
Proof. reflexivity. Qed.

(** The second digit of the code decides [p]. *)
Lemma second_digit_zero s c q :
  parse_naca4 s c = Ok q → String.get 1 (pystr.strip s) = Some "0"%char → p q = 0.
Proof.
  intros (a & b & c' & d & da & db & dc & dd & -> & _ & Hb & _ & _ & ->)
    %naca4_facts.parse_naca4_digits.
  simpl. intros [= ->].
  assert (db = 0%Z) as -> by (vm_compute in Hb; congruence).
  lra.
Qed.

Lemma camber_symmetric m0 x :
  camber m0 0 x = Ok (map (fun _ => 0) x, map (fun _ => 0) x).
Proof. unfold camber. by destruct (Req_dec_T 0 0). Qed.

Lemma Forall_zero_map {A} (x : list A) : Forall (fun v : R => v = 0) (map (fun _ => 0) x).
Proof. induction x; simpl; by constructor. Qed.

(** [np.max] commutes with a non-negative factor. *)
Lemma foldl_Rmax_scale k a l :
  0 <= k → foldl Rmax (k * a) (map (Rmult k) l) = k * foldl Rmax a l.
Proof.
  intros Hk. revert a. induction l as [|b l IH]; intros a; simpl; [done|].
  rewrite RmaxRmult by done. apply IH.
Qed.

Lemma max_scale k l u :
  0 <= k → np.max l = Ok u → np.max (map (Rmult k) l) = Ok (k * u).
Proof.
  intros Hk. destruct l as [|a l]; simpl; [done|].
  intros [= <-]. by rewrite foldl_Rmax_scale.
Qed.

Lemma twice_thickness t0 x :
  map (Rmult 2) (thickness t0 x) = map (Rmult t0) (map (Rmult 2) (thickness 1 x)).
Proof.
  unfold thickness. rewrite !map_map. apply map_ext. intros xi.
  unfold thickness_at. ring.
Qed.

Lemma lookup_max_thickness q c v1 v2 v3 v4 :
  (list_to_map [
    ("code", VStr (code q)); ("m", VFloat (m q)); ("p", VFloat (p q));
    ("t", VFloat (t q)); ("chord", VFloat c);
    ("max_thickness", VFloat v1); ("max_camber", VFloat v2);
    ("area", VFloat v3); ("leading_edge_radius", VFloat v4)]
    : gmap string value) !! "max_thickness" = Some (VFloat v1).
Proof.
  cbn [list_to_map foldr uncurry]. rewrite !lookup_insert_ne by done.
  apply lookup_insert_eq.
Qed.

Lemma lookup_area q c v1 v2 v3 v4 :
  (list_to_map [
    ("code", VStr (code q)); ("m", VFloat (m q)); ("p", VFloat (p q));
    ("t", VFloat (t q)); ("chord", VFloat c);
    ("max_thickness", VFloat v1); ("max_camber", VFloat v2);
    ("area", VFloat v3); ("leading_edge_radius", VFloat v4)]
    : gmap string value) !! "area" = Some (VFloat v3).
Proof.
  cbn [list_to_map foldr uncurry]. rewrite !lookup_insert_ne by done.
  apply lookup_insert_eq.
Qed.

Lemma sum_scale_l k a b :
  np.sum (zip_with Rmult (map (fun v => v * k) a) b) = k * np.sum (zip_with Rmult a b).
Proof.
  revert b. induction a as [|u a IH]; intros [|v b]; simpl; try lra.
  rewrite IH. lra.
Qed.

Lemma sum_scale_r k a b :
  np.sum (zip_with Rmult a (map (fun v => v * k) b)) = k * np.sum (zip_with Rmult a b).
Proof.
  revert b. induction a as [|u a IH]; intros [|v b]; simpl; try lra.
  rewrite IH. lra.
Qed.

Lemma roll_left_map (f : R → R) a : np.roll_left (map f a) = map f (np.roll_left a).
Proof. destruct a as [|u [|v a]]; simpl; try done. unfold np.roll_left. simpl.
       by rewrite map_app. Qed.

Lemma shoelace_scaled k xs ys :
  length xs = length ys →
  shoelace (map (fun v => v * k) xs) ys = Ok (Rabs k * (0.5 * Rabs (signed_sum xs ys))).
Proof.
  intros Hl. unfold shoelace, np.dot.
  rewrite !roll_left_length, !length_map, roll_left_map.
  rewrite !decide_True by done. simpl. f_equal.
  rewrite sum_scale_l, sum_scale_r. unfold signed_sum.
  rewrite <- Rmult_minus_distr_l, Rabs_mult. lra.
Qed.

End metric_facts.

Module chord_facts.
Import common array_facts naca4 aux metric_facts.

Lemma loops_same_length q n sp x yt yc0 sf :
  generate_surfaces q n sp = Ok (x, yt, yc0, sf) →
  length (np.closed_loop (xu sf) (xl sf)) = length (np.closed_loop (yu sf) (yl sf)).
Proof.
  intros H%naca4_facts.generate_surfaces_lengths.
  destruct H as (_ & _ & _ & _ & _ & Hxu & Hyu & Hxl & Hyl).
  rewrite !closed_loop_length. lia.
Qed.

Lemma full_build s c n sp q x yt yc0 sf mt mc :
  parse_naca4 s c = Ok q →
  generate_surfaces q n sp = Ok (x, yt, yc0, sf) →
  np.max (map (Rmult 2) yt) = Ok mt →
  np.max (map Rabs yc0) = Ok mc →
  generate_naca4_full s c n sp = Ok (full_of q c x yc0 sf mt mc).
Proof.
  intros Hq Hs Hmt Hmc.
  pose proof (naca4_facts.parse_naca4_fields _ _ _ Hq) as [_ Hc].
  unfold generate_naca4_full. rewrite Hq.
  cbn [mbind result_bind]. unfold generate_geometry. rewrite Hs.
  cbn [mbind result_bind mret result_ret g_x_loop g_y_loop g_x_c g_yc g_x g_yt
       assemble fst snd].
  unfold compute_metrics. rewrite Hmt, Hmc.
  cbn [mbind result_bind]. rewrite Hc.
  rewrite shoelace_scaled by (by eapply loops_same_length).
  cbn [mbind result_bind]. unfold full_of, mret, result_ret. reflexivity.
Qed.

Lemma full_eval s c n sp out :
  generate_naca4_full s c n sp = Ok out →
  ∃ q x yt yc0 sf mt mc,
    parse_naca4 s c = Ok q
    ∧ generate_surfaces q n sp = Ok (x, yt, yc0, sf)
    ∧ np.max (map (Rmult 2) yt) = Ok mt
    ∧ np.max (map Rabs yc0) = Ok mc
    ∧ out = full_of q c x yc0 sf mt mc.
Proof.
  intros H. pose proof H as H'. apply naca4_facts.full_inv in H'
    as (q & x & yt & yc0 & sf & Hq & Hs & Hm & _).
  unfold compute_metrics in Hm.
  inv_bind Hm as mt Hmt. inv_bind Hm as mc Hmc.
  exists q, x, yt, yc0, sf, mt, mc. split_and!; try done.
  pose proof (full_build _ _ _ _ _ _ _ _ _ _ _ Hq Hs Hmt Hmc) as E.
  congruence.
Qed.

Lemma full_of_area q c x yc0 sf mt mc :
  metrics (full_of q c x yc0 sf mt mc) !! "area"
  = Some (VFloat (Rabs c * (0.5 * Rabs (signed_sum (np.closed_loop (xu sf) (xl sf))
                                                    (np.closed_loop (yu sf) (yl sf)))))).
Proof. exact (lookup_area _ _ _ _ _ _). Qed.

Lemma full_of_thickness q c x yc0 sf mt mc :
  metrics (full_of q c x yc0 sf mt mc) !! "max_thickness" = Some (VFloat (mt * c)).
Proof. exact (lookup_max_thickness _ _ _ _ _ _). Qed.

End chord_facts.

Lemma naca4_2412_parse :
  naca4.parse_naca4 "2412" 1 =
    Ok {| naca4.code := "2412"; naca4.m := 2 / 100; naca4.p := 4 / 10;
          naca4.t := 12 / 100; naca4.chord := 1 |}.
Proof. exact (parser_facts.parse_naca4_decode "2412" 1). Qed.

Lemma naca4_2412_generates :
  is_Ok (naca4.generate_naca4_full "2412" 1 200 "cosine").
Proof.
  eapply naca4_facts.full_total; [apply naca4_2412_parse|lia|by left].
Qed.

Lemma naca4_0012_parse (c : R) :
  naca4.parse_naca4 "0012" c =
    Ok {| naca4.code := "0012"; naca4.m := 0 / 100; naca4.p := 0 / 10;
          naca4.t := 12 / 100; naca4.chord := c |}.
Proof. exact (parser_facts.parse_naca4_decode "0012" c). Qed.

Lemma naca4_0012_generates :
  is_Ok (naca4.generate_naca4_full "0012" 1 200 "cosine").
Proof.
  eapply naca4_facts.full_total; [apply naca4_0012_parse|lia|by left].
Qed.

(** C7.  For a valid 4-digit code whose second digit is 0 the parser gives
    [p = 0]; the camber loop then returns zero ordinates and zero slopes for
    every sample array, and the camber line of the full generation is zero at
    each of its [n_points] samples, whatever the sample count and spacing. *)
Theorem symmetric_code_zero_camber (s : string) (chord0 : R) (n : Z) (sp : string)
    (q : naca4.NACA4Params) :
  naca4.parse_naca4 s chord0 = Ok q →
  String.get 1 (pystr.strip s) = Some "0"%char →
  naca4.p q = 0
  ∧ (∀ x, naca4.camber (naca4.m q) (naca4.p q) x
          = Ok (map (fun _ => 0) x, map (fun _ => 0) x))
  ∧ (∀ out, naca4.generate_naca4_full s chord0 n sp = Ok out →
            length (yc out) = Z.to_nat n ∧ Forall (fun v => v = 0) (yc out)).
Proof.
  intros Hq Hd. pose proof (metric_facts.second_digit_zero _ _ _ Hq Hd) as Hp.
  split_and!; [done| |].
  - intros x. rewrite Hp. apply metric_facts.camber_symmetric.
  - intros out Hout. apply naca4_facts.full_inv in Hout
      as (q' & x & yt & yc0 & sf & Hq' & Hs & _ & _ & _ & _ & ->).
    assert (q' = q) as -> by congruence.
    pose proof (naca4_facts.generate_surfaces_lengths _ _ _ _ _ _ _ Hs)
      as (_ & _ & _ & _ & Hl & _).
    split; [done|].
    unfold naca4.generate_surfaces in Hs.
    inv_bind Hs as x' Hx. inv_bind Hs as cd Hcd.
    rewrite Hp, metric_facts.camber_symmetric in Hcd.
    injection Hcd as <-. injection Hs as _ _ <- _. simpl.
    apply metric_facts.Forall_zero_map.
Qed.

Lemma symmetric_code_zero_camber_witness :
  ∃ out, naca4.generate_naca4_full "0012" 1 200 "cosine" = Ok out
         ∧ length (yc out) = 200%nat ∧ Forall (fun v => v = 0) (yc out).
Proof.
  destruct naca4_0012_generates as [out H]. exists out. split; [exact H|].
  exact (proj2 (proj2 (symmetric_code_zero_camber "0012" 1 200 "cosine" _
                         (naca4_0012_parse 1) eq_refl)) out H).
Defined.

(** C6.  The [max_thickness] metric is [max(2*yt) * chord], and [yt] is
    proportional to the thickness fraction [t] decoded from the last two
    digits: with [u] the maximum of [2*yt] computed for [t = 1] on the same
    samples (it depends on the sample count and spacing only), [max(2*yt)] is
    [t * u] and the metric is [t * u * chord]. *)
Theorem max_thickness_linear (s : string) (chord0 : R) (n : Z) (sp : string)
    (out : full_result) :
  naca4.generate_naca4_full s chord0 n sp = Ok out →
  ∃ (q : naca4.NACA4Params) (x : list R) (u : R),
    naca4.parse_naca4 s chord0 = Ok q
    ∧ common.sample_x n sp = Ok x
    ∧ np.max (map (Rmult 2) (common.thickness 1 x)) = Ok u
    ∧ np.max (map (Rmult 2) (common.thickness (naca4.t q) x)) = Ok (naca4.t q * u)
    ∧ metrics out !! "max_thickness" = Some (VFloat (naca4.t q * u * chord0)).
Proof.
  intros H. apply chord_facts.full_eval in H
    as (q & x & yt & yc0 & sf & mt & mc & Hq & Hs & Hmt & Hmc & ->).
  pose proof (naca4_facts.generate_surfaces_lengths _ _ _ _ _ _ _ Hs)
    as (_ & Hx & -> & Hl & _).
  pose proof (naca4_facts.parse_naca4_ranges _ _ _ Hq) as (_ & _ & Ht & _).
  destruct (array_facts.max_total (map (Rmult 2) (common.thickness 1 x))) as [u Hu].
  { apply array_facts.max_Ok in Hmt.
    by rewrite length_map, array_facts.thickness_length in *. }
  pose proof (metric_facts.max_scale (naca4.t q) _ u Ht Hu) as Hs'.
  rewrite <- metric_facts.twice_thickness in Hs'.
  exists q, x, u. split_and!; try done.
  rewrite chord_facts.full_of_thickness. congruence.
Qed.

Lemma max_thickness_linear_witness :
  ∃ out u, naca4.generate_naca4_full "2412" 1 200 "cosine" = Ok out
           ∧ metrics out !! "max_thickness" = Some (VFloat (12 / 100 * u * 1)).
Proof.
  destruct naca4_2412_generates as [out H]. exists out.
  destruct (max_thickness_linear "2412" 1 200 "cosine" out H)
    as (q & x & u & Hq & _ & _ & _ & Hm).
  exists u. split; [exact H|].
  rewrite naca4_2412_parse in Hq. injection Hq as <-. exact Hm.
Defined.

(** C9, amended.  The chord touches the x coordinates only: a 4-digit
    generation at chord [c] succeeds exactly as the one at chord 1 does, its
    [y_loop] is the chord-1 [y_loop], its [x_loop] is [c] times the chord-1
    [x_loop], and its area is [|c|] times the chord-1 area; hence [c] times
    that area for [c >= 0], linear rather than quadratic in the chord. *)
Theorem chord_scales_x_only (s : string) (chord0 : R) (n : Z) (sp : string)
    (out : full_result) :
  naca4.generate_naca4_full s chord0 n sp = Ok out →
  ∃ (out1 : full_result) (a1 : R),
    naca4.generate_naca4_full s 1 n sp = Ok out1
    ∧ y_loop out = y_loop out1
    ∧ x_loop out = map (fun v => v * chord0) (x_loop out1)
    ∧ metrics out1 !! "area" = Some (VFloat a1)
    ∧ metrics out !! "area" = Some (VFloat (Rabs chord0 * a1))
    ∧ (0 <= chord0 → metrics out !! "area" = Some (VFloat (chord0 * a1))).
Proof.
  intros H. apply chord_facts.full_eval in H
    as (q & x & yt & yc0 & sf & mt & mc & Hq & Hs & Hmt & Hmc & ->).
  pose proof (metric_facts.parse_naca4_chord _ _ 1 _ Hq) as Hq1.
  pose proof (chord_facts.full_build s 1 n sp _ x yt yc0 sf mt mc Hq1 Hs Hmt Hmc) as H1.
  set (S := 0.5 * Rabs (aux.signed_sum
                          (np.closed_loop (common.xu sf) (common.xl sf))
                          (np.closed_loop (common.yu sf) (common.yl sf)))).
  exists (aux.full_of (aux.with_chord q 1) 1 x yc0 sf mt mc), S.
  assert (metrics (aux.full_of q chord0 x yc0 sf mt mc) !! "area"
          = Some (VFloat (Rabs chord0 * S))) as Ha
    by apply chord_facts.full_of_area.
  split_and!.
  - exact H1.
  - reflexivity.
  - cbn [x_loop aux.full_of]. rewrite map_map. apply map_ext. intros v. lra.
  - rewrite chord_facts.full_of_area. fold S. rewrite Rabs_R1. do 2 f_equal. lra.
  - exact Ha.
  - intros Hc. rewrite Ha, Rabs_pos_eq by done. reflexivity.
Qed.

Lemma chord_scales_x_only_witness :
  ∃ out out1, naca4.generate_naca4_full "2412" 2 200 "cosine" = Ok out
              ∧ naca4.generate_naca4_full "2412" 1 200 "cosine" = Ok out1
              ∧ y_loop out = y_loop out1
              ∧ x_loop out = map (fun v => v * 2) (x_loop out1).
Proof.
  destruct (naca4_facts.full_total "2412" 2 200 "cosine" _
              (parser_facts.parse_naca4_decode "2412" 2)) as [out H];
    [lia|by left|].
  exists out.
  destruct (chord_scales_x_only "2412" 2 200 "cosine" out H)
    as (out1 & a1 & H1 & Hy & Hx & _).
  exists out1. split; [exact H|]. split; [exact H1|]. split; [exact Hy|exact Hx].
Defined.

Module example_0012.
Import common naca4 aux.

Lemma linspace_two : np.linspace 0 1 2 = Ok [0; 1].
Proof.
  unfold np.linspace. change (2 <? 0)%Z with false. change (Z.to_nat 2) with 2%nat.
  cbn [seq map app]. do 2 f_equal. simpl INR. lra.
Qed.

Lemma thickness_at_0 t0 : thickness_at t0 0 = 0.
Proof. unfold thickness_at. rewrite sqrt_0. ring. Qed.

Lemma thickness_at_1 : thickness_at (12 / 100) 1 = 126 / 100000.
Proof. unfold thickness_at. rewrite sqrt_1. lra. Qed.

Lemma surfaces_0012 c :
  generate_surfaces
    {| code := "0012"; m := 0 / 100; p := 0 / 10; t := 12 / 100; chord := c |}
    2 "linear"
  = Ok ([0; 1], thickness (12 / 100) [0; 1], [0; 0],
        surfaces_of [0; 1] (thickness (12 / 100) [0; 1]) [0; 0] (map atan [0; 0])).
Proof.
  unfold generate_surfaces, sample_x.
  rewrite decide_False by done. rewrite decide_True by done.
  rewrite linspace_two. cbn [mbind result_bind t m p].
  unfold camber. destruct (Req_dec_T (0 / 10) 0) as [_|Hne]; [|exfalso; lra].
  reflexivity.
Qed.

Lemma signed_sum_0012 :
  aux.signed_sum
    (np.closed_loop
       (xu (surfaces_of [0; 1] (thickness (12 / 100) [0; 1]) [0; 0] (map atan [0; 0])))
       (xl (surfaces_of [0; 1] (thickness (12 / 100) [0; 1]) [0; 0] (map atan [0; 0]))))
    (np.closed_loop
       (yu (surfaces_of [0; 1] (thickness (12 / 100) [0; 1]) [0; 0] (map atan [0; 0])))
       (yl (surfaces_of [0; 1] (thickness (12 / 100) [0; 1]) [0; 0] (map atan [0; 0]))))
  = 252 / 100000.
Proof.
  unfold aux.signed_sum, np.closed_loop, np.roll_left, np.sum,
    surfaces_of, thickness.
  cbn [xu yu xl yl map zip_with reverse rev_append drop take app foldr].
  rewrite atan_0, sin_0, cos_0, thickness_at_0, thickness_at_1. lra.
Qed.

(** The area metric of the code [0012] on two linearly spaced samples. *)
Lemma area_0012 c out :
  generate_naca4_full "0012" c 2 "linear" = Ok out →
  metrics out !! "area" = Some (VFloat (Rabs c * (0.5 * Rabs (252 / 100000)))).
Proof.
  intros H. apply chord_facts.full_eval in H
    as (q & x & yt & yc0 & sf & mt & mc & Hq & Hs & Hmt & Hmc & ->).
  rewrite naca4_0012_parse in Hq. injection Hq as <-.
  rewrite surfaces_0012 in Hs. injection Hs as <- <- <- <-.
  pose proof signed_sum_0012 as E. unfold thickness in E. cbn [map] in E.
  rewrite chord_facts.full_of_area, E. reflexivity.
Qed.

End example_0012.

(** C9 as stated fails for a negative chord: for the code [0012] on two
    linearly spaced samples the area at chord [-1] is the (positive) area at
    chord 1, not [-1] times it. *)
Lemma area_at_negative_chord :
  ∃ out out1 a a1,
    naca4.generate_naca4_full "0012" (-1) 2 "linear" = Ok out
    ∧ naca4.generate_naca4_full "0012" 1 2 "linear" = Ok out1
    ∧ metrics out !! "area" = Some (VFloat a)
    ∧ metrics out1 !! "area" = Some (VFloat a1)
    ∧ a ≠ -1 * a1.
Proof.
  destruct (naca4_facts.full_total "0012" (-1) 2 "linear" _ (naca4_0012_parse (-1)))
    as [out H]; [lia|by right|].
  destruct (naca4_facts.full_total "0012" 1 2 "linear" _ (naca4_0012_parse 1))
    as [out1 H1]; [lia|by right|].
  exists out, out1. eexists. eexists.
  split_and!; [exact H|exact H1|by apply example_0012.area_0012
              |by apply example_0012.area_0012|].
  assert (Rabs (-1) = 1) as -> by (rewrite Rabs_left; lra).
  rewrite Rabs_R1, (Rabs_pos_eq (252 / 100000)) by lra. lra.
Qed.

(** * Floats *)

Module float_facts.
Import pyfloat.

Lemma overflow_bound_large : 1000000 < overflow_bound.
Proof. unfold overflow_bound. apply (IZR_lt 1000000). reflexivity. Qed.

Lemma overflow_bound_pos : 0 < overflow_bound.
Proof. pose proof overflow_bound_large. lra. Qed.

Lemma round_finite x : - overflow_bound < x < overflow_bound → round x = Finite x.
Proof.
  intros [H1 H2]. unfold round.
  destruct (Rle_dec overflow_bound x); [lra|].
  destruct (Rle_dec x (- overflow_bound)); [lra|]. done.
Qed.

Lemma round_small x : -1000000 <= x <= 1000000 → round x = Finite x.
Proof. intros H. apply round_finite. pose proof overflow_bound_large. lra. Qed.

Lemma round_overflow x : overflow_bound <= x → round x = PosInf.
Proof. intros H. unfold round. by destruct (Rle_dec overflow_bound x). Qed.

Lemma of_int_digit z : (0 ≤ z ≤ 9)%Z → of_int z = Ok (Finite (IZR z)).
Proof.
  intros [H0 H9]. unfold of_int. apply IZR_le in H0, H9.
  rewrite round_small by lra. done.
Qed.

End float_facts.

(** * The camber constant of the 5-digit family *)

Module naca5_facts.
Import naca5 pyfloat float_facts.

Lemma r_iter_pos xmc k : 0 <= xmc → 0 < r_iter xmc k.
Proof.
  intros Hx. induction k as [|k IH]; simpl; [lra|].
  assert (0 < R_sqrt.sqrt (r_iter xmc k / 3)) by (apply sqrt_lt_R0; lra).
  nra.
Qed.

(** One turn of the loop on a finite iterate whose successor is finite. *)
Lemma r_loop_turn xmc tol max_iter fuel k d :
  0 <= xmc →
  r_iter xmc k < overflow_bound →
  r_iter xmc (S k) < overflow_bound →
  d > tol → (Z.of_nat k < max_iter)%Z →
  r_loop (Finite xmc) (Finite tol) max_iter (S fuel) (solver_at xmc k d)
  = r_loop (Finite xmc) (Finite tol) max_iter fuel
      (solver_at xmc (S k) (step_size xmc (S k))).
Proof.
  intros Hx Hk HSk Hd Hlt. cbn [r_loop solver_at r_old diff it gt].
  destruct (Rgt_dec d tol) as [_|Hn]; [|done].
  assert ((Z.of_nat k <? max_iter)%Z = true) as -> by (by apply Z.ltb_lt).
  cbn [andb]. pose proof (r_iter_pos xmc k Hx) as Hpos.
  pose proof overflow_bound_pos as HB.
  set (r := r_iter xmc k) in *.
  unfold div. destruct (Req_dec_T 3 0) as [E|_]; [lra|].
  rewrite (round_finite (r / 3)) by lra.
  cbn [mbind result_bind pymath.sqrt].
  destruct (Rlt_dec (r / 3) 0) as [E|_]; [lra|].
  cbn [mbind result_bind].
  assert (0 < R_sqrt.sqrt (r / 3)) as Hs by (apply sqrt_lt_R0; lra).
  cbn [r_iter] in HSk. fold r in HSk.
  assert (0 < r * R_sqrt.sqrt (r / 3)) as Hrs by (by apply Rmult_lt_0_compat).
  cbn [mul]. rewrite (round_finite (r * R_sqrt.sqrt (r / 3))) by lra.
  cbn [add]. rewrite (round_finite (xmc + r * R_sqrt.sqrt (r / 3))) by lra.
  unfold sub. cbn [opp add].
  rewrite (round_finite (xmc + r * R_sqrt.sqrt (r / 3) + - r)) by lra.
  cbn [abs]. f_equal. unfold solver_at, step_size. cbn [r_iter pred]. fold r.
  replace (xmc + r * R_sqrt.sqrt (r / 3) + - r)
    with (xmc + r * R_sqrt.sqrt (r / 3) - r) by lra.
  f_equal. lia.
Qed.

(** The loop, entered after [i] turns on finite iterates that stay finite,
    leaves with the iterate of the first turn [k] at which the test of the
    loop fails. *)
Lemma r_loop_run xmc tol max_iter :
  0 <= xmc → (∀ j, r_iter xmc j < overflow_bound) → ∀ fuel i d,
  ∃ k, (i ≤ k ≤ i + fuel)%nat
       ∧ r_loop (Finite xmc) (Finite tol) max_iter fuel (solver_at xmc i d)
         = Ok (solver_at xmc k (diff_at xmc i d k))
       ∧ (∀ j, (i ≤ j < k)%nat →
            diff_at xmc i d j > tol ∧ (Z.of_nat j < max_iter)%Z)
       ∧ ((k < i + fuel)%nat →
          ¬ (diff_at xmc i d k > tol ∧ (Z.of_nat k < max_iter)%Z)).
Proof.
  intros Hx Hfin. induction fuel as [|fuel IH]; intros i d.
  - exists i. split_and!; [lia|lia| |intros; lia|lia].
    simpl. unfold diff_at. by rewrite decide_True.
  - destruct (Rgt_dec d tol) as [Hd|Hd];
      [destruct (Z.ltb_spec (Z.of_nat i) max_iter) as [Hi|Hi]|].
    + rewrite (r_loop_turn _ _ _ _ _ _ Hx (Hfin i) (Hfin (S i)) Hd Hi).
      destruct (IH (S i) (step_size xmc (S i))) as (k & Hk & Hr & Hbefore & Hexit).
      exists k. split_and!; [lia|lia| | |].
      * rewrite Hr. unfold diff_at. repeat case_decide; try lia; subst; done.
      * intros j Hj. unfold diff_at. case_decide as Hji; [by subst j|].
        specialize (Hbefore j ltac:(lia)). unfold diff_at in Hbefore.
        by case_decide; [subst j|].
      * intros Hlt. unfold diff_at. case_decide as Hki; [lia|].
        specialize (Hexit ltac:(lia)). unfold diff_at in Hexit.
        by case_decide; [subst k|].
    + exists i. split_and!; [lia|lia| |intros; lia|].
      * cbn [r_loop solver_at r_old diff it gt].
        assert ((Z.of_nat i <? max_iter)%Z = false) as -> by (by apply Z.ltb_ge).
        rewrite andb_false_r. unfold diff_at. by rewrite decide_True.
      * intros _ [_ ?]. lia.
    + exists i. split_and!; [lia|lia| |intros; lia|].
      * cbn [r_loop solver_at r_old diff it gt].
        destruct (Rgt_dec d tol); [done|]. cbn [andb].
        unfold diff_at. by rewrite decide_True.
      * intros _ [? _]. unfold diff_at in *. by rewrite decide_True in *.
Qed.

(** The run with the default tolerance and iteration cap, on iterates that
    stay finite. *)
Lemma solver_run_finite xmc :
  0 <= xmc → (∀ j, r_iter xmc j < overflow_bound) →
  ∃ k, (1 ≤ k ≤ 1000)%nat
       ∧ solver_run (Finite xmc) (Finite tol_default) max_iter_default
         = Ok (solver_at xmc k (step_size xmc k))
       ∧ (∀ j, (1 ≤ j < k)%nat → step_size xmc j > tol_default)
       ∧ ((k < 1000)%nat → step_size xmc k <= tol_default).
Proof.
  intros Hx Hfin. unfold solver_run.
  destruct (r_loop_run xmc tol_default max_iter_default Hx Hfin
              (Z.to_nat max_iter_default) 0%nat 1)
    as (k & Hk & Hr & Hbefore & Hexit).
  change (Z.to_nat max_iter_default) with 1000%nat in *.
  change (solver_at xmc 0 1) with solver_init in Hr.
  assert (1 > tol_default) as Htol by (unfold tol_default; lra).
  assert (1 ≤ k)%nat as Hk1.
  { destruct k; [|lia]. exfalso. apply Hexit; [lia|].
    unfold diff_at. rewrite decide_True by done. split; [done|].
    unfold max_iter_default. lia. }
  exists k. split_and!; [lia|lia| | |].
  - rewrite Hr. unfold diff_at. by rewrite decide_False by lia.
  - intros j Hj. destruct (Hbefore j ltac:(lia)) as [Hb _]. unfold diff_at in Hb.
    by rewrite decide_False in Hb by lia.
  - intros Hlt. specialize (Hexit ltac:(lia)). unfold diff_at in Hexit.
    rewrite decide_False in Hexit by lia.
    destruct (Rle_dec (step_size xmc k) tol_default) as [|Hn]; [done|].
    exfalso. apply Hexit. split; [lra|]. unfold max_iter_default. lia.
Qed.

Lemma compute_r_of_run xmc tol max_iter st :
  solver_run xmc tol max_iter = Ok st →
  _compute_r_standard xmc tol max_iter = Ok (r_old st).
Proof. unfold _compute_r_standard. by intros ->. Qed.

End naca5_facts.

Module solver_facts.
Import naca5 pyfloat float_facts.

(** Digits 0 to 8: the iterates stay inside (0, 0.9). *)
Lemma r_iter_small xmc k : 0 <= xmc <= 0.4 → 0 < r_iter xmc k < 0.9.
Proof.
  intros Hx. induction k as [|k IH]; simpl; [lra|].
  set (r := r_iter xmc k) in *.
  assert (0 < R_sqrt.sqrt (r / 3)) as Hs0 by (apply sqrt_lt_R0; lra).
  assert (R_sqrt.sqrt (r / 3) <= 0.55) as Hs1.
  { rewrite <- (sqrt_square 0.55) by lra. apply sqrt_le_1_alt. lra. }
  nra.
Qed.

Lemma r_iter_finite xmc j : 0 <= xmc <= 0.4 → r_iter xmc j < overflow_bound.
Proof.
  intros Hx. pose proof (r_iter_small xmc j Hx).
  pose proof overflow_bound_large. lra.
Qed.

(** From the first turn on the iterate is at least [xmc]. *)
Lemma r_iter_above xmc k : 0 <= xmc → (1 ≤ k)%nat → xmc <= r_iter xmc k.
Proof.
  intros Hx Hk. destruct k as [|k]; [lia|]. cbn [r_iter].
  pose proof (naca5_facts.r_iter_pos xmc k Hx).
  assert (0 <= R_sqrt.sqrt (r_iter xmc k / 3)) by apply sqrt_pos. nra.
Qed.

(** Digit 9: every turn moves the iterate up by at least 0.005. *)
Lemma r_iter_step_9 k : r_iter 0.45 (S k) - r_iter 0.45 k >= 0.005.
Proof.
  simpl. pose proof (naca5_facts.r_iter_pos 0.45 k ltac:(lra)) as Hr.
  generalize dependent (r_iter 0.45 k). intros r Hr.
  assert (0 <= R_sqrt.sqrt (r / 3)) as Hs0 by apply sqrt_pos.
  assert (R_sqrt.sqrt (r / 3) * R_sqrt.sqrt (r / 3) = r / 3) as Hss
    by (apply sqrt_sqrt; lra).
  generalize dependent (R_sqrt.sqrt (r / 3)). intros s Hs0 Hss.
  assert (r = 3 * (s * s)) as -> by lra.
  assert (0 <= 3 * s + 1) as Hp by lra.
  pose proof (Rmult_le_pos _ _ (pow2_ge_0 (3 * s - 2)) Hp).
  nra.
Qed.

Lemma r_iter_grows_9 k : r_iter 0.45 k >= 0.1 + 0.005 * INR k.
Proof.
  induction k as [|k IH]; [simpl; lra|].
  pose proof (r_iter_step_9 k). rewrite S_INR. lra.
Qed.

Lemma r_iter_mono_9 j k : (j ≤ k)%nat → r_iter 0.45 j <= r_iter 0.45 k.
Proof.
  induction 1 as [|k _ IH]; [lra|]. pose proof (r_iter_step_9 k). lra.
Qed.

Lemma step_size_9 k : (1 ≤ k)%nat → step_size 0.45 k > tol_default.
Proof.
  destruct k as [|k]; [lia|]. intros _. unfold step_size. cbn [pred].
  pose proof (r_iter_step_9 k). unfold tol_default.
  rewrite Rabs_pos_eq; lra.
Qed.

(** Digit 9: from 3 on every turn adds at least 0.45. *)
Lemma r_iter_9_add k m :
  3 <= r_iter 0.45 k → 3 + 0.45 * INR m <= r_iter 0.45 (k + m).
Proof.
  intros Hk. induction m as [|m IH].
  - rewrite Nat.add_0_r. simpl. lra.
  - replace (k + S m)%nat with (S (k + m)) by lia. rewrite S_INR. cbn [r_iter].
    set (r := r_iter 0.45 (k + m)) in *.
    assert (0 <= INR m) by apply pos_INR.
    assert (1 <= R_sqrt.sqrt (r / 3)) as Hs.
    { rewrite <- sqrt_1. apply sqrt_le_1_alt. lra. }
    nra.
Qed.

(** Digit 9: from [3 * c^2] on every turn multiplies by at least [c]. *)
Lemma r_iter_9_times c a k m :
  1 <= c → 3 * (c * c) <= a → a <= r_iter 0.45 k →
  a * c ^ m <= r_iter 0.45 (k + m).
Proof.
  intros Hc Ha Hk. induction m as [|m IH].
  - rewrite Nat.add_0_r. simpl. lra.
  - replace (k + S m)%nat with (S (k + m)) by lia. cbn [r_iter pow].
    set (r := r_iter 0.45 (k + m)) in *.
    assert (1 <= c ^ m) as Hcm by (by apply pow_R1_Rle).
    assert (3 * (c * c) <= r) as Hr by nra.
    assert (c <= R_sqrt.sqrt (r / 3)) as Hs.
    { rewrite <- (sqrt_square c) by lra. apply sqrt_le_1_alt. lra. }
    rewrite <- tech_pow_Rmult.
    assert (r * c <= r * R_sqrt.sqrt (r / 3)) by nra.
    assert (a * c ^ m * c <= r * c) by nra.
    lra.
Qed.

(** Digit 9: the exact iterates leave the range of binary64 within 765
    turns. *)
Lemma r_iter_9_overflows : overflow_bound <= r_iter 0.45 765.
Proof.
  assert (3 <= r_iter 0.45 580) as H1.
  { pose proof (r_iter_grows_9 580) as Hg. rewrite INR_IZR_INZ in Hg.
    change (Z.of_nat 580) with 580%Z in Hg. lra. }
  assert (12 <= r_iter 0.45 600) as H2.
  { pose proof (r_iter_9_add 580 20 H1) as Hg. rewrite INR_IZR_INZ in Hg.
    change (Z.of_nat 20) with 20%Z in Hg.
    change (580 + 20)%nat with 600%nat in Hg. lra. }
  assert (30000 <= r_iter 0.45 612) as H3.
  { pose proof (r_iter_9_times 2 12 600 12 ltac:(lra) ltac:(lra) H2) as Hg.
    change (600 + 12)%nat with 612%nat in Hg.
    assert (2 ^ 12 = 4096) as E by (simpl; lra). rewrite E in Hg. lra. }
  pose proof (r_iter_9_times 100 30000 612 153 ltac:(lra) ltac:(lra) H3) as Hg.
  change (612 + 153)%nat with 765%nat in Hg.
  apply Rle_trans with (30000 * 100 ^ 153); [|exact Hg].
  unfold overflow_bound. rewrite pow_IZR, <- mult_IZR.
  apply IZR_le. by vm_compute.
Qed.

(** The first turn whose exact iterate is out of the range of binary64. *)
Lemma first_overflow_9 :
  ∃ J, (1 ≤ J ≤ 765)%nat
       ∧ overflow_bound <= r_iter 0.45 J
       ∧ ∀ j, (j < J)%nat → r_iter 0.45 j < overflow_bound.
Proof.
  assert (∀ n, overflow_bound <= r_iter 0.45 n →
            ∃ J, (J ≤ n)%nat ∧ overflow_bound <= r_iter 0.45 J
                 ∧ ∀ j, (j < J)%nat → r_iter 0.45 j < overflow_bound) as Hsearch.
  { induction n as [|n IH]; intros Hn.
    - exists 0%nat. split_and!; [lia|done|intros; lia].
    - destruct (Rle_dec overflow_bound (r_iter 0.45 n)) as [Hle|Hlt].
      + destruct (IH Hle) as (J & HJ & H1 & H2). exists J. split_and!; [lia|done|done].
      + exists (S n). split_and!; [lia|done|]. intros j Hj.
        pose proof (r_iter_mono_9 j n ltac:(lia)). lra. }
  destruct (Hsearch 765%nat r_iter_9_overflows) as (J & HJ & H1 & H2).
  exists J. split_and!; [|lia|done|done].
  destruct J; [|lia]. exfalso. simpl in H1.
  pose proof overflow_bound_large. lra.
Qed.

(** [n] turns of the loop on finite iterates. *)
Lemma r_loop_prefix xmc tol max_iter fuel :
  0 <= xmc → ∀ n i d,
  (∀ j, (i ≤ j ≤ i + n)%nat → r_iter xmc j < overflow_bound) →
  (∀ j, (i ≤ j < i + n)%nat →
     diff_at xmc i d j > tol ∧ (Z.of_nat j < max_iter)%Z) →
  r_loop (Finite xmc) (Finite tol) max_iter (n + fuel) (solver_at xmc i d)
  = r_loop (Finite xmc) (Finite tol) max_iter fuel
      (solver_at xmc (i + n) (diff_at xmc i d (i + n))).
Proof.
  intros Hx. induction n as [|n IH]; intros i d Hfin Hgo.
  - rewrite Nat.add_0_r. unfold diff_at. by rewrite decide_True.
  - destruct (Hgo i ltac:(lia)) as [Hd Hi].
    unfold diff_at in Hd. rewrite decide_True in Hd by done.
    change (S n + fuel)%nat with (S (n + fuel)).
    rewrite (naca5_facts.r_loop_turn _ _ _ _ _ _ Hx
               (Hfin i ltac:(lia)) (Hfin (S i) ltac:(lia)) Hd Hi).
    rewrite IH.
    + replace (S i + n)%nat with (i + S n)%nat by lia.
      unfold diff_at. repeat case_decide; try lia; try done.
      by match goal with E : _ = S i |- _ => rewrite E end.
    + intros j Hj. apply Hfin. lia.
    + intros j Hj. specialize (Hgo j ltac:(lia)). unfold diff_at in *.
      repeat case_decide; try lia; try done. by subst.
Qed.

Lemma r_loop_unfold xmc tol max_iter fuel st :
  r_loop xmc tol max_iter (S fuel) st =
    if gt (diff st) tol && (it st <? max_iter)%Z then
      q ← div (r_old st) (Finite 3);
      s ← pymath.sqrt q;
      let r := add xmc (mul (r_old st) s) in
      r_loop xmc tol max_iter fuel
        {| r_old := r; diff := abs (sub r (r_old st)); it := (it st + 1)%Z |}
    else Ok st.
Proof. reflexivity. Qed.

(** The loop is left as soon as the difference is NaN. *)
Lemma r_loop_nan xmc tol max_iter fuel r i :
  r_loop xmc tol max_iter fuel {| r_old := r; diff := NaN; it := i |}
  = Ok {| r_old := r; diff := NaN; it := i |}.
Proof. destruct fuel; [done|]. rewrite r_loop_unfold. done. Qed.

(** The turn at which the iterate overflows and the turn after it: the
    iterate becomes infinite, then the difference becomes NaN and the loop
    is left. *)
Lemma r_loop_overflow xmc tol max_iter fuel k d :
  0 <= xmc →
  r_iter xmc k < overflow_bound →
  overflow_bound <= r_iter xmc (S k) →
  d > tol → (Z.of_nat k + 1 < max_iter)%Z →
  r_loop (Finite xmc) (Finite tol) max_iter (S (S fuel)) (solver_at xmc k d)
  = Ok {| r_old := PosInf; diff := NaN; it := (Z.of_nat k + 1 + 1)%Z |}.
Proof.
  intros Hx Hk HSk Hd Hlt.
  pose proof (naca5_facts.r_iter_pos xmc k Hx) as Hpos.
  pose proof overflow_bound_pos as HB.
  cbn [r_iter] in HSk. set (r := r_iter xmc k) in *.
  assert (0 < R_sqrt.sqrt (r / 3)) as Hs by (apply sqrt_lt_R0; lra).
  assert (0 < r * R_sqrt.sqrt (r / 3)) as Hrs by (by apply Rmult_lt_0_compat).
  (* the turn of the overflow *)
  rewrite r_loop_unfold. cbn [solver_at r_old diff it gt]. fold r.
  destruct (Rgt_dec d tol) as [_|Hn]; [|done].
  assert ((Z.of_nat k <? max_iter)%Z = true) as -> by (apply Z.ltb_lt; lia).
  cbn [andb]. unfold div. destruct (Req_dec_T 3 0) as [E|_]; [lra|].
  rewrite (round_finite (r / 3)) by lra.
  cbn [mbind result_bind pymath.sqrt].
  destruct (Rlt_dec (r / 3) 0) as [E|_]; [lra|].
  cbn [mbind result_bind].
  assert (add (Finite xmc) (mul (Finite r) (Finite (R_sqrt.sqrt (r / 3)))) = PosInf)
    as ->.
  { cbn [mul]. unfold round at 1.
    destruct (Rle_dec overflow_bound (r * R_sqrt.sqrt (r / 3))); [done|].
    destruct (Rle_dec (r * R_sqrt.sqrt (r / 3)) (- overflow_bound)); [lra|].
    cbn [add]. by apply round_overflow. }
  cbn [sub opp add abs].
  (* the turn after it *)
  rewrite r_loop_unfold. cbn [r_old diff it gt].
  assert ((Z.of_nat k + 1 <? max_iter)%Z = true) as -> by (by apply Z.ltb_lt).
  cbn [andb]. unfold div. destruct (Req_dec_T 3 0) as [E|_]; [lra|].
  unfold inf_times. destruct (Req_dec_T 3 0) as [E|_]; [lra|].
  destruct (Rlt_dec 0 3) as [_|E]; [|lra].
  cbn [mbind result_bind pymath.sqrt mul add sub opp abs].
  apply r_loop_nan.
Qed.

(** Digit 9: the run of the loop. *)
Lemma solver_run_9 :
  ∃ J, (1 ≤ J ≤ 765)%nat
       ∧ solver_run (Finite 0.45) (Finite tol_default) max_iter_default
         = Ok {| r_old := PosInf; diff := NaN; it := (Z.of_nat J + 1)%Z |}
       ∧ overflow_bound <= r_iter 0.45 J
       ∧ ∀ j, (j < J)%nat → r_iter 0.45 j < overflow_bound.
Proof.
  destruct first_overflow_9 as (J & HJ & Hover & Hfin).
  exists J. split_and!; [lia|lia| |done|done].
  unfold solver_run. change (Z.to_nat max_iter_default) with 1000%nat.
  change solver_init with (solver_at 0.45 0 1).
  destruct J as [|k]; [lia|].
  replace 1000%nat with (k + S (S (998 - k)))%nat by lia.
  rewrite (r_loop_prefix 0.45 tol_default max_iter_default _ ltac:(lra) k 0%nat 1).
  - rewrite (r_loop_overflow 0.45 tol_default max_iter_default).
    + do 2 f_equal. lia.
    + lra.
    + apply Hfin. lia.
    + exact Hover.
    + unfold diff_at. case_decide as E.
      * unfold tol_default. lra.
      * apply step_size_9. lia.
    + unfold max_iter_default. lia.
  - intros j Hj. apply Hfin. lia.
  - intros j Hj. split; [|unfold max_iter_default; lia].
    unfold diff_at. case_decide as E.
    + unfold tol_default. lra.
    + apply step_size_9. lia.
Qed.

(** What the parser guarantees about the record. *)
Lemma parse_naca5_fields s c q :
  parse_naca5 s c = Ok q →
  (0 ≤ L q ≤ 9)%Z ∧ (0 ≤ P q ≤ 9)%Z ∧ (Q q = 0 ∨ Q q = 1)%Z ∧ chord q = c.
Proof.
  unfold parse_naca5.
  destruct (negb (pystr.len (pystr.strip s) =? 5)%Z) eqn:El; [done|].
  destruct (pystr.isdigit (pystr.strip s)) eqn:Ed; [|done].
  cbn [negb orb]. intros H.
  inv_bind H as c0 H0. inv_bind H as l0 Hl. inv_bind H as c1 H1.
  inv_bind H as p0 Hp. inv_bind H as c2 H2. inv_bind H as q0 Hq.
  inv_bind H as d Hd.
  destruct (negb ((q0 =? 0)%Z || (q0 =? 1)%Z)) eqn:EQ; [done|].
  injection H as <-. cbn [L P Q chord].
  destruct (pystr.strip s) as [|a [|b r]]; try done.
  cbn in H0, H1. injection H0 as <-. injection H1 as <-.
  rewrite pystr_facts.int_any_char in Hl, Hp.
  destruct (pystr.decimal_value a) as [da|] eqn:Ea; [|done]. injection Hl as <-.
  destruct (pystr.decimal_value b) as [db|] eqn:Eb; [|done]. injection Hp as <-.
  split; [by apply (pystr_facts.decimal_value_range a)|].
  split; [by apply (pystr_facts.decimal_value_range b)|]. split; [lia|done].
Qed.

(** The float of [0.05 * P] and of [0.15 * L] for a digit. *)
Lemma scaled_digit c z :
  0 <= c <= 1 → (0 ≤ z ≤ 9)%Z →
  of_int z = Ok (Finite (IZR z))
  ∧ mul (Finite c) (Finite (IZR z)) = Finite (c * IZR z).
Proof.
  intros Hc Hz. split; [by apply of_int_digit|].
  destruct Hz as [H0 H9]. apply IZR_le in H0, H9.
  cbn [mul]. apply round_small. nra.
Qed.

(** At infinity the square root of [N(r)] returns NaN without raising, and
    the arcsine raises. *)
Lemma N_of_r_infinity :
  pyfloat.pow PosInf 2 = Ok PosInf
  ∧ pymath.sqrt (sub PosInf PosInf) = Ok NaN
  ∧ pymath.asin (sub (Finite 1) (mul (Finite 2) PosInf)) = Raise pymath.domain_error
  ∧ N_of_r PosInf = Raise pymath.domain_error.
Proof.
  assert (mul (Finite 2) PosInf = PosInf) as E2.
  { cbn [mul]. unfold inf_times. destruct (Req_dec_T 2 0) as [E|_]; [lra|].
    by destruct (Rlt_dec 0 2) as [_|E]; [|lra]. }
  split_and!; [done|done|by rewrite E2|].
  unfold N_of_r.
  cbn [pyfloat.pow mbind result_bind sub opp add pymath.sqrt div mret result_ret].
  rewrite E2. cbn [sub opp add mbind result_bind].
  destruct (Req_dec_T 2 0) as [E|_]; [lra|]. done.
Qed.

Lemma k1_infinity l0 :
  (0 ≤ l0 ≤ 9)%Z → _compute_k1_standard l0 PosInf = Raise pymath.domain_error.
Proof.
  intros Hl. unfold _compute_k1_standard. rewrite (of_int_digit _ Hl).
  cbn [mbind result_bind]. destruct N_of_r_infinity as (_ & _ & _ & ->). done.
Qed.

(** The standard camber with digit 9 ends in the domain error. *)
Lemma generate_surfaces_9 q n sp :
  (0 ≤ L q ≤ 9)%Z → Q q = 0%Z → P q = 9%Z →
  (0 ≤ n)%Z → sp = "cosine" ∨ sp = "linear" →
  generate_surfaces q n sp = Raise pymath.domain_error.
Proof.
  intros HL HQ HP Hn Hsp. unfold generate_surfaces. rewrite HQ, HP.
  change (0 =? 1)%Z with false. cbn match.
  destruct (array_facts.sample_x_total n sp Hn Hsp) as [x ->].
  cbn [mbind result_bind].
  destruct (scaled_digit 0.05 9 ltac:(lra) ltac:(lia)) as [E1 E2].
  rewrite E1. cbn [mbind result_bind]. rewrite E2.
  replace (0.05 * 9) with 0.45 by lra.
  destruct solver_run_9 as (J & _ & Hrun & _).
  rewrite (naca5_facts.compute_r_of_run _ _ _ _ Hrun).
  cbn [mbind result_bind r_old]. by rewrite (k1_infinity _ HL).
Qed.

End solver_facts.

(** * Convergence of the camber-constant solver *)

Module convergence_facts.
Import naca5.

(** On (0, 0.9) the update [r ↦ xmc + r * sqrt (r / 3)] shrinks distances by
    the factor 0.825. *)
Lemma update_contracts a b :
  0 < a < 0.9 → 0 < b < 0.9 →
  Rabs (a * R_sqrt.sqrt (a / 3) - b * R_sqrt.sqrt (b / 3)) <= 0.825 * Rabs (a - b).
Proof.
  intros Ha Hb.
  assert (∀ r, 0 < r < 0.9 →
            0 <= R_sqrt.sqrt (r / 3) <= 0.55
            ∧ r = 3 * (R_sqrt.sqrt (r / 3) * R_sqrt.sqrt (r / 3))) as Hs.
  { intros r Hr. split_and!.
    - apply sqrt_pos.
    - rewrite <- (sqrt_square 0.55) by lra. apply sqrt_le_1_alt. lra.
    - rewrite sqrt_sqrt by lra. lra. }
  destruct (Hs a Ha) as ([Hs0 Hs1] & Ea). destruct (Hs b Hb) as ([Hu0 Hu1] & Eb).
  generalize dependent (R_sqrt.sqrt (a / 3)). intros s Hs0 Hs1 Ea.
  generalize dependent (R_sqrt.sqrt (b / 3)). intros u Hu0 Hu1 Eb.
  subst a b.
  replace (3 * (s * s) * s - 3 * (u * u) * u)
    with (3 * (s - u) * (s * s + s * u + u * u)) by ring.
  replace (3 * (s * s) - 3 * (u * u)) with (3 * (s - u) * (s + u)) by ring.
  rewrite !Rabs_mult.
  rewrite (Rabs_pos_eq (s * s + s * u + u * u)) by nra.
  rewrite (Rabs_pos_eq (s + u)) by lra.
  assert (s * s + s * u + u * u <= 0.825 * (s + u)) as Hk by nra.
  assert (0 <= Rabs 3 * Rabs (s - u)) as Hpos.
  { apply Rmult_le_pos; apply Rabs_pos. }
  nra.
Qed.

Lemma step_size_shrinks xmc j :
  0 <= xmc <= 0.4 → step_size xmc (S (S j)) <= 0.825 * step_size xmc (S j).
Proof.
  intros Hx. unfold step_size. cbn [pred r_iter].
  pose proof (solver_facts.r_iter_small xmc (S j) Hx) as H1.
  pose proof (solver_facts.r_iter_small xmc j Hx) as H0.
  cbn [r_iter] in H1.
  set (b := r_iter xmc j) in *.
  set (a := xmc + b * R_sqrt.sqrt (b / 3)) in *.
  replace (xmc + a * R_sqrt.sqrt (a / 3) - a)
    with (a * R_sqrt.sqrt (a / 3) - b * R_sqrt.sqrt (b / 3)) by (unfold a; lra).
  by apply update_contracts.
Qed.

Lemma step_size_geometric xmc j :
  0 <= xmc <= 0.4 → step_size xmc (S j) <= 0.825 ^ j.
Proof.
  intros Hx. induction j as [|j IH].
  - unfold step_size. cbn [pred r_iter pow].
    pose proof (solver_facts.r_iter_small xmc 1 Hx) as H1. cbn [r_iter] in H1.
    rewrite Rabs_le_iff || apply Rabs_le. lra.
  - pose proof (step_size_shrinks xmc j Hx). cbn [pow]. nra.
Qed.

Lemma pow_825_128 : 0.825 ^ 128 < 1e-6.
Proof.
  assert (0.825 ^ 2 <= 0.69) as H2 by lra.
  assert (0.825 ^ 4 <= 0.48) as H4.
  { change 4%nat with (2 * 2)%nat. rewrite pow_mult.
    apply Rle_trans with (0.69 ^ 2); [apply pow_incr; lra|lra]. }
  assert (0.825 ^ 8 <= 0.24) as H8.
  { change 8%nat with (4 * 2)%nat. rewrite pow_mult.
    apply Rle_trans with (0.48 ^ 2); [apply pow_incr; split; [apply pow_le|]; lra|lra]. }
  assert (0.825 ^ 16 <= 0.06) as H16.
  { change 16%nat with (8 * 2)%nat. rewrite pow_mult.
    apply Rle_trans with (0.24 ^ 2); [apply pow_incr; split; [apply pow_le|]; lra|lra]. }
  assert (0.825 ^ 32 <= 0.0036) as H32.
  { change 32%nat with (16 * 2)%nat. rewrite pow_mult.
    apply Rle_trans with (0.06 ^ 2); [apply pow_incr; split; [apply pow_le|]; lra|lra]. }
  assert (0.825 ^ 64 <= 0.000013) as H64.
  { change 64%nat with (32 * 2)%nat. rewrite pow_mult.
    apply Rle_trans with (0.0036 ^ 2); [apply pow_incr; split; [apply pow_le|]; lra|lra]. }
  change 128%nat with (64 * 2)%nat. rewrite pow_mult.
  apply Rle_lt_trans with (0.000013 ^ 2); [apply pow_incr; split; [apply pow_le|]; lra|lra].
Qed.

End convergence_facts.

(** The digits 0 to 8: the run of the loop. *)
Lemma solver_run_small xmc :
  0 <= xmc <= 0.4 →
  ∃ k, (1 ≤ k ≤ 129)%nat
       ∧ naca5.solver_run (Finite xmc) (Finite naca5.tol_default)
           naca5.max_iter_default
         = Ok (solver_at xmc k (step_size xmc k))
       ∧ (∀ j, (1 ≤ j < k)%nat → step_size xmc j > 1e-6)
       ∧ step_size xmc k <= 1e-6
       ∧ 0 < r_iter xmc k < 0.9
       ∧ Rabs (r_iter xmc k * (1 - R_sqrt.sqrt (r_iter xmc k / 3)) - xmc) <= 1e-6.
Proof.
  intros Hx.
  destruct (naca5_facts.solver_run_finite xmc ltac:(lra)
              (fun j => solver_facts.r_iter_finite xmc j Hx))
    as (k & Hk & Hr & Hbefore & Hexit).
  unfold naca5.tol_default in Hbefore, Hexit.
  assert (k ≤ 129)%nat as Hk129.
  { destruct (decide (k ≤ 129)%nat) as [|Hgt]; [done|]. exfalso.
    specialize (Hbefore 129%nat ltac:(lia)).
    pose proof (convergence_facts.step_size_geometric xmc 128 Hx).
    pose proof convergence_facts.pow_825_128. lra. }
  specialize (Hexit ltac:(lia)).
  exists k. split_and!; [lia|lia|exact Hr|exact Hbefore|exact Hexit| | |].
  - apply solver_facts.r_iter_small; lra.
  - apply solver_facts.r_iter_small; lra.
  - destruct k as [|k]; [lia|].
    assert (Rabs (xmc + r_iter xmc (S k) * R_sqrt.sqrt (r_iter xmc (S k) / 3)
                  - r_iter xmc (S k)) <= 0.825 * step_size xmc (S k)) as Hs
      by exact (convergence_facts.step_size_shrinks xmc k Hx).
    set (r := r_iter xmc (S k)) in *.
    replace (r * (1 - R_sqrt.sqrt (r / 3)) - xmc)
      with (- (xmc + r * R_sqrt.sqrt (r / 3) - r)) by lra.
    rewrite Rabs_Ropp. lra.
Qed.

(** C4, amended.  For a digit [P] the solver is called with
    [xmc = 0.05 * P] and the defaults [tol = 1e-6], [max_iter = 1000].  It
    starts from [r = 0.1], sets [r_new = xmc + r_old * sqrt (r_old / 3)] at
    every turn and never raises; it leaves the loop after 1 to 1000 turns, at
    the first turn whose difference is not above the tolerance (a NaN is not)
    or at the cap, and returns the last iterate.  For the digits 0 to 8 the
    iterates are the exact ones, every turn before the last moved by more
    than [1e-6] and the last one by at most [1e-6], within 129 turns.  For the
    digit 9 the iterates overflow: the iterate becomes infinite, the next
    difference is NaN, and the loop is left before the cap with the result
    infinity. *)
Theorem camber_constant_iteration (P : Z) :
  (0 ≤ P ≤ 9)%Z →
  let xmc := 0.05 * IZR P in
  r_iter xmc 0 = 0.1
  ∧ (∀ j, r_iter xmc (S j) = xmc + r_iter xmc j * R_sqrt.sqrt (r_iter xmc j / 3))
  ∧ ∃ st : naca5.solver_state,
      naca5.solver_run (Finite xmc) (Finite naca5.tol_default)
        naca5.max_iter_default = Ok st
      ∧ naca5._compute_r_standard (Finite xmc) (Finite naca5.tol_default)
          naca5.max_iter_default = Ok (naca5.r_old st)
      ∧ (1 ≤ naca5.it st ≤ 1000)%Z
      ∧ (pyfloat.gt (naca5.diff st) (Finite naca5.tol_default) = false
         ∨ naca5.it st = 1000%Z)
      ∧ ((P ≤ 8)%Z →
         ∃ k : nat,
           (1 ≤ k ≤ 129)%nat
           ∧ st = solver_at xmc k (step_size xmc k)
           ∧ (∀ j, (1 ≤ j < k)%nat → step_size xmc j > 1e-6)
           ∧ (∀ j, (1 ≤ j)%nat → step_size xmc j < 1e-6 → (k ≤ j)%nat)
           ∧ step_size xmc k <= 1e-6)
      ∧ (P = 9%Z →
         naca5.r_old st = PosInf ∧ naca5.diff st = NaN
         ∧ (naca5.it st < 1000)%Z).
Proof.
  intros [HP0 HP9] xmc. split; [reflexivity|]. split; [reflexivity|].
  destruct (decide (P = 9%Z)) as [->|HP].
  - assert (xmc = 0.45) as -> by (unfold xmc; lra).
    destruct solver_facts.solver_run_9 as (J & HJ & Hrun & _).
    eexists. split; [exact Hrun|].
    split; [exact (naca5_facts.compute_r_of_run _ _ _ _ Hrun)|].
    cbn [naca5.r_old naca5.diff naca5.it pyfloat.gt].
    split_and!; [lia|lia|by left|intros; lia|].
    intros _. split_and!; [done|done|lia].
  - assert (0 <= xmc <= 0.4) as Hx.
    { unfold xmc. assert (P ≤ 8)%Z as HP8 by lia.
      apply IZR_le in HP0, HP8. lra. }
    destruct (solver_run_small xmc Hx)
      as (k & Hk & Hrun & Hbefore & Hexit & _).
    eexists. split; [exact Hrun|].
    split; [exact (naca5_facts.compute_r_of_run _ _ _ _ Hrun)|].
    cbn [solver_at naca5.r_old naca5.diff naca5.it pyfloat.gt].
    split_and!; [lia|lia| | |intros; lia].
    + left. unfold naca5.tol_default.
      destruct (Rgt_dec (step_size xmc k) 1e-6); [lra|done].
    + intros _. exists k. split_and!; [lia|lia|done|exact Hbefore| |exact Hexit].
      intros j Hj Hsmall. destruct (decide (k ≤ j)%nat) as [|Hn]; [done|].
      specialize (Hbefore j ltac:(lia)). lra.
Qed.

Lemma camber_constant_iteration_witness :
  ∃ (k : nat) (r : R),
    (1 ≤ k ≤ 129)%nat
    ∧ naca5._compute_r_standard (Finite (0.05 * 3)) (Finite naca5.tol_default)
        naca5.max_iter_default = Ok (Finite r)
    ∧ r = r_iter (0.05 * 3) k.
Proof.
  destruct (camber_constant_iteration 3 ltac:(lia))
    as (_ & _ & st & _ & Hr & _ & _ & Hsmall & _).
  destruct (Hsmall ltac:(lia)) as (k & Hk & -> & _).
  exists k, (r_iter (0.05 * 3) k). split; [exact Hk|]. split; [exact Hr|reflexivity].
Defined.

(** C4 as stated fails for the digit 9: the loop is left before the cap of
    1000 turns although no difference was below the tolerance; the last
    difference is NaN and the result is infinity. *)
Lemma camber_constant_overflows_at_9 :
  ∃ st : naca5.solver_state,
    naca5.solver_run (Finite (0.05 * 9)) (Finite naca5.tol_default)
      naca5.max_iter_default = Ok st
    ∧ (naca5.it st < 1000)%Z
    ∧ naca5.diff st = NaN
    ∧ naca5.r_old st = PosInf
    ∧ naca5._compute_r_standard (Finite (0.05 * 9)) (Finite naca5.tol_default)
        naca5.max_iter_default = Ok PosInf
    ∧ ∀ j, (1 ≤ j)%nat → step_size (0.05 * 9) j > 1e-6.
Proof.
  replace (0.05 * 9) with 0.45 by lra.
  destruct solver_facts.solver_run_9 as (J & HJ & Hrun & _).
  eexists. split; [exact Hrun|].
  cbn [naca5.r_old naca5.diff naca5.it].
  split_and!; [lia|done|done|exact (naca5_facts.compute_r_of_run _ _ _ _ Hrun)|].
  intros j Hj. exact (solver_facts.step_size_9 j Hj).
Qed.

(** C5, amended.  For a 5-digit code with the standard camber line ([Q = 0],
    the case in which a camber constant is solved), a known spacing and a
    sample count that [np.linspace] accepts: when the [P] digit makes the
    solved [r] fall outside (0, 1), the generation raises the [math] domain
    error of the [k1] computation and returns nothing.  That is the digit 9,
    for which [r] is infinity: the square root of [r - r**2] returns NaN
    without raising, and [math.asin] raises. *)
Theorem out_of_range_r_is_domain_error (s : string) (chord0 : R) (n : Z)
    (sp : string) (q : naca5.NACA5Params) (r : float) :
  naca5.parse_naca5 s chord0 = Ok q →
  naca5.Q q = 0%Z →
  (0 ≤ n)%Z →
  sp = "cosine" ∨ sp = "linear" →
  naca5._compute_r_standard (Finite (0.05 * IZR (naca5.P q)))
    (Finite naca5.tol_default) naca5.max_iter_default = Ok r →
  ¬ (∃ x, r = Finite x ∧ 0 < x < 1) →
  naca5.P q = 9%Z
  ∧ r = PosInf
  ∧ (∃ r2, pyfloat.pow r 2 = Ok r2
           ∧ pymath.sqrt (pyfloat.sub r r2) = Ok NaN)
  ∧ pymath.asin (pyfloat.sub (Finite 1) (pyfloat.mul (Finite 2) r))
    = Raise pymath.domain_error
  ∧ naca5._compute_k1_standard (naca5.L q) r = Raise pymath.domain_error
  ∧ naca5.generate_geometry q n sp = Raise pymath.domain_error
  ∧ naca5.generate_naca5_full s chord0 n sp = Raise pymath.domain_error.
Proof.
  intros Hq HQ Hn Hsp Hr Hout.
  pose proof (solver_facts.parse_naca5_fields _ _ _ Hq) as (HL & HP & _ & _).
  assert (naca5.P q = 9%Z) as HP9.
  { destruct (decide (naca5.P q = 9%Z)) as [|Hne]; [done|]. exfalso.
    assert (0 ≤ naca5.P q ≤ 8)%Z as [H0 H8] by lia.
    apply IZR_le in H0, H8.
    assert (0 <= 0.05 * IZR (naca5.P q) <= 0.4) as Hx by lra.
    destruct (solver_run_small _ Hx) as (k & _ & Hrun & _ & _ & Hk & _).
    rewrite (naca5_facts.compute_r_of_run _ _ _ _ Hrun) in Hr.
    injection Hr as <-. apply Hout. eexists. split; [reflexivity|]. lra. }
  assert (r = PosInf) as ->.
  { rewrite HP9 in Hr. replace (0.05 * 9) with 0.45 in Hr by lra.
    destruct solver_facts.solver_run_9 as (J & _ & Hrun & _).
    rewrite (naca5_facts.compute_r_of_run _ _ _ _ Hrun) in Hr. by injection Hr as <-. }
  pose proof (solver_facts.generate_surfaces_9 q n sp HL HQ HP9 Hn Hsp) as Hs.
  assert (naca5.generate_geometry q n sp = Raise pymath.domain_error) as Hg.
  { unfold naca5.generate_geometry. by rewrite Hs. }
  destruct solver_facts.N_of_r_infinity as (Hp & Hsq & Ha & _).
  split_and!; [done|done|by exists PosInf|done
              |by apply solver_facts.k1_infinity|done|].
  unfold naca5.generate_naca5_full. rewrite Hq. cbn [mbind result_bind].
  by rewrite Hg.
Qed.

Lemma code_29012_parse :
  naca5.parse_naca5 "29012" 1 =
    Ok {| naca5.code := "29012"; naca5.L := 2; naca5.P := 9; naca5.Q := 0;
          naca5.t := 12 / 100; naca5.chord := 1 |}.
Proof. reflexivity. Qed.

Lemma out_of_range_r_is_domain_error_witness :
  naca5.generate_naca5_full "29012" 1 200 "cosine" = Raise pymath.domain_error.
Proof.
  destruct solver_facts.solver_run_9 as (J & _ & Hrun & _).
  refine (proj2 (proj2 (proj2 (proj2 (proj2 (proj2
    (out_of_range_r_is_domain_error "29012" 1 200 "cosine" _
       PosInf code_29012_parse eq_refl _ _ _ _))))))).
  - lia.
  - by left.
  - cbn [naca5.P]. replace (0.05 * 9) with 0.45 by lra.
    exact (naca5_facts.compute_r_of_run _ _ _ _ Hrun).
  - intros (x & Hx & _). discriminate Hx.
Defined.

(** C5 as stated fails for the codes with [P = 9] whose generation does not
    reach the solver: the reflex code [29112] raises [NotImplementedError],
    and an unknown spacing raises its own [ValueError], not the domain
    error. *)
Lemma out_of_range_r_other_errors :
  naca5.generate_naca5_full "29112" 1 200 "cosine" = Raise naca5.reflex_error
  ∧ naca5.generate_naca5_full "29012" 1 200 "spline" = Raise common.spacing_error
  ∧ naca5.reflex_error ≠ pymath.domain_error
  ∧ common.spacing_error ≠ pymath.domain_error.
Proof. split_and!; [reflexivity|reflexivity|done|done]. Qed.

(** X15.  For the digits [P] = 0 to 8 the fixed-point iteration converges:
    [_compute_r_standard (0.05 * P)] leaves its loop within 129 turns, well
    before the cap of 1000, on a step of at most [1e-6]; the value [r] it
    returns is finite, lies in (0, 0.9) and solves
    [r * (1 - sqrt (r / 3)) = 0.05 * P] up to [1e-6]. *)
Theorem camber_constant_converges (P : Z) :
  (0 ≤ P ≤ 8)%Z →
  let xmc := 0.05 * IZR P in
  ∃ (k : nat) (r : R),
    naca5._compute_r_standard (Finite xmc) (Finite naca5.tol_default)
      naca5.max_iter_default = Ok (Finite r)
    ∧ r = r_iter xmc k
    ∧ (1 ≤ k ≤ 129)%nat
    ∧ step_size xmc k <= 1e-6
    ∧ 0 < r < 0.9
    ∧ Rabs (r * (1 - R_sqrt.sqrt (r / 3)) - xmc) <= 1e-6.
Proof.
  intros [HP0 HP8] xmc.
  assert (0 <= xmc <= 0.4) as Hx.
  { unfold xmc. apply IZR_le in HP0, HP8. lra. }
  destruct (solver_run_small xmc Hx)
    as (k & Hk & Hrun & _ & Hexit & Hrange & Hres).
  exists k, (r_iter xmc k).
  split; [exact (naca5_facts.compute_r_of_run _ _ _ _ Hrun)|].
  split; [reflexivity|]. split; [exact Hk|]. split; [exact Hexit|].
  split; [exact Hrange|exact Hres].
Qed.

Lemma camber_constant_converges_witness :
  ∃ (k : nat) (r : R),
    naca5._compute_r_standard (Finite (0.05 * 3)) (Finite naca5.tol_default)
      naca5.max_iter_default = Ok (Finite r)
    ∧ (1 ≤ k ≤ 129)%nat ∧ 0 < r < 0.9.
Proof.
  destruct (camber_constant_converges 3 ltac:(lia))
    as (k & r & Hr & _ & Hk & _ & Hrange & _).
  exists k, r. split; [exact Hr|]. split; [exact Hk|exact Hrange].
Defined.

(** * More about the parsers *)

Module parser_more.
Import pystr pystr_facts parser_facts.

Lemma len_ge_6 a b c d e f r n :
  (n < 6)%Z →
  (len (String a (String b (String c (String d (String e (String f r)))))) =? n)%Z = false.
Proof. intros Hn. apply Z.eqb_neq. unfold len. simpl String.length. lia. Qed.

Lemma not_isdigit_decimal c : isdigit_char c = false → decimal_value c = None.
Proof.
  intros Hd. destruct (decimal_value c) eqn:E; [|done].
  assert (isdecimal_char c = true) as Hx by (unfold isdecimal_char; by rewrite E).
  by rewrite (isdecimal_isdigit _ Hx) in Hd.
Qed.

Lemma isdecimal_value c d : decimal_value c = Some d → isdecimal_char c = true.
Proof. unfold isdecimal_char. by intros ->. Qed.

Lemma to_ascii_ascii_digit c : is_ascii_digit c = true → to_ascii c = c.
Proof.
  unfold is_ascii_digit, to_ascii. intros [H1 H2]%andb_prop.
  apply N.leb_le in H1, H2. destruct (N.ltb_spec c 127); [done|lia].
Qed.

(** [int] on a minus sign and a digit. *)
Lemma int_minus_digit c :
  is_ascii_digit c = true →
  int (String "-" (String c EmptyString)) = Ok (- digit_val c)%Z.
Proof.
  intros Hc. unfold int. cbn [map_chars].
  rewrite (to_ascii_ascii_digit _ Hc). change (to_ascii "-") with "-"%char.
  assert (ascii_isspace c = false) as Hs.
  { unfold is_ascii_digit in Hc. apply andb_prop in Hc as [H1 H2].
    apply N.leb_le in H1, H2. unfold ascii_isspace. ncases. }
  cbn [lstrip]. change (ascii_isspace "-") with false. cbn match.
  cbn [rstrip]. rewrite Hs. cbn match.
  change ("-"%char =? "+"%char)%N with false.
  change ("-"%char =? "-"%char)%N with true. cbn match.
  cbn [int_digits]. rewrite Hc. reflexivity.
Qed.

End parser_more.

Import pystr pystr_facts parser_facts parser_more.

(** X1.  [parse_naca5] drops the whitespace around its input and accepts
    exactly the strings of 5 decimal digits (ASCII digits or the decimal
    digits of another script) whose third digit has the value 0 or 1: the
    values of the digits give [L], [P], [Q] and [t = d4d5/100], the [code] is
    the stripped string.  Five decimal digits with another third digit raise
    the error about [Q]; every other input raises a [ValueError] as well. *)
Theorem parse_naca5_five_digits (s : string) (chord0 : R) :
  match decimal_digits5 (pystr.strip s) with
  | Some (l, p, q, th) =>
      naca5.parse_naca5 s chord0 =
        if ((q =? 0) || (q =? 1))%Z
        then Ok {| naca5.code := pystr.strip s; naca5.L := l; naca5.P := p;
                   naca5.Q := q; naca5.t := IZR th / 100; naca5.chord := chord0 |}
        else Raise naca5.q_error
  | None => is_ValueError (naca5.parse_naca5 s chord0)
  end.
Proof.
  unfold naca5.parse_naca5. rename chord0 into c.
  destruct (strip s) as [|a [|b [|c' [|d [|e [|f r]]]]]] eqn:Hs;
    try (simpl; eexists; reflexivity).
  - unfold decimal_digits5.
    change (len (String a (String b (String c' (String d (String e EmptyString))))) =? 5)%Z
      with true.
    cbn [negb orb isdigit all_chars].
    destruct (isdigit_char a) eqn:Ha; cycle 1.
    { rewrite (not_isdigit_decimal _ Ha). simpl. by eexists. }
    destruct (isdigit_char b) eqn:Hb; cycle 1.
    { rewrite (not_isdigit_decimal _ Hb).
      destruct (decimal_value a); simpl; by eexists. }
    destruct (isdigit_char c') eqn:Hc; cycle 1.
    { rewrite (not_isdigit_decimal _ Hc).
      destruct (decimal_value a), (decimal_value b); simpl; by eexists. }
    destruct (isdigit_char d) eqn:Hd; cycle 1.
    { rewrite (not_isdigit_decimal _ Hd).
      destruct (decimal_value a), (decimal_value b), (decimal_value c');
        simpl; by eexists. }
    destruct (isdigit_char e) eqn:He; cycle 1.
    { rewrite (not_isdigit_decimal _ He).
      destruct (decimal_value a), (decimal_value b), (decimal_value c'),
        (decimal_value d); simpl; by eexists. }
    cbn [andb negb getitem String.get mbind result_bind slice_from].
    rewrite !int_any_char, (int_char2 _ _ Hd He). unfold isdecimal_char.
    destruct (decimal_value a) as [da|]; [|simpl; by eexists].
    destruct (decimal_value b) as [db|]; [|simpl; by eexists].
    destruct (decimal_value c') as [dc|]; [|simpl; by eexists].
    destruct (decimal_value d) as [dd|]; [|simpl; by eexists].
    destruct (decimal_value e) as [de|]; [|simpl; by eexists].
    cbn [andb mbind result_bind option_bind default].
    by destruct ((dc =? 0) || (dc =? 1))%Z.
  - rewrite len_ge_6 by lia. simpl. by eexists.
Qed.

(** The parser on a code in ASCII digits and on the same code in
    Arabic-Indic digits. *)
Lemma parse_naca5_five_digits_witness :
  naca5.parse_naca5 "23012" 1 =
    Ok {| naca5.code := "23012"; naca5.L := 2; naca5.P := 3; naca5.Q := 0;
          naca5.t := 12 / 100; naca5.chord := 1 |}
  ∧ naca5.parse_naca5 "٢٣٠١٢" 1 =
    Ok {| naca5.code := "٢٣٠١٢"; naca5.L := 2; naca5.P := 3; naca5.Q := 0;
          naca5.t := 12 / 100; naca5.chord := 1 |}.
Proof.
  split; [exact (parse_naca5_five_digits "23012" 1)
         |exact (parse_naca5_five_digits "٢٣٠١٢" 1)].
Defined.

(** X2.  [parse_naca6] drops the whitespace around its input and raises its
    format error unless exactly six characters are left, the first a [6] and
    the third a [-].  Then the second and the fourth character must be
    decimal digits, ASCII or not ([int] raises a [ValueError] otherwise); their
    values give [pos_min_pressure] and [design_cl = d/10].  The last two
    characters go through [int] unchecked and give [thickness = int/100]:
    [d5d6/100] when they are two decimal digits. *)
Theorem parse_naca6_format (s : string) (chord0 : R) :
  let record d1 d3 d :=
    {| naca6.code := strip s; naca6.pos_min_pressure := d1;
       naca6.design_cl := IZR d3 / 10;
       naca6.thickness := IZR d / 100; naca6.chord := chord0 |} in
  match strip s with
  | String c0 (String c1 (String c2 (String c3 (String c4 (String c5 EmptyString))))) =>
      if ((c0 =? "6"%char) && (c2 =? "-"%char))%N then
        match decimal_value c1, decimal_value c3 with
        | Some d1, Some d3 =>
            naca6.parse_naca6 s chord0
              = record d1 d3 <$> int (String c4 (String c5 EmptyString))
            ∧ (∀ d4 d5,
                 decimal_value c4 = Some d4 → decimal_value c5 = Some d5 →
                 naca6.parse_naca6 s chord0
                   = Ok (record d1 d3 (10 * d4 + d5)%Z))
        | _, _ => naca6.parse_naca6 s chord0 = Raise int_error
        end
      else naca6.parse_naca6 s chord0 = Raise naca6.format_error
  | _ => naca6.parse_naca6 s chord0 = Raise naca6.format_error
  end.
Proof.
  intros record. unfold naca6.parse_naca6.
  destruct (strip s) as [|c0 [|c1 [|c2 [|c3 [|c4 [|c5 [|c6 r]]]]]]] eqn:Hs;
    try reflexivity.
  - change (len (String c0 (String c1 (String c2 (String c3 (String c4
              (String c5 EmptyString)))))) =? 6)%Z with true.
    cbn [negb getitem String.get mbind result_bind slice_from].
    change (String.eqb (String c0 EmptyString) "6") with ((c0 =? "6"%char)%N && true).
    change (String.eqb (String c2 EmptyString) "-") with ((c2 =? "-"%char)%N && true).
    rewrite !andb_true_r.
    destruct (c0 =? "6"%char)%N; [|reflexivity].
    destruct (c2 =? "-"%char)%N; [|reflexivity].
    cbn [negb andb]. rewrite !int_any_char.
    destruct (decimal_value c1) as [d1|]; [|reflexivity].
    destruct (decimal_value c3) as [d3|]; [|reflexivity].
    cbn [mbind result_bind]. split.
    + by destruct (int (String c4 (String c5 EmptyString))).
    + intros d4 d5 H4 H5.
      rewrite (int_char2 c4 c5)
        by (apply isdecimal_isdigit; by eapply isdecimal_value).
      by rewrite (isdecimal_value _ _ H4), (isdecimal_value _ _ H5), H4, H5.
  - match goal with |- context [(len ?x =? 6)%Z] =>
      assert ((len x =? 6)%Z = false) as ->
        by (apply Z.eqb_neq; unfold len; simpl String.length; lia)
    end.
    reflexivity.
Qed.

Lemma parse_naca6_format_witness :
  naca6.parse_naca6 "63-018" 1 =
    Ok {| naca6.code := "63-018"; naca6.pos_min_pressure := 3;
          naca6.design_cl := 0 / 10; naca6.thickness := 18 / 100;
          naca6.chord := 1 |}.
Proof.
  exact (proj2 (parse_naca6_format "63-018" 1) 1%Z 8%Z eq_refl eq_refl).
Defined.

(** X3.  The thickness group of a 6-series code is not checked to be two
    digits: a minus sign followed by one digit is accepted and gives the
    negative thickness [-d/100]. *)
Theorem parse_naca6_signed_thickness (c1 c3 c5 : char) (chord0 : R) :
  is_ascii_digit c1 = true →
  is_ascii_digit c3 = true →
  is_ascii_digit c5 = true →
  let s := String "6" (String c1 (String "-" (String c3
             (String "-" (String c5 EmptyString))))) in
  naca6.parse_naca6 s chord0 =
    Ok {| naca6.code := s; naca6.pos_min_pressure := digit_val c1;
          naca6.design_cl := IZR (digit_val c3) / 10;
          naca6.thickness := IZR (- digit_val c5) / 100;
          naca6.chord := chord0 |}.
Proof.
  intros H1 H3 H5 s. unfold naca6.parse_naca6.
  assert (strip s = s) as ->.
  { unfold s, strip. cbn [lstrip]. change (isspace "6") with false. cbn match.
    cbn [rstrip]. rewrite (isdigit_char_not_space c5) by (by apply ascii_digit_isdigit).
    reflexivity. }
  unfold s.
  change (len _ =? 6)%Z with true.
  cbn [negb getitem String.get mbind result_bind slice_from].
  change (String.eqb "6" "6") with true. change (String.eqb "-" "-") with true.
  cbn [negb]. rewrite !int_any_char, !ascii_digit_decimal by done.
  cbn [mbind result_bind]. by rewrite int_minus_digit.
Qed.

Lemma parse_naca6_signed_thickness_witness :
  naca6.parse_naca6 "63-0-5" 1 =
    Ok {| naca6.code := "63-0-5"; naca6.pos_min_pressure := 3;
          naca6.design_cl := 0 / 10; naca6.thickness := -5 / 100;
          naca6.chord := 1 |}.
Proof.
  exact (parse_naca6_signed_thickness "3" "0" "5" 1 eq_refl eq_refl eq_refl).
Defined.

Lemma tag_eqb a t :
  String.eqb (String a EmptyString) (String t EmptyString) = (a =? t)%N.
Proof. simpl. by destruct (a =? t)%N. Qed.

(** X4.  [parse_naca7] accepts exactly the inputs that, stripped of the
    whitespace around them, are the digit 7 followed by four characters on
    which [isdigit] holds; the record keeps the stripped string as [code] and
    the four characters as [base4].  [parse_naca8] does the same with the
    digit 8.  Every rejection is a [ValueError]. *)
Theorem parse_naca7_naca8_accept (s : string) (chord0 : R) :
  (∀ q, naca7.parse_naca7 s chord0 = Ok q ↔
        ∃ b, strip s = String "7" b ∧ String.length b = 4%nat
             ∧ all_chars isdigit_char b = true
             ∧ q = {| naca7.code := strip s; naca7.base4 := b;
                      naca7.chord := chord0 |})
  ∧ (∀ q, naca8.parse_naca8 s chord0 = Ok q ↔
        ∃ b, strip s = String "8" b ∧ String.length b = 4%nat
             ∧ all_chars isdigit_char b = true
             ∧ q = {| naca8.code := strip s; naca8.base4 := b;
                      naca8.chord := chord0 |})
  ∧ (is_Ok (naca7.parse_naca7 s chord0) ∨ is_ValueError (naca7.parse_naca7 s chord0))
  ∧ (is_Ok (naca8.parse_naca8 s chord0) ∨ is_ValueError (naca8.parse_naca8 s chord0)).
Proof.
  split_and!.
  - intros q. unfold naca7.parse_naca7. split.
    + destruct (strip s) as [|a b] eqn:Hs; [done|].
      destruct (len (String a b) <? 4)%Z eqn:El; [done|].
      destruct (isdigit (String a b)) eqn:Ed; [|done].
      cbn [negb orb getitem String.get mbind result_bind slice_from].
      rewrite tag_eqb. destruct (N.eqb_spec a "7"%char) as [->|]; [|done].
      cbn [negb]. destruct (len b =? 4)%Z eqn:Eb; [|done].
      intros [= <-]. exists b.
      split; [done|]. split; [apply Z.eqb_eq in Eb; unfold len in Eb; lia|].
      split; [|done]. simpl in Ed. by destruct (all_chars isdigit_char b).
    + intros (b & -> & Hl & Hd & ->).
      assert ((len (String "7" b) <? 4)%Z = false) as ->
        by (apply Z.ltb_ge; unfold len; simpl String.length; lia).
      assert (isdigit (String "7" b) = true) as -> by (simpl; exact Hd).
      cbn [negb orb getitem String.get mbind result_bind slice_from].
      change (String.eqb "7" "7") with true.
      assert ((len b =? 4)%Z = true) as -> by (apply Z.eqb_eq; unfold len; lia).
      reflexivity.
  - intros q. unfold naca8.parse_naca8. split.
    + destruct (strip s) as [|a b] eqn:Hs; [done|].
      destruct (len (String a b) <? 4)%Z eqn:El; [done|].
      destruct (isdigit (String a b)) eqn:Ed; [|done].
      cbn [negb orb getitem String.get mbind result_bind slice_from].
      rewrite tag_eqb. destruct (N.eqb_spec a "8"%char) as [->|]; [|done].
      cbn [negb]. destruct (len b =? 4)%Z eqn:Eb; [|done].
      intros [= <-]. exists b.
      split; [done|]. split; [apply Z.eqb_eq in Eb; unfold len in Eb; lia|].
      split; [|done]. simpl in Ed. by destruct (all_chars isdigit_char b).
    + intros (b & -> & Hl & Hd & ->).
      assert ((len (String "8" b) <? 4)%Z = false) as ->
        by (apply Z.ltb_ge; unfold len; simpl String.length; lia).
      assert (isdigit (String "8" b) = true) as -> by (simpl; exact Hd).
      cbn [negb orb getitem String.get mbind result_bind slice_from].
      change (String.eqb "8" "8") with true.
      assert ((len b =? 4)%Z = true) as -> by (apply Z.eqb_eq; unfold len; lia).
      reflexivity.
  - unfold naca7.parse_naca7.
    destruct (strip s) as [|a b]; [right; by eexists|].
    destruct (_ || _); [right; by eexists|].
    cbn [getitem String.get mbind result_bind].
    destruct (negb _); [right; by eexists|].
    destruct (negb _); [right; by eexists|left; by eexists].
  - unfold naca8.parse_naca8.
    destruct (strip s) as [|a b]; [right; by eexists|].
    destruct (_ || _); [right; by eexists|].
    cbn [getitem String.get mbind result_bind].
    destruct (negb _); [right; by eexists|].
    destruct (negb _); [right; by eexists|left; by eexists].
Qed.

(** * The placeholder series and the reflex camber *)

Module series_facts.

Lemma naca4_metrics_no_note s c n sp out :
  naca4.generate_naca4_full s c n sp = Ok out → metrics out !! "note" = None.
Proof.
  intros H. apply chord_facts.full_eval in H
    as (q & x & yt & yc0 & sf & mt & mc & _ & _ & _ & _ & ->).
  unfold aux.full_of. cbn [metrics list_to_map foldr uncurry].
  rewrite !lookup_insert_ne by done. apply lookup_empty.
Qed.

End series_facts.

(** X5.  A 7-series (8-series) generation that returns is the 4-digit
    generation of the four digits after the leading 7 (8) at the same chord,
    sample count and spacing: the same contour and camber line, and the same
    metrics except that [code] is overwritten with the whole stripped code
    (the 4-digit metrics report the four digits) and a [note] is added (the
    4-digit metrics have none). *)
Theorem placeholder_series_wrap_naca4 (fam : family) (tag : char) (note : string)
    (s : string) (chord0 : R) (n : Z) (sp : string) (out : full_result) :
  (fam = NACA7 ∧ tag = "7"%char ∧ note = naca7.note)
  ∨ (fam = NACA8 ∧ tag = "8"%char ∧ note = naca8.note) →
  generate_full fam s chord0 n sp = Ok out →
  ∃ (b : string) (out4 : full_result),
    strip s = String tag b
    ∧ naca4.generate_naca4_full b chord0 n sp = Ok out4
    ∧ geometry_of out = geometry_of out4
    ∧ metrics out4 !! "code" = Some (VStr b)
    ∧ metrics out !! "code" = Some (VStr (strip s))
    ∧ metrics out4 !! "note" = None
    ∧ metrics out !! "note" = Some (VStr note)
    ∧ (∀ k, k ≠ "code" → k ≠ "note" → metrics out !! k = metrics out4 !! k).
Proof.
  intros Hfam H.
  assert (∃ b out4,
    strip s = String tag b ∧ all_chars isdigit_char b = true
    ∧ naca4.generate_naca4_full b chord0 n sp = Ok out4
    ∧ out = FullResult (x_loop out4) (y_loop out4) (x_c out4) (yc out4)
              (<["note" := VStr note]> (<["code" := VStr (strip s)]> (metrics out4))))
    as (b & out4 & Hs & Hd & H4 & ->).
  { destruct Hfam as [(-> & -> & ->)|(-> & -> & ->)]; simpl in H.
    - unfold naca7.generate_naca7_full in H.
      inv_bind H as q Hq. inv_bind H as out4 H4. injection H as <-.
      unfold naca7.parse_naca7 in Hq.
      destruct (strip s) as [|a b] eqn:Hs; [done|].
      destruct (len (String a b) <? 4)%Z; [done|].
      destruct (isdigit (String a b)) eqn:Ed; [|done].
      cbn [negb orb getitem String.get mbind result_bind slice_from] in Hq.
      rewrite tag_eqb in Hq. destruct (N.eqb_spec a "7"%char) as [->|]; [|done].
      cbn [negb] in Hq. destruct (len b =? 4)%Z; [|done].
      injection Hq as <-. exists b, out4. by split_and!.
    - unfold naca8.generate_naca8_full in H.
      inv_bind H as q Hq. inv_bind H as out4 H4. injection H as <-.
      unfold naca8.parse_naca8 in Hq.
      destruct (strip s) as [|a b] eqn:Hs; [done|].
      destruct (len (String a b) <? 4)%Z; [done|].
      destruct (isdigit (String a b)) eqn:Ed; [|done].
      cbn [negb orb getitem String.get mbind result_bind slice_from] in Hq.
      rewrite tag_eqb in Hq. destruct (N.eqb_spec a "8"%char) as [->|]; [|done].
      cbn [negb] in Hq. destruct (len b =? 4)%Z; [|done].
      injection Hq as <-. exists b, out4. by split_and!. }
  exists b, out4. cbn [metrics].
  pose proof (facade_facts.full_code NACA4 _ _ _ _ _ H4) as Hc.
  rewrite (strip_digits _ Hd) in Hc.
  split_and!; try done.
  - rewrite lookup_insert_ne by done. apply lookup_insert_eq.
  - by eapply series_facts.naca4_metrics_no_note.
  - apply lookup_insert_eq.
  - intros k Hk1 Hk2. by rewrite !lookup_insert_ne.
Qed.

Lemma naca8_82412_generates :
  is_Ok (generate_full NACA8 "82412" 1 200 "cosine").
Proof.
  destruct (naca4_facts.full_total "2412" 1 200 "cosine" _
              (parser_facts.parse_naca4_decode "2412" 1)) as [r4 H4];
    [lia|by left|].
  simpl. unfold naca8.generate_naca8_full.
  change (naca8.parse_naca8 "82412" 1)
    with (Ok {| naca8.code := "82412"; naca8.base4 := "2412"; naca8.chord := 1 |}).
  cbn [mbind result_bind naca8.base4]. rewrite H4. by eexists.
Qed.

Lemma placeholder_series_wrap_naca4_witness :
  ∃ out out4,
    generate_full NACA8 "82412" 1 200 "cosine" = Ok out
    ∧ naca4.generate_naca4_full "2412" 1 200 "cosine" = Ok out4
    ∧ geometry_of out = geometry_of out4
    ∧ metrics out !! "note" = Some (VStr naca8.note).
Proof.
  destruct naca8_82412_generates as [out H]. exists out.
  destruct (placeholder_series_wrap_naca4 NACA8 "8" naca8.note "82412" 1 200
              "cosine" out (or_intror (conj eq_refl (conj eq_refl eq_refl))) H)
    as (b & out4 & Hs & H4 & Hg & _ & _ & _ & Hn & _).
  injection Hs as <-. exists out4. split_and!; [exact H|exact H4|exact Hg|exact Hn].
Defined.

(** X6.  The reflex camber line is not implemented: for every 5-digit code
    that the parser accepts with third digit 1, the geometry and the full
    generation raise [NotImplementedError], whatever the sample count and the
    spacing (even an unknown spacing or a negative count, which are looked at
    later). *)
Theorem reflex_camber_not_implemented (s : string) (chord0 : R)
    (q : naca5.NACA5Params) (n : Z) (sp : string) :
  naca5.parse_naca5 s chord0 = Ok q →
  naca5.Q q = 1%Z →
  naca5.generate_geometry q n sp = Raise naca5.reflex_error
  ∧ naca5.generate_naca5_full s chord0 n sp = Raise naca5.reflex_error.
Proof.
  intros Hq HQ.
  assert (naca5.generate_geometry q n sp = Raise naca5.reflex_error) as Hg.
  { unfold naca5.generate_geometry, naca5.generate_surfaces. by rewrite HQ. }
  split; [exact Hg|].
  unfold naca5.generate_naca5_full. rewrite Hq. cbn [mbind result_bind].
  by rewrite Hg.
Qed.

Lemma reflex_camber_not_implemented_witness :
  naca5.generate_naca5_full "23112" 1 (-3) "spline" = Raise naca5.reflex_error.
Proof.
  refine (proj2 (reflex_camber_not_implemented "23112" 1
    {| naca5.code := "23112"; naca5.L := 2; naca5.P := 3; naca5.Q := 1;
       naca5.t := 12 / 100; naca5.chord := 1 |} (-3) "spline" _ eq_refl)).
  reflexivity.
Defined.

(** * When a generation returns *)

Module outcome_facts.
Import common array_facts.

Lemma sample_x_spacing n sp x :
  sample_x n sp = Ok x → sp = "cosine" ∨ sp = "linear".
Proof. unfold sample_x. repeat case_decide; auto. done. Qed.

Lemma sample_x_unknown n sp :
  sp ≠ "cosine" → sp ≠ "linear" → sample_x n sp = Raise spacing_error.
Proof. intros. unfold sample_x. by rewrite !decide_False. Qed.

Lemma sample_x_negative n sp :
  sp = "cosine" ∨ sp = "linear" → (n < 0)%Z → sample_x n sp = Raise (np.linspace_error n).
Proof.
  intros Hsp Hn. unfold sample_x, np.linspace.
  destruct (Z.ltb_spec n 0); [|lia].
  destruct Hsp as [->| ->]; [by rewrite decide_True|].
  rewrite decide_False by done. by rewrite decide_True.
Qed.

Lemma sample_x_zero sp :
  sp = "cosine" ∨ sp = "linear" → sample_x 0 sp = Ok [].
Proof.
  intros Hsp. unfold sample_x, np.linspace. change (0 <? 0)%Z with false.
  change (Z.to_nat 0) with 0%nat.
  destruct Hsp as [->| ->]; [by rewrite decide_True|].
  rewrite decide_False by done. by rewrite decide_True.
Qed.

End outcome_facts.

(** X7.  On a code that the 4-digit parser accepts, [generate_naca4_full]
    returns exactly when the sample count is at least 1 and the spacing is
    [cosine] or [linear].  An unknown spacing raises the spacing error
    (whatever the count), a negative count the error of [np.linspace], and the
    count 0 the error of [np.max] on an empty array, raised by
    [compute_metrics]. *)
Theorem naca4_generation_outcome (s : string) (chord0 : R) (n : Z) (sp : string)
    (q : naca4.NACA4Params) :
  naca4.parse_naca4 s chord0 = Ok q →
  (is_Ok (naca4.generate_naca4_full s chord0 n sp)
     ↔ (1 ≤ n)%Z ∧ (sp = "cosine" ∨ sp = "linear"))
  ∧ (sp ≠ "cosine" → sp ≠ "linear" →
     naca4.generate_naca4_full s chord0 n sp = Raise common.spacing_error)
  ∧ (sp = "cosine" ∨ sp = "linear" → (n < 0)%Z →
     naca4.generate_naca4_full s chord0 n sp = Raise (np.linspace_error n))
  ∧ (sp = "cosine" ∨ sp = "linear" → n = 0%Z →
     naca4.generate_naca4_full s chord0 n sp = Raise np.max_error).
Proof.
  intros Hq.
  assert (∀ e, common.sample_x n sp = Raise e →
               naca4.generate_naca4_full s chord0 n sp = Raise e) as Hfail.
  { intros e He. unfold naca4.generate_naca4_full. rewrite Hq.
    cbn [mbind result_bind]. unfold naca4.generate_geometry, naca4.generate_surfaces.
    by rewrite He. }
  split_and!.
  - split.
    + intros [out Hout]. split.
      * by apply contour_facts.naca4_assembled in Hout as [? _].
      * apply naca4_facts.full_inv in Hout
          as (q' & x & yt & yc0 & sf & _ & Hs & _).
        apply naca4_facts.generate_surfaces_lengths in Hs as (_ & Hx & _).
        by eapply outcome_facts.sample_x_spacing.
    + intros [Hn Hsp]. by eapply naca4_facts.full_total.
  - intros H1 H2. apply Hfail. by apply outcome_facts.sample_x_unknown.
  - intros Hsp Hn. apply Hfail. by apply outcome_facts.sample_x_negative.
  - intros Hsp ->. unfold naca4.generate_naca4_full. rewrite Hq.
    cbn [mbind result_bind]. unfold naca4.generate_geometry, naca4.generate_surfaces.
    rewrite (outcome_facts.sample_x_zero _ Hsp). cbn [mbind result_bind].
    unfold naca4.camber. by destruct (Req_dec_T (naca4.p q) 0).
Qed.

Lemma naca4_generation_outcome_witness :
  is_Ok (naca4.generate_naca4_full "2412" 1 200 "cosine")
  ∧ naca4.generate_naca4_full "2412" 1 0 "cosine" = Raise np.max_error
  ∧ naca4.generate_naca4_full "2412" 1 (-1) "spline" = Raise common.spacing_error.
Proof.
  destruct (naca4_generation_outcome "2412" 1 200 "cosine" _ naca4_2412_parse)
    as (H1 & _).
  destruct (naca4_generation_outcome "2412" 1 0 "cosine" _ naca4_2412_parse)
    as (_ & _ & _ & H0).
  destruct (naca4_generation_outcome "2412" 1 (-1) "spline" _ naca4_2412_parse)
    as (_ & Hs & _).
  split_and!.
  - apply H1. split; [lia|by left].
  - apply H0; [by left|done].
  - by apply Hs.
Defined.

(** * The sample positions *)

Module sample_facts.
Import common array_facts.

(** Every sample of [np.linspace] by its index. *)
Lemma linspace_lookup start stop n l i :
  np.linspace start stop n = Ok l → (i < Z.to_nat n)%nat →
  l !! i = Some (if decide (Z.to_nat n = 1%nat) then start
                 else start + INR i * ((stop - start) / INR (Z.to_nat n - 1))).
Proof.
  unfold np.linspace. destruct (Z.ltb_spec n 0); [done|].
  destruct (Z.to_nat n) as [|[|k]] eqn:En; intros Hl Hi; [lia| |].
  - injection Hl as <-. destruct i; [|lia]. by rewrite decide_True.
  - set (f := fun i : nat => INR i * ((stop - start) / INR (S k)) + start) in Hl.
    assert (l = map f (seq 0 (S k)) ++ [stop]) as -> by congruence.
    rewrite decide_False by lia.
    replace (S (S k) - 1)%nat with (S k) by lia.
    destruct (decide (i < S k)%nat) as [Hlt|Hge].
    + rewrite lookup_app_l by (rewrite length_map, length_seq; lia).
      change (map ?f ?l) with (f <$> l).
      rewrite list_lookup_fmap, lookup_seq_lt by lia. unfold f. simpl. f_equal. lra.
    + assert (i = S k) as -> by lia.
      rewrite lookup_app_r by (rewrite length_map, length_seq; lia).
      rewrite length_map, length_seq, Nat.sub_diag. simpl. f_equal.
      assert (INR (S k) ≠ 0) by (apply not_0_INR; lia). field. done.
Qed.

Lemma sample_x_lookup n sp x i :
  sample_x n sp = Ok x → (i < Z.to_nat n)%nat →
  x !! i = Some (sample_position (Z.to_nat n) sp i).
Proof.
  unfold sample_x, sample_position. intros H Hi. repeat case_decide; try done.
  - inv_bind H as beta Hb. injection H as <-.
    change (map ?f ?l) with (f <$> l).
    rewrite list_lookup_fmap, (linspace_lookup _ _ _ _ _ Hb Hi), decide_True by done.
    cbn [fmap option_fmap option_map]. f_equal. rewrite cos_0. lra.
  - inv_bind H as beta Hb. injection H as <-.
    change (map ?f ?l) with (f <$> l).
    rewrite list_lookup_fmap, (linspace_lookup _ _ _ _ _ Hb Hi), decide_False by done.
    cbn [fmap option_fmap option_map]. do 4 f_equal. lra.
  - by rewrite (linspace_lookup _ _ _ _ _ H Hi), decide_True.
  - rewrite (linspace_lookup _ _ _ _ _ H Hi), decide_False by done. f_equal. lra.
Qed.

Lemma sample_position_range n sp i : (i < n)%nat → 0 <= sample_position n sp i <= 1.
Proof.
  intros Hi. unfold sample_position. repeat case_decide; [lra| |].
  - pose proof (COS_bound (INR i * (PI / INR (n - 1)))). lra.
  - assert (0 < INR (n - 1)) as Hn by (apply lt_0_INR; lia).
    assert (0 <= INR i <= INR (n - 1)) as [Hi0 Hi1].
    { split; [apply pos_INR|apply le_INR; lia]. }
    split.
    + apply Rmult_le_pos; [done|]. apply Rlt_le, Rdiv_lt_0_compat; lra.
    + replace 1 with (INR (n - 1) * (1 / INR (n - 1))) at 2 by (field; lra).
      apply Rmult_le_compat_r; [|done]. apply Rlt_le, Rdiv_lt_0_compat; lra.
Qed.

Lemma sample_position_first n sp : sample_position n sp 0 = 0.
Proof.
  unfold sample_position. repeat case_decide; [done| |]; simpl INR.
  - rewrite Rmult_0_l, cos_0. lra.
  - lra.
Qed.

Lemma sample_position_last n sp : (2 ≤ n)%nat → sample_position n sp (n - 1) = 1.
Proof.
  intros Hn. unfold sample_position. rewrite decide_False by lia.
  assert (0 < INR (n - 1)) as H by (apply lt_0_INR; lia).
  case_decide.
  - replace (INR (n - 1) * (PI / INR (n - 1))) with PI by (field; lra).
    rewrite cos_PI. lra.
  - field. lra.
Qed.

Lemma sample_position_increasing n sp i j :
  (i < j < n)%nat → sample_position n sp i < sample_position n sp j.
Proof.
  intros Hij. unfold sample_position. destruct (decide (n = 1%nat)); [lia|].
  assert (0 < INR (n - 1)) as Hn by (apply lt_0_INR; lia).
  assert (INR i < INR j) as Hlt by (apply lt_INR; lia).
  assert (0 <= INR i) as Hi0 by apply pos_INR.
  assert (INR j <= INR (n - 1)) as Hj1 by (apply le_INR; lia).
  assert (0 < / INR (n - 1)) as Hinv by (by apply Rinv_0_lt_compat).
  case_decide.
  - pose proof PI_RGT_0 as Hpi.
    assert (0 < PI / INR (n - 1)) as Hstep by (by apply Rdiv_lt_0_compat).
    assert (INR j * (PI / INR (n - 1)) <= PI) as Hjpi.
    { replace PI with (INR (n - 1) * (PI / INR (n - 1))) at 2 by (field; lra).
      apply Rmult_le_compat_r; lra. }
    assert (cos (INR j * (PI / INR (n - 1))) < cos (INR i * (PI / INR (n - 1)))).
    { apply cos_decreasing_1; try nra. }
    lra.
  - unfold Rdiv. rewrite !Rmult_1_l. by apply Rmult_lt_compat_r.
Qed.

End sample_facts.

Module camber_line_facts.
Import common array_facts.

Lemma naca4_camber_line s c n sp out :
  naca4.generate_naca4_full s c n sp = Ok out →
  ∃ x, sample_x n sp = Ok x ∧ x_c out = map (fun v => v * c) x
       ∧ length (yc out) = length x.
Proof.
  intros H. apply naca4_facts.full_inv in H
    as (q & x & yt & yc0 & sf & _ & Hs & _ & _ & _ & Hxc & Hyc).
  apply naca4_facts.generate_surfaces_lengths in Hs
    as (_ & Hx & _ & Hlx & Hlyc & _).
  exists x. split_and!; [done|done|]. rewrite Hyc. congruence.
Qed.

Lemma family_camber_line fam s c n sp out :
  generate_full fam s c n sp = Ok out →
  ∃ x, sample_x n sp = Ok x ∧ x_c out = map (fun v => v * c) x
       ∧ length (yc out) = length x.
Proof.
  destruct fam; simpl; intros H.
  - exact (naca4_camber_line _ _ _ _ _ H).
  - unfold naca5.generate_naca5_full in H.
    inv_bind H as q Hq. inv_bind H as g Hg. inv_bind H as mt Hm. injection H as <-.
    unfold naca5.generate_geometry in Hg. inv_bind Hg as [[[x yt] yc0] sf] Hs.
    injection Hg as <-. cbn [x_c yc g_x_c g_yc].
    destruct (solver_facts.parse_naca5_fields _ _ _ Hq) as (_ & _ & _ & ->).
    unfold naca5.generate_surfaces in Hs. destruct (_ =? _)%Z; [done|].
    inv_bind Hs as x' Hx. inv_bind Hs as p Hp. inv_bind Hs as r Hr.
    inv_bind Hs as k1 Hk. inv_bind Hs as cd Hcd.
    injection Hs as E1 E2 E3 E4. subst x yc0. exists x'. split_and!; [done|done|].
    rewrite length_map. by apply contour_facts.naca5_camber_length in Hcd.
  - unfold naca6.generate_naca6_full in H.
    inv_bind H as q Hq. inv_bind H as g Hg. inv_bind H as mt Hm. injection H as <-.
    unfold naca6.generate_geometry in Hg. inv_bind Hg as [[[x yt] yc0] sf] Hs.
    injection Hg as <-. cbn [x_c yc g_x_c g_yc].
    assert (naca6.chord q = c) as ->.
    { unfold naca6.parse_naca6 in Hq. facade_facts.unravel Hq. by injection Hq as <-. }
    unfold naca6.generate_surfaces in Hs. facade_facts.unravel Hs.
    injection Hs as E1 E2 E3 E4. subst x yc0. eexists. split_and!; [done|done|].
    by rewrite ?length_map.
  - unfold naca7.generate_naca7_full in H.
    inv_bind H as q Hq. inv_bind H as r4 Hr. injection H as <-.
    by apply naca4_camber_line in Hr.
  - unfold naca8.generate_naca8_full in H.
    inv_bind H as q Hq. inv_bind H as r4 Hr. injection H as <-.
    by apply naca4_camber_line in Hr.
Qed.

End camber_line_facts.

(** X8.  For every family, the camber line that a generation returns has
    [n_points] abscissae and as many ordinates.  The abscissa of index [i] is
    the chord times [i/(N-1)] (linear spacing) or times
    [(1 - cos (pi*i/(N-1)))/2] (cosine spacing): the first one is 0, the last
    one is the chord when there are at least two samples, and for a positive
    chord they increase strictly and stay between 0 and the chord. *)
Theorem camber_line_abscissae (fam : family) (s : string) (chord0 : R) (n : Z)
    (sp : string) (out : full_result) :
  generate_full fam s chord0 n sp = Ok out →
  length (x_c out) = Z.to_nat n
  ∧ length (yc out) = Z.to_nat n
  ∧ (∀ i, (i < Z.to_nat n)%nat →
       x_c out !! i = Some (sample_position (Z.to_nat n) sp i * chord0))
  ∧ (∀ v, x_c out !! 0%nat = Some v → v = 0)
  ∧ (∀ v, (2 ≤ n)%Z → x_c out !! (Z.to_nat n - 1)%nat = Some v → v = chord0)
  ∧ (0 < chord0 →
     (∀ i v, x_c out !! i = Some v → 0 <= v <= chord0)
     ∧ (∀ i j u v, (i < j)%nat →
          x_c out !! i = Some u → x_c out !! j = Some v → u < v)).
Proof.
  intros H. apply camber_line_facts.family_camber_line in H as (x & Hx & Hxc & Hyc).
  pose proof (array_facts.sample_x_Ok _ _ _ Hx) as [Hn Hlx].
  assert (∀ i, (i < Z.to_nat n)%nat →
            x_c out !! i = Some (sample_position (Z.to_nat n) sp i * chord0)) as Hi.
  { intros i Hlt. rewrite Hxc. change (map ?f ?l) with (f <$> l).
    by rewrite list_lookup_fmap, (sample_facts.sample_x_lookup _ _ _ _ Hx Hlt). }
  assert (length (x_c out) = Z.to_nat n) as Hl by (by rewrite Hxc, length_map).
  assert (∀ i v, x_c out !! i = Some v →
            (i < Z.to_nat n)%nat ∧ v = sample_position (Z.to_nat n) sp i * chord0)
    as Hget.
  { intros i v Hv. apply lookup_lt_Some in Hv as Hlt. rewrite Hl in Hlt.
    split; [done|]. rewrite (Hi i Hlt) in Hv. congruence. }
  split_and!; [done|congruence|done| | |].
  - intros v Hv. apply Hget in Hv as [_ ->].
    rewrite sample_facts.sample_position_first. lra.
  - intros v Hn2 Hv. apply Hget in Hv as [_ ->].
    rewrite sample_facts.sample_position_last by lia. lra.
  - intros Hc. split.
    + intros i v Hv. apply Hget in Hv as [Hlt ->].
      pose proof (sample_facts.sample_position_range (Z.to_nat n) sp i Hlt). nra.
    + intros i j u v Hij Hu Hv.
      apply Hget in Hu as [_ ->]. apply Hget in Hv as [Hj ->].
      pose proof (sample_facts.sample_position_increasing (Z.to_nat n) sp i j
                    ltac:(lia)).
      nra.
Qed.

Lemma camber_line_abscissae_witness :
  ∃ out, generate_full NACA7 "72412" 1 200 "cosine" = Ok out
         ∧ length (x_c out) = 200%nat ∧ length (yc out) = 200%nat.
Proof.
  destruct naca7_72412_generates as [out H]. exists out. split; [exact H|].
  destruct (camber_line_abscissae NACA7 "72412" 1 200 "cosine" out H)
    as (Hx & Hy & _).
  split; [exact Hx|exact Hy].
Defined.

(** * The 6-series *)

Module naca6_facts.
Import common array_facts.

Lemma parse_naca6_chord s c q : naca6.parse_naca6 s c = Ok q → naca6.chord q = c.
Proof.
  unfold naca6.parse_naca6. intros H. facade_facts.unravel H. by injection H as <-.
Qed.

Lemma generate_surfaces_eq q n sp :
  naca6.generate_surfaces q n sp =
    x ← sample_x n sp;
    mret (x, thickness (naca6.thickness q) x, map (fun _ => 0) x,
          {| xu := x; yu := thickness (naca6.thickness q) x; xl := x;
             yl := map Ropp (thickness (naca6.thickness q) x) |}).
Proof. reflexivity. Qed.

(** [generate_naca6_full] taken apart. *)
Lemma full6_inv s c n sp out :
  naca6.generate_naca6_full s c n sp = Ok out →
  ∃ q x,
    naca6.parse_naca6 s c = Ok q
    ∧ sample_x n sp = Ok x
    ∧ (1 ≤ n)%Z ∧ length x = Z.to_nat n
    ∧ x_loop out = map (fun v => v * c) (reverse x ++ drop 1 x)
    ∧ y_loop out = reverse (thickness (naca6.thickness q) x)
                   ++ drop 1 (map Ropp (thickness (naca6.thickness q) x))
    ∧ x_c out = map (fun v => v * c) x
    ∧ yc out = map (fun _ => 0) x
    ∧ naca6.compute_metrics q (x_loop out) (y_loop out) x (yc out)
        (thickness (naca6.thickness q) x) = Ok (metrics out).
Proof.
  unfold naca6.generate_naca6_full. intros H.
  inv_bind H as q Hq. inv_bind H as g Hg. inv_bind H as mt Hm. injection H as <-.
  unfold naca6.generate_geometry in Hg. inv_bind Hg as [[[x yt] yc0] sf] Hs.
  injection Hg as <-. cbn [g_x_loop g_y_loop g_x_c g_yc g_x g_yt assemble fst snd] in *.
  rewrite (parse_naca6_chord _ _ _ Hq) in *.
  rewrite generate_surfaces_eq in Hs. inv_bind Hs as x' Hx.
  injection Hs as E1 E2 E3 E4. subst x' yt yc0 sf. cbn [xu yu xl yl] in *.
  pose proof (sample_x_Ok _ _ _ Hx) as [Hn Hlx].
  assert (1 ≤ n)%Z.
  { unfold naca6.compute_metrics in Hm. inv_bind Hm as v Hv.
    apply contour_facts.metrics_need_sample in Hv.
    rewrite thickness_length in Hv. lia. }
  exists q, x. by split_and!.
Qed.

Lemma full6_total s c n sp q :
  naca6.parse_naca6 s c = Ok q → (1 ≤ n)%Z → sp = "cosine" ∨ sp = "linear" →
  is_Ok (naca6.generate_naca6_full s c n sp).
Proof.
  intros Hq Hn Hsp. unfold naca6.generate_naca6_full. rewrite Hq.
  cbn [mbind result_bind]. unfold naca6.generate_geometry.
  rewrite generate_surfaces_eq.
  destruct (sample_x_total n sp) as [x Hx]; [lia|done|]. rewrite Hx.
  cbn [mbind result_bind mret result_ret g_x_loop g_y_loop g_x_c g_yc g_x g_yt
       assemble fst snd xu yu xl yl].
  apply sample_x_Ok in Hx as [_ Hlx].
  unfold naca6.compute_metrics.
  destruct (max_total (map (Rmult 2) (thickness (naca6.thickness q) x))) as [a ->].
  { rewrite length_map, thickness_length. lia. }
  destruct (max_total (map Rabs (map (fun _ : R => 0) x))) as [b ->].
  { rewrite !length_map. lia. }
  cbn [mbind result_bind].
  match goal with |- context [shoelace ?xs ?ys] =>
    destruct (shoelace_total xs ys) as [ar ->] end.
  { rewrite length_map, !closed_loop_length, !length_map, thickness_length. lia. }
  by eexists.
Qed.

Lemma max_abs_zeros {A} (x : list A) v :
  np.max (map Rabs (map (fun _ => 0) x)) = Ok v → v = 0.
Proof.
  destruct x as [|a x]; simpl; [done|]. intros [= <-].
  induction x as [|b x IH]; simpl.
  - apply Rabs_R0.
  - rewrite Rabs_R0, Rmax_left by lra. rewrite <- Rabs_R0 at 1. exact IH.
Qed.

End naca6_facts.

(** X9.  On a code that the 6-series parser accepts, [generate_naca6_full]
    returns exactly when the sample count is at least 1 and the spacing is
    [cosine] or [linear]; an unknown spacing raises the spacing error, a
    negative count the error of [np.linspace], the count 0 the error of
    [np.max] on an empty array. *)
Theorem naca6_generation_outcome (s : string) (chord0 : R) (n : Z) (sp : string)
    (q : naca6.NACA6Params) :
  naca6.parse_naca6 s chord0 = Ok q →
  (is_Ok (naca6.generate_naca6_full s chord0 n sp)
     ↔ (1 ≤ n)%Z ∧ (sp = "cosine" ∨ sp = "linear"))
  ∧ (sp ≠ "cosine" → sp ≠ "linear" →
     naca6.generate_naca6_full s chord0 n sp = Raise common.spacing_error)
  ∧ (sp = "cosine" ∨ sp = "linear" → (n < 0)%Z →
     naca6.generate_naca6_full s chord0 n sp = Raise (np.linspace_error n))
  ∧ (sp = "cosine" ∨ sp = "linear" → n = 0%Z →
     naca6.generate_naca6_full s chord0 n sp = Raise np.max_error).
Proof.
  intros Hq.
  assert (∀ e, common.sample_x n sp = Raise e →
               naca6.generate_naca6_full s chord0 n sp = Raise e) as Hfail.
  { intros e He. unfold naca6.generate_naca6_full. rewrite Hq.
    cbn [mbind result_bind]. unfold naca6.generate_geometry.
    rewrite naca6_facts.generate_surfaces_eq. by rewrite He. }
  split_and!.
  - split.
    + intros [out Hout]. apply naca6_facts.full6_inv in Hout
        as (q' & x & _ & Hx & Hn & _).
      split; [done|]. by eapply outcome_facts.sample_x_spacing.
    + intros [Hn Hsp]. by eapply naca6_facts.full6_total.
  - intros H1 H2. apply Hfail. by apply outcome_facts.sample_x_unknown.
  - intros Hsp Hn. apply Hfail. by apply outcome_facts.sample_x_negative.
  - intros Hsp ->. unfold naca6.generate_naca6_full. rewrite Hq.
    cbn [mbind result_bind]. unfold naca6.generate_geometry.
    rewrite naca6_facts.generate_surfaces_eq.
    by rewrite (outcome_facts.sample_x_zero _ Hsp).
Qed.

Lemma naca6_63018_parse :
  naca6.parse_naca6 "63-018" 1 =
    Ok {| naca6.code := "63-018"; naca6.pos_min_pressure := 3;
          naca6.design_cl := 0 / 10; naca6.thickness := 18 / 100;
          naca6.chord := 1 |}.
Proof. reflexivity. Qed.

Lemma naca6_63018_generates :
  is_Ok (naca6.generate_naca6_full "63-018" 1 200 "cosine").
Proof.
  eapply naca6_facts.full6_total; [apply naca6_63018_parse|lia|by left].
Qed.

Lemma naca6_generation_outcome_witness :
  is_Ok (naca6.generate_naca6_full "63-018" 1 200 "cosine")
  ∧ naca6.generate_naca6_full "63-018" 1 0 "linear" = Raise np.max_error.
Proof.
  destruct (naca6_generation_outcome "63-018" 1 200 "cosine" _ naca6_63018_parse)
    as (H1 & _).
  destruct (naca6_generation_outcome "63-018" 1 0 "linear" _ naca6_63018_parse)
    as (_ & _ & _ & H0).
  split.
  - apply H1. split; [lia|by left].
  - apply H0; [by right|done].
Defined.

(** X10.  A 6-series contour is symmetric about the chord line: the camber
    line is zero at every sample, the [max_camber] metric is 0, and the
    contour point [j] places after the leading edge mirrors the point [j]
    places before it (same x, opposite y), for every [j] below the sample
    count. *)
Theorem naca6_contour_is_symmetric (s : string) (chord0 : R) (n : Z) (sp : string)
    (out : full_result) :
  naca6.generate_naca6_full s chord0 n sp = Ok out →
  Forall (fun v => v = 0) (yc out)
  ∧ (∃ v, metrics out !! "max_camber" = Some (VFloat v) ∧ v = 0)
  ∧ (∀ j, (j < Z.to_nat n)%nat →
       x_loop out !! (Z.to_nat n - 1 + j)%nat = x_loop out !! (Z.to_nat n - 1 - j)%nat
       ∧ ∀ u v, y_loop out !! (Z.to_nat n - 1 - j)%nat = Some u →
                y_loop out !! (Z.to_nat n - 1 + j)%nat = Some v → v = - u).
Proof.
  intros H. apply naca6_facts.full6_inv in H
    as (q & x & Hq & Hx & Hn & Hlx & Hxl & Hyl & Hxc & Hyc & Hm).
  split_and!.
  - rewrite Hyc. apply metric_facts.Forall_zero_map.
  - unfold naca6.compute_metrics in Hm.
    inv_bind Hm as mt Hmt. inv_bind Hm as mc Hmc. inv_bind Hm as ar Har.
    injection Hm as <-. rewrite Hyc in Hmc.
    apply naca6_facts.max_abs_zeros in Hmc as ->.
    eexists. split.
    + cbn [list_to_map foldr uncurry]. rewrite !lookup_insert_ne by done.
      apply lookup_insert_eq.
    + lra.
  - intros j Hj.
    set (yt := common.thickness (naca6.thickness q) x) in *.
    assert (length yt = Z.to_nat n) as Hlyt
      by (unfold yt; by rewrite array_facts.thickness_length).
    assert (length (map Ropp yt) = Z.to_nat n) as Hlyo by (by rewrite length_map).
    assert (1 ≤ Z.to_nat n)%nat as Hn1 by lia.
    destruct (contour_facts.loop_positions x x _ Hlx Hlx Hn1) as (_ & Ux & Dx).
    destruct (contour_facts.loop_positions yt (map Ropp yt) _ Hlyt Hlyo Hn1)
      as (_ & Uy & Dy).
    destruct (decide (j = 0%nat)) as [->|Hj0].
    + rewrite Nat.add_0_r, Nat.sub_0_r. split; [done|].
      intros u v Hu Hv. rewrite Hu in Hv. injection Hv as <-.
      rewrite Hyl, Uy in Hu by lia.
      replace (Z.to_nat n - 1 - (Z.to_nat n - 1))%nat with 0%nat in Hu by lia.
      unfold yt, common.thickness in Hu. change (map ?f ?l) with (f <$> l) in Hu.
      rewrite list_lookup_fmap, (sample_facts.sample_x_lookup _ _ _ 0%nat Hx) in Hu by lia.
      injection Hu as <-. rewrite sample_facts.sample_position_first.
      rewrite example_0012.thickness_at_0. lra.
    + split.
      * rewrite Hxl. change (map ?f ?l) with (f <$> l).
        rewrite !list_lookup_fmap, Dx, Ux by lia. do 2 f_equal. lia.
      * intros u v Hu Hv. rewrite Hyl in Hu, Hv.
        rewrite Uy in Hu by lia. rewrite Dy in Hv by lia.
        replace (Z.to_nat n - 1 - (Z.to_nat n - 1 - j))%nat with j in Hu by lia.
        change (map ?f ?l) with (f <$> l) in Hv.
        rewrite list_lookup_fmap, Hu in Hv. by injection Hv as <-.
Qed.

Lemma naca6_contour_is_symmetric_witness :
  ∃ out, naca6.generate_naca6_full "63-018" 1 200 "cosine" = Ok out
         ∧ Forall (fun v => v = 0) (yc out).
Proof.
  destruct naca6_63018_generates as [out H]. exists out. split; [exact H|].
  exact (proj1 (naca6_contour_is_symmetric "63-018" 1 200 "cosine" out H)).
Defined.

Module symmetric_facts.
Import common.

(** With a zero camber line and zero slopes the two surfaces are the samples
    with the thickness added and subtracted. *)
Lemma surfaces_of_flat (f : R → R) (x : list R) :
  surfaces_of x (map f x) (map (fun _ => 0) x) (map atan (map (fun _ => 0) x))
  = {| xu := x; yu := map f x; xl := x; yl := map Ropp (map f x) |}.
Proof.
  unfold surfaces_of. f_equal.
  - induction x as [|a x IH]; simpl; [done|]. rewrite IH, atan_0, sin_0. f_equal. lra.
  - induction x as [|a x IH]; simpl; [done|]. rewrite IH, atan_0, cos_0. f_equal. lra.
  - induction x as [|a x IH]; simpl; [done|]. rewrite IH, atan_0, sin_0. f_equal. lra.
  - induction x as [|a x IH]; simpl; [done|]. rewrite IH, atan_0, cos_0. f_equal. lra.
Qed.

Lemma surfaces_of_symmetric t x :
  surfaces_of x (thickness t x) (map (fun _ => 0) x) (map atan (map (fun _ => 0) x))
  = {| xu := x; yu := thickness t x; xl := x; yl := map Ropp (thickness t x) |}.
Proof. apply surfaces_of_flat. Qed.

End symmetric_facts.

(** X11.  The 6-series geometry is that of a symmetric 4-digit section: for a
    6-series code and a 4-digit code with [p = 0] (second digit 0) and the same
    thickness fraction, the two full generations at the same chord, sample
    count and spacing return the same contour and camber line, or fail with
    the same error. *)
Theorem naca6_is_symmetric_naca4 (s6 s4 : string) (chord0 : R) (n : Z) (sp : string)
    (q6 : naca6.NACA6Params) (q4 : naca4.NACA4Params) :
  naca6.parse_naca6 s6 chord0 = Ok q6 →
  naca4.parse_naca4 s4 chord0 = Ok q4 →
  naca4.p q4 = 0 →
  naca4.t q4 = naca6.thickness q6 →
  geometry_of <$> naca6.generate_naca6_full s6 chord0 n sp
  = geometry_of <$> naca4.generate_naca4_full s4 chord0 n sp.
Proof.
  intros H6 H4 Hp Ht.
  unfold naca6.generate_naca6_full, naca4.generate_naca4_full.
  rewrite H6, H4. cbn [mbind result_bind].
  unfold naca6.generate_geometry, naca4.generate_geometry.
  rewrite naca6_facts.generate_surfaces_eq. unfold naca4.generate_surfaces.
  rewrite (naca6_facts.parse_naca6_chord _ _ _ H6).
  destruct (naca4_facts.parse_naca4_fields _ _ _ H4) as [_ ->].
  destruct (common.sample_x n sp) as [x|e]; [|reflexivity].
  cbn [mbind result_bind]. rewrite Hp, metric_facts.camber_symmetric.
  cbn [mbind result_bind mret result_ret fst snd]. rewrite Ht.
  rewrite !symmetric_facts.surfaces_of_symmetric.
  cbn [g_x_loop g_y_loop g_x_c g_yc g_x g_yt common.assemble fst snd
       common.xu common.yu common.xl common.yl].
  unfold naca6.compute_metrics, naca4.compute_metrics.
  destruct (np.max (map (Rmult 2) (common.thickness (naca6.thickness q6) x)));
    [|reflexivity].
  cbn [mbind result_bind].
  destruct (np.max (map Rabs (map (fun _ : R => 0) x))); [|reflexivity].
  cbn [mbind result_bind].
  match goal with |- context [common.shoelace ?xs ?ys] =>
    destruct (common.shoelace xs ys) end; reflexivity.
Qed.

Lemma naca6_is_symmetric_naca4_witness :
  geometry_of <$> naca6.generate_naca6_full "63-012" 1 200 "cosine"
  = geometry_of <$> naca4.generate_naca4_full "0012" 1 200 "cosine".
Proof.
  refine (naca6_is_symmetric_naca4 "63-012" "0012" 1 200 "cosine"
    {| naca6.code := "63-012"; naca6.pos_min_pressure := 3;
       naca6.design_cl := 0 / 10; naca6.thickness := 12 / 100;
       naca6.chord := 1 |} _ _ (naca4_0012_parse 1) _ _).
  - reflexivity.
  - simpl. lra.
  - reflexivity.
Defined.

(** * The ends of a 4-digit contour *)

Module endpoint_facts.
Import common array_facts.

Lemma for_each_lookup {A B} (f : A → result B) l l' i a :
  for_each f l = Ok l' → l !! i = Some a → ∃ b, l' !! i = Some b ∧ f a = Ok b.
Proof.
  revert l' i. induction l as [|a0 l IH]; intros l' i H Hi; [done|].
  simpl in H. inv_bind H as b0 Hb0. inv_bind H as bs Hbs. injection H as <-.
  destruct i as [|i]; simpl in *.
  - injection Hi as ->. eauto.
  - eauto.
Qed.

Lemma surfaces_of_lookup x yt yc0 th i xi ti ci hi :
  x !! i = Some xi → yt !! i = Some ti → yc0 !! i = Some ci → th !! i = Some hi →
  xu (surfaces_of x yt yc0 th) !! i = Some (xi - ti * sin hi)
  ∧ yu (surfaces_of x yt yc0 th) !! i = Some (ci + ti * cos hi)
  ∧ xl (surfaces_of x yt yc0 th) !! i = Some (xi + ti * sin hi)
  ∧ yl (surfaces_of x yt yc0 th) !! i = Some (ci - ti * cos hi).
Proof.
  intros Hx Ht Hc Hh. unfold surfaces_of. cbn [xu yu xl yl].
  change (map ?f ?l) with (f <$> l).
  rewrite !lookup_zip_with, !list_lookup_fmap, Hx, Ht, Hc, Hh. done.
Qed.

(** The camber line and its slope at one sample. *)
Lemma camber_lookup m0 p0 x yc0 d i xi :
  naca4.camber m0 p0 x = Ok (yc0, d) → x !! i = Some xi →
  ∃ ci di, yc0 !! i = Some ci ∧ d !! i = Some di
           ∧ (p0 = 0 → ci = 0 ∧ di = 0)
           ∧ (p0 ≠ 0 → naca4.camber_at m0 p0 xi = Ok (ci, di)).
Proof.
  unfold naca4.camber. intros H Hi. destruct (Req_dec_T p0 0) as [Hp|Hp].
  - injection H as <- <-. exists 0, 0. change (map ?f ?l) with (f <$> l).
    rewrite !list_lookup_fmap, Hi. done.
  - inv_bind H as l Hl. injection H as <- <-.
    destruct (for_each_lookup _ _ _ _ _ Hl Hi) as ([ci di] & Hli & Hf).
    exists ci, di. change (map ?f ?l) with (f <$> l).
    rewrite !list_lookup_fmap, Hli. done.
Qed.

(** The camber line starts and ends on the chord line. *)
Lemma camber_at_ends m0 p0 xi ci di :
  0 < p0 < 1 → xi = 0 ∨ xi = 1 → naca4.camber_at m0 p0 xi = Ok (ci, di) → ci = 0.
Proof.
  intros Hp Hxi. unfold naca4.camber_at, pymath.div.
  destruct Hxi as [-> | ->].
  - destruct (Rlt_dec 0 p0); [|lra].
    destruct (Req_dec_T (p0 ^ 2) 0); [done|]. intros [= <- _]. lra.
  - destruct (Rlt_dec 1 p0); [lra|].
    destruct (Req_dec_T ((1 - p0) ^ 2) 0); [done|]. intros [= <- _]. lra.
Qed.

Lemma thickness_at_end t0 : thickness_at t0 1 = 0.0105 * t0.
Proof. unfold thickness_at. rewrite sqrt_1. lra. Qed.

End endpoint_facts.

(** X12.  A 4-digit contour of at least two samples starts at the upper and
    ends at the lower trailing-edge point; the two lie opposite each other
    about the point (chord, 0), and with x divided by the chord their
    distance is [0.021 * t], the trailing-edge thickness of the NACA
    polynomial.  For a positive thickness the first point lies above the
    last one, so the contour is open at the trailing edge; for the thickness
    digits [00] the two are the same point.  The point at position [N-1],
    the leading edge, is the origin. *)
Theorem naca4_contour_ends (s : string) (chord0 : R) (n : Z) (sp : string)
    (out : full_result) :
  naca4.generate_naca4_full s chord0 n sp = Ok out →
  (2 ≤ n)%Z →
  ∃ (q : naca4.NACA4Params) (xf yf xm ym xe ye : R),
    naca4.parse_naca4 s chord0 = Ok q
    ∧ x_loop out !! 0%nat = Some xf ∧ y_loop out !! 0%nat = Some yf
    ∧ x_loop out !! (Z.to_nat n - 1)%nat = Some xm
    ∧ y_loop out !! (Z.to_nat n - 1)%nat = Some ym
    ∧ x_loop out !! (2 * Z.to_nat n - 2)%nat = Some xe
    ∧ y_loop out !! (2 * Z.to_nat n - 2)%nat = Some ye
    ∧ xm = 0 ∧ ym = 0
    ∧ xf + xe = 2 * chord0 ∧ yf + ye = 0
    ∧ (xf - xe) ^ 2 + chord0 ^ 2 * (yf - ye) ^ 2
      = (chord0 * (0.021 * naca4.t q)) ^ 2
    ∧ 0 <= naca4.t q
    ∧ (0 < naca4.t q → ye < yf)
    ∧ (naca4.t q = 0 → xf = xe ∧ yf = ye).
Proof.
  intros H Hn2. apply naca4_facts.full_inv in H
    as (q & x & yt & yc0 & sf & Hq & Hs & _ & Hxl & Hyl & _).
  pose proof (naca4_facts.generate_surfaces_lengths _ _ _ _ _ _ _ Hs)
    as (_ & Hx & Hyt & Hlx & _ & Hxu & Hyu & Hlxl & Hlyl).
  pose proof (naca4_facts.parse_naca4_ranges _ _ _ Hq) as (_ & Hp & Ht).
  unfold naca4.generate_surfaces in Hs. rewrite Hx in Hs.
  cbn [mbind result_bind] in Hs. inv_bind Hs as [yc1 d] Hcd.
  cbn [fst snd] in Hs.
  assert (yc1 = yc0
          ∧ sf = common.surfaces_of x (common.thickness (naca4.t q) x) yc1
                   (map atan d)) as [-> ->].
  { unfold mret, result_ret in Hs. split; congruence. }
  subst yt. clear Hs.
  set (N := Z.to_nat n) in *. assert (2 ≤ N)%nat as HN by lia.
  (* the first and the last sample *)
  pose proof (sample_facts.sample_x_lookup _ _ _ 0%nat Hx ltac:(lia)) as Hx0.
  pose proof (sample_facts.sample_x_lookup _ _ _ (N - 1)%nat Hx ltac:(lia)) as Hx1.
  fold N in Hx0, Hx1.
  rewrite sample_facts.sample_position_first in Hx0.
  rewrite sample_facts.sample_position_last in Hx1 by lia.
  assert (∀ i xi, x !! i = Some xi →
            common.thickness (naca4.t q) x !! i
            = Some (common.thickness_at (naca4.t q) xi)) as Hyti.
  { intros i xi Hi. unfold common.thickness.
    change (map ?f ?l) with (f <$> l). by rewrite list_lookup_fmap, Hi. }
  destruct (endpoint_facts.camber_lookup _ _ _ _ _ _ _ Hcd Hx0)
    as (c0 & d0 & Hc0 & Hd0 & Hz0 & Hn0).
  destruct (endpoint_facts.camber_lookup _ _ _ _ _ _ _ Hcd Hx1)
    as (c1 & d1 & Hc1 & Hd1 & Hz1 & Hn1).
  assert (c0 = 0 ∧ c1 = 0) as [-> ->].
  { destruct (Req_dec_T (naca4.p q) 0) as [Hp0|Hp0].
    - split; [by apply Hz0|by apply Hz1].
    - split; eapply (endpoint_facts.camber_at_ends (naca4.m q) (naca4.p q));
        [lra|by left|by apply Hn0|lra|by right|by apply Hn1]. }
  assert (∀ i di, d !! i = Some di → map atan d !! i = Some (atan di)) as Hth.
  { intros i di Hi. change (map ?f ?l) with (f <$> l). by rewrite list_lookup_fmap, Hi. }
  destruct (endpoint_facts.surfaces_of_lookup _ _ _ _ _ _ _ _ _
              Hx0 (Hyti _ _ Hx0) Hc0 (Hth _ _ Hd0)) as (Hxu0 & Hyu0 & _ & _).
  destruct (endpoint_facts.surfaces_of_lookup _ _ _ _ _ _ _ _ _
              Hx1 (Hyti _ _ Hx1) Hc1 (Hth _ _ Hd1)) as (Hxu1 & Hyu1 & Hxl1 & Hyl1).
  rewrite example_0012.thickness_at_0 in Hxu0, Hyu0.
  rewrite endpoint_facts.thickness_at_end in Hxu1, Hyu1, Hxl1, Hyl1.
  fold N in Hxu, Hyu, Hlxl, Hlyl.
  destruct (contour_facts.loop_positions _ _ N Hxu Hlxl ltac:(lia)) as (_ & Ux & Dx).
  destruct (contour_facts.loop_positions _ _ N Hyu Hlyl ltac:(lia)) as (_ & Uy & Dy).
  set (a := 0.0105 * naca4.t q) in *. set (th := atan d1) in *.
  exists q, ((1 - a * sin th) * chord0), (0 + a * cos th),
    ((0 - 0 * sin (atan d0)) * chord0), (0 + 0 * cos (atan d0)),
    ((1 + a * sin th) * chord0), (0 - a * cos th).
  split; [done|].
  assert (∀ (l : list R) j v, l !! j = Some v →
            map (fun v => v * chord0) l !! j = Some (v * chord0)) as Hsc.
  { intros l j v Hj. change (map ?f ?l) with (f <$> l). by rewrite list_lookup_fmap, Hj. }
  unfold np.closed_loop in Hxl, Hyl. rewrite Hxl, Hyl.
  split_and!.
  - apply Hsc. rewrite Ux by lia. by rewrite Nat.sub_0_r.
  - rewrite Uy by lia. by rewrite Nat.sub_0_r.
  - apply Hsc. rewrite Ux by lia. by rewrite Nat.sub_diag.
  - rewrite Uy by lia. by rewrite Nat.sub_diag.
  - apply Hsc. replace (2 * N - 2)%nat with (N - 1 + (N - 1))%nat by lia.
    by rewrite Dx by lia.
  - replace (2 * N - 2)%nat with (N - 1 + (N - 1))%nat by lia.
    by rewrite Dy by lia.
  - lra.
  - lra.
  - lra.
  - lra.
  - pose proof (sin2_cos2 th) as Hsc2. unfold Rsqr in Hsc2.
    replace ((1 - a * sin th) * chord0 - (1 + a * sin th) * chord0)
      with (- (2 * a * chord0) * sin th) by lra.
    replace (0 + a * cos th - (0 - a * cos th)) with (2 * a * cos th) by lra.
    replace (chord0 * (0.021 * naca4.t q)) with (2 * a * chord0)
      by (unfold a; lra).
    transitivity ((2 * a * chord0) ^ 2 * (sin th * sin th + cos th * cos th));
      [ring|rewrite Hsc2; ring].
  - lra.
  - intros Hpos. assert (0 < cos th) as Hcos.
    { pose proof (atan_bound d1). apply cos_gt_0; unfold th; lra. }
    assert (0 < a) by (unfold a; lra). nra.
  - intros Hzero. assert (a = 0) as -> by (unfold a; lra). split; lra.
Qed.

Lemma naca4_contour_ends_witness :
  ∃ out xm ym yf ye,
    naca4.generate_naca4_full "2412" 1 200 "cosine" = Ok out
    ∧ x_loop out !! 199%nat = Some xm ∧ y_loop out !! 199%nat = Some ym
    ∧ xm = 0 ∧ ym = 0
    ∧ y_loop out !! 0%nat = Some yf ∧ y_loop out !! 398%nat = Some ye
    ∧ ye < yf.
Proof.
  destruct naca4_2412_generates as [out H]. exists out.
  destruct (naca4_contour_ends "2412" 1 200 "cosine" out H ltac:(lia))
    as (q & xf & yf & xm & ym & xe & ye & Hq & _ & Hyf & Hxm & Hym & _ & Hye
        & Ex & Ey & _ & _ & _ & _ & Hopen & _).
  exists xm, ym, yf, ye.
  split_and!; [exact H|exact Hxm|exact Hym|exact Ex|exact Ey|exact Hyf|exact Hye|].
  apply Hopen. rewrite naca4_2412_parse in Hq. injection Hq as <-.
  cbn [naca4.t]. lra.
Defined.

(** * The shoelace area *)

Module shoelace_facts.
Import common array_facts.

Lemma dotsum_snoc u v a b :
  length u = length v → dotsum (u ++ [a]) (v ++ [b]) = dotsum u v + a * b.
Proof.
  unfold dotsum. revert v. induction u as [|x u IH]; intros [|y v] Hl; try done.
  - simpl. lra.
  - simpl in *. rewrite IH by lia. lra.
Qed.

Lemma dotsum_comm u v : dotsum u v = dotsum v u.
Proof.
  unfold dotsum. revert v. induction u as [|x u IH]; intros [|y v]; simpl; try done.
  rewrite IH. lra.
Qed.

Lemma dotsum_reverse u v :
  length u = length v → dotsum (reverse u) (reverse v) = dotsum u v.
Proof.
  revert v. induction u as [|x u IH]; intros [|y v] Hl; try done.
  rewrite !reverse_cons, dotsum_snoc by (rewrite !length_reverse; simpl in Hl; lia).
  rewrite IH by (simpl in Hl; lia). unfold dotsum. simpl. lra.
Qed.

Lemma roll_left_cons a (u : list R) : np.roll_left (a :: u) = u ++ [a].
Proof. reflexivity. Qed.

(** The products of the reversed contour are those of the contour, the two
    coordinates exchanged. *)
Lemma dotsum_roll_reverse u v :
  length u = length v →
  dotsum (reverse u) (np.roll_left (reverse v)) = dotsum v (np.roll_left u).
Proof.
  intros Hl. destruct v as [|z v'] using rev_ind.
  - by destruct u.
  - clear IHv'. rewrite reverse_app. cbn [reverse rev_append app].
    change (rev_append [z] []) with [z]. cbn [app].
    rewrite roll_left_cons.
    change (reverse v' ++ [z]) with (reverse v' ++ reverse [z]).
    rewrite <- reverse_app. change ([z] ++ v') with (z :: v').
    rewrite length_app in Hl. simpl in Hl.
    rewrite dotsum_reverse by (simpl; lia).
    destruct u as [|a u]; [simpl in Hl; lia|].
    rewrite roll_left_cons, dotsum_snoc by (simpl in Hl; lia).
    unfold dotsum. simpl. rewrite (dotsum_comm v' u) || idtac.
    fold (dotsum u v'). fold (dotsum v' u). rewrite (dotsum_comm u v'). lra.
Qed.

End shoelace_facts.

(** X13.  The shoelace area of [compute_metrics] does not depend on the
    direction in which the contour is traversed: reversing both coordinate
    arrays gives the same result (the same area, or the same error when the
    two arrays differ in length). *)
Theorem shoelace_reversal (xs ys : list R) :
  common.shoelace (reverse xs) (reverse ys) = common.shoelace xs ys.
Proof.
  unfold common.shoelace, np.dot.
  rewrite !array_facts.roll_left_length, !length_reverse.
  destruct (decide (length xs = length ys)) as [Hl|Hl];
    destruct (decide (length ys = length xs)) as [Hl'|Hl'];
    try (exfalso; congruence); [|reflexivity].
  cbn [mbind result_bind]. unfold mret, result_ret. do 2 f_equal.
  pose proof (shoelace_facts.dotsum_roll_reverse xs ys Hl) as H1.
  pose proof (shoelace_facts.dotsum_roll_reverse ys xs Hl') as H2.
  unfold dotsum in H1, H2. rewrite H1, H2.
  apply Rabs_minus_sym.
Qed.

(** * The camber line of the 4-digit family *)

Module camber_facts.
Import common array_facts.

Lemma camber_at_range m0 p0 xi ci di :
  0 <= m0 → 0 < p0 < 1 → 0 <= xi <= 1 →
  naca4.camber_at m0 p0 xi = Ok (ci, di) → 0 <= ci <= m0.
Proof.
  intros Hm Hp Hxi. unfold naca4.camber_at, pymath.div.
  destruct (Rlt_dec xi p0) as [Hlt|Hge].
  - destruct (Req_dec_T (p0 ^ 2) 0) as [|Hne]; [done|]. intros Heq.
    assert (0 < p0 ^ 2) as Hp2 by nra.
    assert (0 <= 2 * p0 * xi - xi ^ 2 <= p0 ^ 2) as Hu by nra.
    assert (ci = m0 * ((2 * p0 * xi - xi ^ 2) / p0 ^ 2)) as ->
      by (injection Heq as <- _; field; lra).
    assert (0 <= (2 * p0 * xi - xi ^ 2) / p0 ^ 2 <= 1) as Hr.
    { split; [apply Rle_mult_inv_pos; lra|].
      apply (Rmult_le_reg_r (p0 ^ 2)); [done|].
      replace ((2 * p0 * xi - xi ^ 2) / p0 ^ 2 * p0 ^ 2)
        with (2 * p0 * xi - xi ^ 2) by (field; lra). lra. }
    nra.
  - destruct (Req_dec_T ((1 - p0) ^ 2) 0) as [|Hne]; [done|]. intros Heq.
    assert (0 < (1 - p0) ^ 2) as Hp2 by nra.
    assert (0 <= 1 - 2 * p0 + 2 * p0 * xi - xi ^ 2 <= (1 - p0) ^ 2) as Hu by nra.
    assert (ci = m0 * ((1 - 2 * p0 + 2 * p0 * xi - xi ^ 2) / (1 - p0) ^ 2)) as ->
      by (injection Heq as <- _; field; lra).
    assert (0 <= (1 - 2 * p0 + 2 * p0 * xi - xi ^ 2) / (1 - p0) ^ 2 <= 1) as Hr.
    { split; [apply Rle_mult_inv_pos; lra|].
      apply (Rmult_le_reg_r ((1 - p0) ^ 2)); [done|].
      replace ((1 - 2 * p0 + 2 * p0 * xi - xi ^ 2) / (1 - p0) ^ 2 * (1 - p0) ^ 2)
        with (1 - 2 * p0 + 2 * p0 * xi - xi ^ 2) by (field; lra). lra. }
    nra.
Qed.

Lemma camber_at_peak m0 p0 :
  0 < p0 < 1 → ∃ ci di, naca4.camber_at m0 p0 p0 = Ok (ci, di) ∧ ci = m0 ∧ di = 0.
Proof.
  intros Hp. unfold naca4.camber_at, pymath.div.
  destruct (Rlt_dec p0 p0); [lra|].
  destruct (Req_dec_T ((1 - p0) ^ 2) 0) as [E|Hne]; [nra|].
  eexists _, _. split; [reflexivity|]. split; [field; lra|lra].
Qed.

Lemma foldl_Rmax_bounds (l : list R) a lo hi :
  lo <= a <= hi → Forall (fun y => lo <= y <= hi) l → lo <= foldl Rmax a l <= hi.
Proof.
  revert a. induction l as [|b l IH]; intros a Ha Hl; simpl; [done|].
  inversion Hl as [|? ? Hb Hl']; subst. apply IH; [|done].
  unfold Rmax. destruct (Rle_dec a b); lra.
Qed.

Lemma max_bounds (l : list R) v lo hi :
  np.max l = Ok v → Forall (fun y => lo <= y <= hi) l → lo <= v <= hi.
Proof.
  destruct l as [|a l]; simpl; [done|]. intros [= <-] Hl.
  inversion Hl; subst. by apply foldl_Rmax_bounds.
Qed.

End camber_facts.

(** X14.  The camber line of a 4-digit generation stays between the chord
    line and the maximum camber: every ordinate lies in [0, m], so for a
    non-negative chord the [max_camber] metric lies in [0, m * chord].  When
    [p > 0] the two pieces of the camber line meet at [x = p] with the
    ordinate [m] and the slope 0. *)
Theorem naca4_camber_bounded (s : string) (chord0 : R) (n : Z) (sp : string)
    (out : full_result) :
  naca4.generate_naca4_full s chord0 n sp = Ok out →
  ∃ (q : naca4.NACA4Params) (v : R),
    naca4.parse_naca4 s chord0 = Ok q
    ∧ Forall (fun y => 0 <= y <= naca4.m q) (yc out)
    ∧ metrics out !! "max_camber" = Some (VFloat v)
    ∧ (0 <= chord0 → 0 <= v <= naca4.m q * chord0)
    ∧ (naca4.p q ≠ 0 →
       ∃ ci di, naca4.camber_at (naca4.m q) (naca4.p q) (naca4.p q) = Ok (ci, di)
                ∧ ci = naca4.m q ∧ di = 0).
Proof.
  intros H. apply chord_facts.full_eval in H
    as (q & x & yt & yc0 & sf & mt & mc & Hq & Hs & Hmt & Hmc & ->).
  pose proof (naca4_facts.parse_naca4_ranges _ _ _ Hq) as (Hm & Hp & _).
  pose proof (naca4_facts.generate_surfaces_lengths _ _ _ _ _ _ _ Hs)
    as (_ & Hx & _ & Hlx & Hlyc & _).
  unfold naca4.generate_surfaces in Hs. rewrite Hx in Hs.
  cbn [mbind result_bind] in Hs. inv_bind Hs as [yc1 d] Hcd. cbn [fst snd] in Hs.
  assert (yc1 = yc0) as -> by (unfold mret, result_ret in Hs; congruence).
  assert (Forall (fun y => 0 <= y <= naca4.m q) yc0) as Hall.
  { apply Forall_lookup. intros i y Hy.
    assert (i < Z.to_nat n)%nat as Hi
      by (apply lookup_lt_Some in Hy; lia).
    pose proof (sample_facts.sample_x_lookup _ _ _ i Hx Hi) as Hxi.
    destruct (endpoint_facts.camber_lookup _ _ _ _ _ _ _ Hcd Hxi)
      as (ci & di & Hci & _ & Hz & Hnz).
    rewrite Hy in Hci. injection Hci as <-.
    destruct (Req_dec_T (naca4.p q) 0) as [Hp0|Hp0].
    - destruct (Hz Hp0) as [-> _]. lra.
    - eapply camber_facts.camber_at_range; [| |apply
        (sample_facts.sample_position_range _ sp i Hi)|by apply Hnz]; lra. }
  exists q, (mc * chord0). split_and!; [done|done| | |].
  - unfold aux.full_of. cbn [metrics list_to_map foldr uncurry].
    rewrite !lookup_insert_ne by done. apply lookup_insert_eq.
  - intros Hc.
    assert (0 <= mc <= naca4.m q) as Hb.
    { eapply camber_facts.max_bounds; [exact Hmc|].
      apply Forall_lookup. intros i y Hy.
      change (map ?f ?l) with (f <$> l) in Hy.
      rewrite list_lookup_fmap in Hy.
      destruct (yc0 !! i) as [y0|] eqn:Hy0; [|done]. injection Hy as <-.
      rewrite Forall_lookup in Hall. specialize (Hall _ _ Hy0).
      rewrite Rabs_pos_eq; lra. }
    nra.
  - intros Hp0. apply camber_facts.camber_at_peak. lra.
Qed.

Lemma naca4_camber_bounded_witness :
  ∃ out v, naca4.generate_naca4_full "2412" 1 200 "cosine" = Ok out
           ∧ metrics out !! "max_camber" = Some (VFloat v)
           ∧ 0 <= v <= 2 / 100 * 1.
Proof.
  destruct naca4_2412_generates as [out H]. exists out.
  destruct (naca4_camber_bounded "2412" 1 200 "cosine" out H)
    as (q & v & Hq & _ & Hv & Hb & _).
  exists v. split; [exact H|]. split; [exact Hv|].
  rewrite naca4_2412_parse in Hq. injection Hq as <-. apply Hb. lra.
Defined.

(** * The camber scale of the 5-digit family *)

Module k1_facts.
Import naca5 pyfloat float_facts.

Lemma round_inv x y : round x = Finite y → y = x.
Proof.
  unfold round. destruct (Rle_dec overflow_bound x); [done|].
  destruct (Rle_dec x (- overflow_bound)); [done|]. by intros [= <-].
Qed.

(** The square root in [N(r)] and the quotient over it. *)
Lemma N_quotient r :
  0 < r < 1 →
  let s := R_sqrt.sqrt (r - r ^ 2) in
  0 < s <= 1 / 2
  ∧ (3 * r - 7 * r ^ 2 + 8 * r ^ 3 - 4 * r ^ 4) / s = s * (3 - 4 * (s * s))
  ∧ s * s = r - r ^ 2.
Proof.
  intros Hr s.
  assert (0 < r - r ^ 2 <= 1 / 4) as Hd.
  { pose proof (Rmult_lt_0_compat r (1 - r) ltac:(lra) ltac:(lra)).
    pose proof (pow2_ge_0 (r - 1 / 2)). lra. }
  assert (s * s = r - r ^ 2) as Hss by (apply sqrt_sqrt; lra).
  assert (0 < s) as Hs0 by (apply sqrt_lt_R0; lra).
  assert (s <= 1 / 2) as Hs1.
  { unfold s. rewrite <- (sqrt_square (1 / 2)) by lra. apply sqrt_le_1_alt. lra. }
  split; [lra|]. split; [|done].
  apply Rmult_eq_reg_r with s; [|lra].
  unfold Rdiv. rewrite Rmult_assoc, Rinv_l, Rmult_1_r by lra.
  replace (s * (3 - 4 * (s * s)) * s) with ((s * s) * (3 - 4 * (s * s))) by ring.
  rewrite Hss. ring.
Qed.

(** Inside (0, 1) nothing overflows and nothing raises in [N(r)]. *)
Lemma N_of_r_finite r : 0 < r < 1 → N_of_r (Finite r) = Ok (Finite (N_exact r)).
Proof.
  intros Hr. destruct (N_quotient r Hr) as (Hs & Hq & Hss).
  assert (0 <= r ^ 2 <= 1 ∧ 0 <= r ^ 3 <= 1 ∧ 0 <= r ^ 4 <= 1) as (H2 & H3 & H4).
  { pose proof (pow_incr r 1 2 ltac:(lra)). pose proof (pow_incr r 1 3 ltac:(lra)).
    pose proof (pow_incr r 1 4 ltac:(lra)). rewrite pow1 in *.
    split_and!; try done; apply pow_le; lra. }
  assert (0 < r - r ^ 2 <= 1 / 4) as Hd by (rewrite <- Hss; nra).
  pose proof PI_RGT_0 as Hpi0. pose proof PI_4 as Hpi4.
  pose proof (asin_bound (1 - 2 * r)) as Ha.
  unfold N_of_r, pow.
  rewrite !round_small by lra. cbn [mbind result_bind mul].
  rewrite !round_small by lra. cbn [sub opp add].
  rewrite (round_small (3 * r + - (7 * r ^ 2))) by lra. cbn [add].
  rewrite (round_small (3 * r + - (7 * r ^ 2) + 8 * r ^ 3)) by lra. cbn [add].
  rewrite (round_small (r + - r ^ 2)) by lra.
  cbn [pymath.sqrt].
  destruct (Rlt_dec (r + - r ^ 2) 0) as [E|_]; [lra|].
  cbn [mbind result_bind sub opp add].
  rewrite (round_small (3 * r + - (7 * r ^ 2) + 8 * r ^ 3 + - (4 * r ^ 4))) by lra.
  cbn [div].
  change (r + - r ^ 2) with (r - r ^ 2) in *.
  change (3 * r + - (7 * r ^ 2) + 8 * r ^ 3 + - (4 * r ^ 4))
    with (3 * r - 7 * r ^ 2 + 8 * r ^ 3 - 4 * r ^ 4).
  set (s := R_sqrt.sqrt (r - r ^ 2)) in *.
  destruct (Req_dec_T s 0) as [E|_]; [lra|].
  rewrite (round_small (_ / s)) by (rewrite Hq; nra).
  cbn [mbind result_bind].
  rewrite (round_small (1 + - (2 * r))) by lra.
  destruct (Req_dec_T 2 0) as [E|_]; [lra|].
  rewrite (round_small (PI / 2)) by lra.
  cbn [mbind result_bind pymath.asin].
  change (1 + - (2 * r)) with (1 - 2 * r).
  destruct (Rlt_dec (1 - 2 * r) (-1)) as [E|_]; [lra|].
  destruct (Rlt_dec 1 (1 - 2 * r)) as [E|_]; [lra|].
  cbn [mbind result_bind mret result_ret mul sub opp add].
  rewrite (round_small (1.5 * (1 - 2 * r))) by lra.
  rewrite (round_small (PI / 2 + - Ratan.asin (1 - 2 * r))) by lra.
  cbn [mul].
  assert (-10 <= 1.5 * (1 - 2 * r) * (PI / 2 + - Ratan.asin (1 - 2 * r)) <= 10)
    as Hb by nra.
  rewrite (round_small (1.5 * (1 - 2 * r) * _)) by lra.
  cbn [opp add]. fold s in Hq.
  rewrite round_small by (rewrite Hq; nra).
  reflexivity.
Qed.

(** [k1] for an [L] that converts to a float. *)
Lemma k1_of_N l0 r :
  - overflow_bound < IZR l0 < overflow_bound →
  _compute_k1_standard l0 r =
    n ← N_of_r r; div (Finite (6 * (0.15 * IZR l0))) n.
Proof.
  intros Hl. unfold _compute_k1_standard, of_int.
  rewrite (round_finite (IZR l0)) by done.
  cbn [mbind result_bind mul].
  rewrite (round_finite (0.15 * IZR l0)) by lra.
  cbn [mul]. by rewrite (round_finite (6 * _)) by lra.
Qed.

Lemma digit_converts l0 : (0 ≤ l0 ≤ 9)%Z → - overflow_bound < IZR l0 < overflow_bound.
Proof.
  intros [H0 H9]. apply IZR_le in H0, H9. pose proof overflow_bound_large. lra.
Qed.

(** [_compute_k1_standard] at [r = 1/2], where [N(r) = 1]. *)
Lemma k1_at_half l0 :
  (0 ≤ l0 ≤ 9)%Z →
  _compute_k1_standard l0 (Finite (1 / 2)) = Ok (Finite (6 * (0.15 * IZR l0) / 1)).
Proof.
  intros Hl. rewrite (k1_of_N _ _ (digit_converts _ Hl)), N_of_r_finite by lra.
  assert (N_exact (1 / 2) = 1) as ->.
  { unfold N_exact. destruct (N_quotient (1 / 2) ltac:(lra)) as (_ & -> & _).
    assert (R_sqrt.sqrt (1 / 2 - (1 / 2) ^ 2) = 1 / 2) as ->
      by (apply sqrt_lem_1; lra).
    lra. }
  cbn [mbind result_bind div]. destruct (Req_dec_T 1 0) as [E|_]; [lra|].
  destruct Hl as [H0 H9]. apply IZR_le in H0, H9.
  by rewrite round_small by lra.
Qed.

(** *** [N(r)] is positive *)

Lemma lim_den1 x : derivable_pt_lim (fun y => 3 * (1 + y ^ 2)) x (6 * x).
Proof.
  replace (6 * x) with (3 * (0 + INR 2 * x ^ pred 2)) by (simpl; lra).
  apply (derivable_pt_lim_scal (fun y => 1 + y ^ 2) 3 x).
  apply (derivable_pt_lim_plus (fun _ => 1) (fun y => y ^ 2)).
  - apply (derivable_pt_lim_const 1).
  - apply derivable_pt_lim_pow.
Qed.

Lemma lim_den3 x :
  derivable_pt_lim (fun y => 3 * (1 + y ^ 2) ^ 3) x (18 * x * (1 + x ^ 2) ^ 2).
Proof.
  replace (18 * x * (1 + x ^ 2) ^ 2)
    with (3 * ((INR 3 * (1 + x ^ 2) ^ pred 3) * (0 + INR 2 * x ^ pred 2)))
    by (simpl; lra).
  apply (derivable_pt_lim_scal (fun y => (1 + y ^ 2) ^ 3) 3 x).
  apply (derivable_pt_lim_comp (fun y => 1 + y ^ 2) (fun z => z ^ 3)).
  - apply (derivable_pt_lim_plus (fun _ => 1) (fun y => y ^ 2)).
    + apply (derivable_pt_lim_const 1).
    + apply derivable_pt_lim_pow.
  - apply derivable_pt_lim_pow.
Qed.

Lemma atan_gap_lim x : derivable_pt_lim atan_gap x (atan_gap_slope x).
Proof.
  assert (0 < 1 + x ^ 2) as Hq by (pose proof (pow2_ge_0 x); lra).
  unfold atan_gap_slope.
  apply (derivable_pt_lim_minus
           (fun t => t - t ^ 3 / (3 * (1 + t ^ 2)) - atan t)
           (fun t => t ^ 6 / (3 * (1 + t ^ 2) ^ 3))).
  - apply (derivable_pt_lim_minus
             (fun t => t - t ^ 3 / (3 * (1 + t ^ 2))) atan).
    + apply (derivable_pt_lim_minus id (fun t => t ^ 3 / (3 * (1 + t ^ 2)))).
      * apply derivable_pt_lim_id.
      * replace (3 * x ^ 2) with (INR 3 * x ^ pred 3) by (simpl; lra).
        apply (derivable_pt_lim_div (fun t => t ^ 3) (fun t => 3 * (1 + t ^ 2))).
        -- apply derivable_pt_lim_pow.
        -- apply lim_den1.
        -- lra.
    + apply derivable_pt_lim_atan.
  - replace (6 * x ^ 5) with (INR 6 * x ^ pred 6) by (simpl; lra).
    apply (derivable_pt_lim_div (fun t => t ^ 6) (fun t => 3 * (1 + t ^ 2) ^ 3)).
    + apply derivable_pt_lim_pow.
    + apply lim_den3.
    + assert (0 < (1 + x ^ 2) ^ 3) by (apply pow_lt; lra). lra.
Qed.

Lemma atan_gap_slope_nonneg x : 0 <= atan_gap_slope x.
Proof.
  assert (0 < 1 + x ^ 2) as Hq by (pose proof (pow2_ge_0 x); lra).
  assert (atan_gap_slope x
          = 2 * x ^ 4 * ((1 + x ^ 2) ^ 2 - 3 * x) / (3 * (1 + x ^ 2) ^ 4)) as ->.
  { unfold atan_gap_slope, Rsqr. field. lra. }
  apply Rmult_le_pos.
  - apply Rmult_le_pos.
    + assert (0 <= x ^ 4)
        by (replace (x ^ 4) with ((x ^ 2) ^ 2) by ring; apply pow2_ge_0).
      lra.
    + pose proof (pow2_ge_0 (x ^ 2 - 1 / 3)).
      pose proof (pow2_ge_0 (x - 9 / 16)). nra.
  - left. apply Rinv_0_lt_compat.
    assert (0 < (1 + x ^ 2) ^ 4) by (apply pow_lt; lra). lra.
Qed.

Lemma atan_gap_increasing : increasing atan_gap.
Proof.
  apply (nonneg_derivative_1 atan_gap
           (fun x => exist _ (atan_gap_slope x) (atan_gap_lim x))).
  intros x. cbn. apply atan_gap_slope_nonneg.
Qed.

Lemma atan_upper t :
  0 <= t →
  atan t <= t - t ^ 3 / (3 * (1 + t ^ 2)) - t ^ 6 / (3 * (1 + t ^ 2) ^ 3).
Proof.
  intros Ht. pose proof (atan_gap_increasing 0 t Ht) as H.
  unfold atan_gap at 1 in H. rewrite atan_0 in H. unfold atan_gap in H.
  replace (0 - 0 ^ 3 / (3 * (1 + 0 ^ 2)) - 0 - 0 ^ 6 / (3 * (1 + 0 ^ 2) ^ 3))
    with 0 in H by (simpl; field).
  lra.
Qed.

(** Before the middle of the chord the arc sine of [N(r)] is an arc
    tangent. *)
Lemma N_exact_atan r :
  0 < r < 1 / 2 →
  let s := R_sqrt.sqrt (r - r ^ 2) in
  N_exact r = s * (3 - 4 * (s * s)) - 1.5 * (1 - 2 * r) * atan (2 * s / (1 - 2 * r)).
Proof.
  intros Hr s. destruct (N_quotient r ltac:(lra)) as (Hs & Hq & Hss).
  fold s in Hs, Hq, Hss. unfold N_exact. fold s. rewrite Hq.
  set (c := 1 - 2 * r). assert (0 < c < 1) as Hc by (unfold c; lra).
  assert (R_sqrt.sqrt (1 - c²) = 2 * s) as Hroot.
  { apply sqrt_lem_1; [unfold Rsqr, c; nra|lra|].
    replace (2 * s * (2 * s)) with (4 * (s * s)) by ring. rewrite Hss.
    unfold Rsqr, c. ring. }
  rewrite asin_atan by lra. rewrite Hroot.
  rewrite <- (atan_inv (c / (2 * s))) by (apply Rdiv_lt_0_compat; lra).
  do 3 f_equal. field. lra.
Qed.

Lemma N_exact_lower r :
  0 < r < 1 / 2 → 32 * (1 - 2 * r) * (r - r ^ 2) ^ 3 <= N_exact r.
Proof.
  intros Hr. rewrite (N_exact_atan r Hr).
  destruct (N_quotient r ltac:(lra)) as (Hs & _ & Hss).
  set (s := R_sqrt.sqrt (r - r ^ 2)) in *.
  set (c := 1 - 2 * r). assert (0 < c < 1) as Hc by (unfold c; lra).
  assert (c ^ 2 + 4 * (s * s) = 1) as Hcs by (rewrite Hss; unfold c; ring).
  set (t := 2 * s / c).
  assert (0 <= t) as Ht by (unfold t; left; apply Rdiv_lt_0_compat; lra).
  pose proof (atan_upper t Ht) as Ha.
  assert (1 + t ^ 2 = / c ^ 2) as Hq.
  { replace (1 + t ^ 2) with ((c ^ 2 + 4 * (s * s)) / c ^ 2)
      by (unfold t; field; lra).
    rewrite Hcs. unfold Rdiv. ring. }
  rewrite Hq in Ha.
  assert (t ^ 3 / (3 * / c ^ 2) = 8 * s ^ 3 / (3 * c)) as E1
    by (unfold t; field; lra).
  assert (t ^ 6 / (3 * (/ c ^ 2) ^ 3) = 64 * s ^ 6 / 3) as E2
    by (unfold t; field; lra).
  rewrite E1, E2 in Ha.
  assert (1.5 * c * atan t <= 1.5 * c * (t - 8 * s ^ 3 / (3 * c) - 64 * s ^ 6 / 3))
    as Hm by (apply Rmult_le_compat_l; lra).
  assert (1.5 * c * (t - 8 * s ^ 3 / (3 * c) - 64 * s ^ 6 / 3)
          = 3 * s - 4 * s ^ 3 - 32 * c * s ^ 6) as E3
    by (unfold t; replace 1.5 with (3 / 2) by lra; field; lra).
  assert ((r - r ^ 2) ^ 3 = s ^ 6) as -> by (rewrite <- Hss; ring).
  rewrite E3 in Hm. lra.
Qed.

(** From the first sample of the range of [P] on, [N(r)] stays away from 0. *)
Lemma N_exact_positive r : 0.05 <= r < 0.9 → 0.0006 <= N_exact r.
Proof.
  intros Hr. destruct (N_quotient r ltac:(lra)) as (Hs & Hq & Hss).
  destruct (Rle_dec r 0.4) as [H4|H4]; [|destruct (Rlt_dec r (1 / 2)) as [H5|H5]].
  - pose proof (N_exact_lower r ltac:(lra)) as Hl.
    assert (0.0475 <= r - r ^ 2) as Hw by nra.
    pose proof (pow_incr 0.0475 (r - r ^ 2) 3 ltac:(lra)) as Hw3.
    assert (0.0475 ^ 3 >= 0.0001) as Hn by lra.
    assert (0.2 * (r - r ^ 2) ^ 3 <= (1 - 2 * r) * (r - r ^ 2) ^ 3)
      by (apply Rmult_le_compat_r; lra).
    lra.
  - rewrite (N_exact_atan r ltac:(lra)).
    set (s := R_sqrt.sqrt (r - r ^ 2)) in *. cbn zeta.
    pose proof (atan_bound (2 * s / (1 - 2 * r))) as Ha.
    pose proof PI_4. pose proof PI_RGT_0.
    assert (0.48 <= s) by nra.
    assert (1.5 * (1 - 2 * r) * atan (2 * s / (1 - 2 * r)) <= 0.6) by nra.
    nra.
  - unfold N_exact. rewrite Hq.
    set (s := R_sqrt.sqrt (r - r ^ 2)) in *.
    pose proof (asin_bound (1 - 2 * r)) as Ha.
    assert (0.3 <= s) by nra.
    assert (0 <= - (1.5 * (1 - 2 * r)) * (PI / 2 - Ratan.asin (1 - 2 * r)))
      by (apply Rmult_le_pos; lra).
    nra.
Qed.

(** So [k1] is a finite float for every digit [L]. *)
Lemma k1_finite l0 r :
  (0 ≤ l0 ≤ 9)%Z → 0.05 <= r < 0.9 →
  ∃ k, _compute_k1_standard l0 (Finite r) = Ok (Finite k).
Proof.
  intros Hl Hr. pose proof (N_exact_positive r Hr) as Hn.
  rewrite (k1_of_N _ _ (digit_converts _ Hl)), N_of_r_finite by lra.
  cbn [mbind result_bind div].
  destruct (Req_dec_T (N_exact r) 0) as [E|_]; [lra|].
  destruct Hl as [H0 H9]. apply IZR_le in H0, H9.
  eexists. rewrite round_small; [reflexivity|].
  assert (0 <= 6 * (0.15 * IZR l0) / N_exact r <= 9 / 0.0006); [|lra].
  split.
  - apply Rmult_le_pos; [lra|]. left. apply Rinv_0_lt_compat. lra.
  - apply Rmult_le_compat; [lra| |lra|].
    + left. apply Rinv_0_lt_compat. lra.
    + apply Rinv_le_contravar; lra.
Qed.

(** The surfaces of a standard 5-digit code with [P] from 1 to 8. *)
Lemma naca5_surfaces_total q n sp :
  (0 ≤ L q ≤ 9)%Z → Q q = 0%Z → (1 ≤ P q ≤ 8)%Z →
  (0 ≤ n)%Z → sp = "cosine" ∨ sp = "linear" →
  is_Ok (generate_surfaces q n sp).
Proof.
  intros HL HQ HP Hn Hsp. unfold generate_surfaces. rewrite HQ.
  change (0 =? 1)%Z with false. cbn match.
  destruct (array_facts.sample_x_total n sp Hn Hsp) as [x ->].
  cbn [mbind result_bind].
  destruct (solver_facts.scaled_digit 0.05 (P q) ltac:(lra) ltac:(lia)) as [E1 E2].
  rewrite E1. cbn [mbind result_bind]. rewrite E2.
  assert (0.05 <= 0.05 * IZR (P q) <= 0.4) as Hx.
  { destruct HP as [H1 H8]. apply IZR_le in H1, H8. lra. }
  destruct (solver_run_small (0.05 * IZR (P q)) ltac:(lra))
    as (k & Hk & Hrun & _ & _ & Hr & _).
  rewrite (naca5_facts.compute_r_of_run _ _ _ _ Hrun).
  cbn [mbind result_bind solver_at r_old].
  pose proof (solver_facts.r_iter_above (0.05 * IZR (P q)) k ltac:(lra) ltac:(lia)).
  destruct (k1_finite (L q) (r_iter (0.05 * IZR (P q)) k) HL ltac:(lra)) as [k1 ->].
  cbn [mbind result_bind]. unfold camber.
  destruct x; cbn [mbind result_bind]; by eexists.
Qed.

Lemma full5_total s c n sp q :
  parse_naca5 s c = Ok q → Q q = 0%Z → (1 ≤ P q ≤ 8)%Z →
  (1 ≤ n)%Z → sp = "cosine" ∨ sp = "linear" →
  is_Ok (generate_naca5_full s c n sp).
Proof.
  intros Hq HQ HP Hn Hsp.
  destruct (solver_facts.parse_naca5_fields _ _ _ Hq) as (HL & _ & _ & _).
  destruct (naca5_surfaces_total q n sp HL HQ HP ltac:(lia) Hsp)
    as [[[[x yt] yc0] sf] Hs].
  pose proof (contour_facts.naca5_surfaces_lengths _ _ _ _ _ _ _ Hs)
    as (Hlx & Hxu & Hyu & Hxl & Hyl).
  assert (length yt = Z.to_nat n ∧ length yc0 = Z.to_nat n) as [Hyt Hyc].
  { unfold generate_surfaces in Hs. facade_facts.unravel Hs.
    injection Hs as <- <- <- _.
    match goal with H : camber _ _ _ = Ok _ |- _ =>
      apply contour_facts.naca5_camber_length in H end.
    rewrite array_facts.thickness_length, length_map. split; congruence. }
  unfold generate_naca5_full. rewrite Hq. cbn [mbind result_bind].
  unfold generate_geometry. rewrite Hs.
  cbn [mbind result_bind mret result_ret g_x_loop g_y_loop g_x_c g_yc g_x g_yt].
  unfold compute_metrics.
  destruct (array_facts.max_total (map (Rmult 2) yt)) as [a ->].
  { rewrite length_map. lia. }
  destruct (array_facts.max_total (map Rabs yc0)) as [b ->].
  { rewrite length_map. lia. }
  cbn [mbind result_bind].
  match goal with |- context [common.shoelace ?xs ?ys] =>
    destruct (array_facts.shoelace_total xs ys) as [ar ->] end.
  { unfold common.assemble. cbn [fst snd].
    rewrite length_map, !array_facts.closed_loop_length. lia. }
  by eexists.
Qed.

End k1_facts.

(** X16.  The 5-digit camber is proportional to [L]: for an integer [L]
    that converts to a float (every digit does) and the same [r],
    [_compute_k1_standard L r] fails exactly as [_compute_k1_standard 1 r]
    fails, and where that one returns the finite [u] it returns the float of
    [L * u]; the camber ordinate and slope of the loop are proportional to
    [k1].  In particular [L = 0] gives a zero camber line. *)
Theorem camber_scale_proportional_to_L (l0 : Z) (r : float) :
  - pyfloat.overflow_bound < IZR l0 < pyfloat.overflow_bound →
  (∀ e, naca5._compute_k1_standard 1 r = Raise e →
        naca5._compute_k1_standard l0 r = Raise e)
  ∧ (∀ u, naca5._compute_k1_standard 1 r = Ok (Finite u) →
          naca5._compute_k1_standard l0 r = Ok (pyfloat.round (IZR l0 * u)))
  ∧ (∀ k r' xi,
       (naca5.camber_at (IZR l0 * k) r' xi).1
       = IZR l0 * (naca5.camber_at k r' xi).1
       ∧ (naca5.camber_at (IZR l0 * k) r' xi).2
         = IZR l0 * (naca5.camber_at k r' xi).2).
Proof.
  intros Hl.
  rewrite (k1_facts.k1_of_N l0 r Hl),
    (k1_facts.k1_of_N 1 r (k1_facts.digit_converts 1 ltac:(lia))).
  split_and!.
  - intros e. destruct (naca5.N_of_r r) as [n|e1]; cbn [mbind result_bind]; [|done].
    unfold pyfloat.div. destruct n as [y| | |]; try done.
    by destruct (Req_dec_T y 0).
  - intros u. destruct (naca5.N_of_r r) as [n|e1]; cbn [mbind result_bind]; [|done].
    unfold pyfloat.div. destruct n as [y| | |]; try done.
    + destruct (Req_dec_T y 0) as [|Hy]; [done|].
      intros [= Hu]. apply k1_facts.round_inv in Hu. subst u. do 2 f_equal.
      field. exact Hy.
    + intros [= <-]. by rewrite Rmult_0_r, float_facts.round_small by lra.
    + intros [= <-]. by rewrite Rmult_0_r, float_facts.round_small by lra.
  - intros k r' xi. unfold naca5.camber_at.
    destruct (Rlt_dec xi r'); cbn [fst snd]; split; lra.
Qed.

Lemma camber_scale_proportional_to_L_witness :
  ∃ u, naca5._compute_k1_standard 1 (Finite (1 / 2)) = Ok (Finite u)
       ∧ naca5._compute_k1_standard 2 (Finite (1 / 2))
         = Ok (pyfloat.round (2 * u)).
Proof.
  eexists. split; [exact (k1_facts.k1_at_half 1 ltac:(lia))|].
  exact (proj1 (proj2 (camber_scale_proportional_to_L 2 (Finite (1 / 2))
                         (k1_facts.digit_converts 2 ltac:(lia))))
           _ (k1_facts.k1_at_half 1 ltac:(lia))).
Defined.

(** * Every family returns a closed contour *)

Lemma naca5_23012_parse :
  naca5.parse_naca5 "23012" 1 =
    Ok {| naca5.code := "23012"; naca5.L := 2; naca5.P := 3; naca5.Q := 0;
          naca5.t := 12 / 100; naca5.chord := 1 |}.
Proof. reflexivity. Qed.

(** C2.  Every family returns a closed contour for every sample count
    [N >= 1] and known spacing, on every code that it accepts (for the
    5-digit family: with the standard camber line and a [P] digit from 1 to
    8; for the 7- and 8-series: with a [base4] that the 4-digit parser
    accepts).  A returned contour is the upper surface reversed (trailing
    edge first) followed by the lower surface from index 1 on, the x
    coordinates scaled by the chord.  It has [N >= 1] and exactly [2N-1]
    points: position [j < N] holds upper sample [N-1-j], position [N-1+j]
    holds lower sample [j] for [1 <= j < N], so the leading-edge sample
    (index 0) appears once, at position [N-1]. *)
Theorem contour_has_2N_minus_1_points (fam : family) (s : string) (chord0 : R)
    (n : Z) (sp : string) :
  (aux.generates fam s chord0 → (1 ≤ n)%Z → sp = "cosine" ∨ sp = "linear" →
   is_Ok (generate_full fam s chord0 n sp))
  ∧ ∀ out : full_result,
      generate_full fam s chord0 n sp = Ok out →
      (1 ≤ n)%Z
      ∧ ∃ sf : common.surfaces,
          family_surfaces fam s chord0 n sp = Ok sf
          ∧ x_loop out = map (fun v => v * chord0)
                             (reverse (common.xu sf) ++ drop 1 (common.xl sf))
          ∧ y_loop out = reverse (common.yu sf) ++ drop 1 (common.yl sf)
          ∧ Z.of_nat (length (x_loop out)) = (2 * n - 1)%Z
          ∧ Z.of_nat (length (y_loop out)) = (2 * n - 1)%Z
          ∧ (∀ j, (j < Z.to_nat n)%nat →
               x_loop out !! j
                 = (fun v => v * chord0) <$> common.xu sf !! (Z.to_nat n - 1 - j)%nat
               ∧ y_loop out !! j = common.yu sf !! (Z.to_nat n - 1 - j)%nat)
          ∧ (∀ j, (1 ≤ j < Z.to_nat n)%nat →
               x_loop out !! (Z.to_nat n - 1 + j)%nat
                 = (fun v => v * chord0) <$> common.xl sf !! j
               ∧ y_loop out !! (Z.to_nat n - 1 + j)%nat = common.yl sf !! j).
Proof.
  split.
  - intros Hg Hn Hsp. destruct fam; cbn [aux.generates generate_full] in *.
    + destruct Hg as [q Hq]. exact (naca4_facts.full_total _ _ _ _ _ Hq Hn Hsp).
    + destruct Hg as (q & Hq & HQ & HP).
      exact (k1_facts.full5_total _ _ _ _ _ Hq HQ HP Hn Hsp).
    + destruct Hg as [q Hq]. exact (naca6_facts.full6_total _ _ _ _ _ Hq Hn Hsp).
    + destruct Hg as (q & Hq & q4 & H4).
      destruct (naca4_facts.full_total _ _ _ _ _ H4 Hn Hsp) as [r4 Hr].
      unfold naca7.generate_naca7_full. rewrite Hq. cbn [mbind result_bind].
      rewrite Hr. by eexists.
    + destruct Hg as (q & Hq & q4 & H4).
      destruct (naca4_facts.full_total _ _ _ _ _ H4 Hn Hsp) as [r4 Hr].
      unfold naca8.generate_naca8_full. rewrite Hq. cbn [mbind result_bind].
      rewrite Hr. by eexists.
  - intros out H.
    apply contour_facts.family_assembled in H as (Hn & sf & Hsf & Ha).
    split; [done|]. exists sf.
    destruct Ha as (Hxu & Hyu & Hxl & Hyl & Hx & Hy).
    assert (1 ≤ Z.to_nat n)%nat as Hn' by lia.
    destruct (contour_facts.loop_positions (common.xu sf) (common.xl sf) _ Hxu Hxl Hn')
      as (Lx & Ux & Dx).
    destruct (contour_facts.loop_positions (common.yu sf) (common.yl sf) _ Hyu Hyl Hn')
      as (Ly & Uy & Dy).
    split_and!; try done.
    + rewrite Hx, length_map, Lx. lia.
    + rewrite Hy, Ly. lia.
    + intros j Hj. rewrite Hx, Hy, list_lookup_fmap, Ux, Uy by done. done.
    + intros j Hj. rewrite Hx, Hy, list_lookup_fmap, Dx, Dy by done. done.
Qed.

(** One code of each family at 200 cosine samples: 399 points. *)
Lemma contour_has_2N_minus_1_points_witness :
  Forall (fun '(fam, s) =>
            ∃ out, generate_full fam s 1 200 "cosine" = Ok out
                   ∧ Z.of_nat (length (x_loop out)) = 399%Z
                   ∧ Z.of_nat (length (y_loop out)) = 399%Z)
    [(NACA4, "2412"); (NACA5, "23012"); (NACA6, "63-018");
     (NACA7, "72412"); (NACA8, "82412")].
Proof.
  assert (∀ fam s, aux.generates fam s 1 →
            ∃ out, generate_full fam s 1 200 "cosine" = Ok out
                   ∧ Z.of_nat (length (x_loop out)) = 399%Z
                   ∧ Z.of_nat (length (y_loop out)) = 399%Z) as W.
  { intros fam s Hg.
    destruct (contour_has_2N_minus_1_points fam s 1 200 "cosine") as [Ht Hc].
    destruct (Ht Hg ltac:(lia) (or_introl eq_refl)) as [out H].
    exists out. split; [exact H|].
    destruct (Hc out H) as (_ & sf & _ & _ & _ & Hx & Hy & _).
    split; [exact Hx|exact Hy]. }
  repeat apply Forall_cons_2; [..|apply Forall_nil_2]; apply W.
  - eexists. exact naca4_2412_parse.
  - eexists. split; [exact naca5_23012_parse|]. split; [reflexivity|cbn; lia].
  - eexists. exact naca6_63018_parse.
  - exists {| naca7.code := "72412"; naca7.base4 := "2412"; naca7.chord := 1 |}.
    split; [reflexivity|]. eexists. exact naca4_2412_parse.
  - exists {| naca8.code := "82412"; naca8.base4 := "2412"; naca8.chord := 1 |}.
    split; [reflexivity|]. eexists. exact naca4_2412_parse.
Defined.

(** * The sign of the thickness *)

Module thickness_facts.
Import common.

(** The NACA thickness polynomial is non-negative on the unit interval. *)
Lemma thickness_at_nonneg t0 x : 0 <= t0 → 0 <= x <= 1 → 0 <= thickness_at t0 x.
Proof.
  intros Ht [Hx0 Hx1]. unfold thickness_at.
  pose proof (sqrt_pos x) as Hs0.
  assert (sqrt x <= 1) as Hs1.
  { rewrite <- sqrt_1. by apply sqrt_le_1_alt. }
  pose proof (sqrt_sqrt x Hx0) as Hx. revert Hx Hs0 Hs1.
  generalize (sqrt x). intros s <- Hs0 Hs1.
  apply Rmult_le_pos; [lra|].
  set (s2 := s * s). set (s3 := s2 * s). set (s4 := s3 * s).
  set (s5 := s4 * s). set (s6 := s5 * s).
  assert (0 <= s2 <= s) as H2 by (unfold s2; nra).
  assert (0 <= s3 <= s2) as H3 by (unfold s3; nra).
  assert (0 <= s4 <= s3) as H4 by (unfold s4; nra).
  assert (0 <= s5 <= s4) as H5 by (unfold s5; nra).
  assert (0 <= s6 <= s5) as H6 by (unfold s6; nra).
  set (k := 0.2948 + 0.1688 * (s + s2) - 0.1828 * (s3 + s4) + 0.1015 * (s5 + s6)).
  assert (0 <= k) as Hk by (unfold k; lra).
  match goal with |- 0 <= ?e =>
    replace e with (s * (0.0021 + (1 - s) * k))
      by (unfold k, s6, s5, s4, s3, s2; lra) end.
  apply Rmult_le_pos; [done|].
  assert (0 <= (1 - s) * k) by (apply Rmult_le_pos; lra). lra.
Qed.

Lemma foldl_Rmax_lower (l : list R) a : a <= foldl Rmax a l.
Proof.
  revert a. induction l as [|b l IH]; intros a; simpl; [lra|].
  etrans; [|apply IH]. apply Rmax_l.
Qed.

End thickness_facts.

(** X17.  In a 4-digit generation the half thickness is non-negative at
    every sample, so the contour never crosses itself vertically: the point
    of the upper surface at position [N-1-j] is at least as high as the point
    of the lower surface at position [N-1+j], and their height difference is
    at most twice the half thickness there.  For a non-negative chord the
    [max_thickness] metric is non-negative. *)
Theorem naca4_upper_above_lower (s : string) (chord0 : R) (n : Z) (sp : string)
    (out : full_result) :
  naca4.generate_naca4_full s chord0 n sp = Ok out →
  ∃ (q : naca4.NACA4Params) (v : R),
    naca4.parse_naca4 s chord0 = Ok q
    ∧ (∀ j, (1 ≤ j < Z.to_nat n)%nat →
         ∃ a b, y_loop out !! (Z.to_nat n - 1 - j)%nat = Some a
                ∧ y_loop out !! (Z.to_nat n - 1 + j)%nat = Some b
                ∧ b <= a
                ∧ a - b <= 2 * common.thickness_at (naca4.t q)
                                 (sample_position (Z.to_nat n) sp j))
    ∧ metrics out !! "max_thickness" = Some (VFloat v)
    ∧ (0 <= chord0 → 0 <= v).
Proof.
  intros H. apply chord_facts.full_eval in H
    as (q & x & yt & yc0 & sf & mt & mc & Hq & Hs & Hmt & Hmc & ->).
  pose proof (naca4_facts.parse_naca4_ranges _ _ _ Hq) as (_ & _ & Ht).
  pose proof (naca4_facts.generate_surfaces_lengths _ _ _ _ _ _ _ Hs)
    as (_ & Hx & Hyt & Hlx & _ & _ & Hyu & _ & Hlyl).
  unfold naca4.generate_surfaces in Hs. rewrite Hx in Hs.
  cbn [mbind result_bind] in Hs. inv_bind Hs as [yc1 d] Hcd.
  cbn [fst snd] in Hs.
  assert (yc1 = yc0
          ∧ sf = common.surfaces_of x (common.thickness (naca4.t q) x) yc1
                   (map atan d)) as [-> ->].
  { unfold mret, result_ret in Hs. split; congruence. }
  subst yt. clear Hs.
  set (N := Z.to_nat n) in *.
  exists q, (mt * chord0). split_and!; [done| | |].
  - intros j Hj.
    pose proof (sample_facts.sample_x_lookup _ _ _ j Hx ltac:(lia)) as Hxj.
    fold N in Hxj. set (xj := sample_position N sp j) in *.
    pose proof (sample_facts.sample_position_range N sp j ltac:(lia)) as Hr.
    fold xj in Hr.
    destruct (endpoint_facts.camber_lookup _ _ _ _ _ _ _ Hcd Hxj)
      as (cj & dj & Hcj & Hdj & _).
    assert (common.thickness (naca4.t q) x !! j
            = Some (common.thickness_at (naca4.t q) xj)) as Htj.
    { unfold common.thickness. change (map ?f ?l) with (f <$> l).
      by rewrite list_lookup_fmap, Hxj. }
    assert (map atan d !! j = Some (atan dj)) as Hhj.
    { change (map ?f ?l) with (f <$> l). by rewrite list_lookup_fmap, Hdj. }
    destruct (endpoint_facts.surfaces_of_lookup _ _ _ _ _ _ _ _ _
                Hxj Htj Hcj Hhj) as (_ & Hu & _ & Hl).
    fold N in Hyu, Hlyl.
    destruct (contour_facts.loop_positions _ _ N Hyu Hlyl ltac:(lia))
      as (_ & Uy & Dy).
    pose proof (thickness_facts.thickness_at_nonneg (naca4.t q) xj
                  ltac:(lra) Hr) as Hp.
    assert (0 < cos (atan dj) <= 1) as Hc.
    { split; [|apply COS_bound].
      apply cos_gt_0; pose proof (atan_bound dj); lra. }
    eexists _, _. unfold aux.full_of. cbn [y_loop]. unfold np.closed_loop.
    rewrite Uy, Dy by lia.
    replace (N - 1 - (N - 1 - j))%nat with j by lia.
    split; [exact Hu|]. split; [exact Hl|]. nra.
  - unfold aux.full_of. cbn [metrics]. apply metric_facts.lookup_max_thickness.
  - intros Hc.
    assert (0 <= mt); [|nra].
    destruct x as [|x0 x]; [done|]. simpl in Hmt. injection Hmt as <-.
    etrans; [|apply thickness_facts.foldl_Rmax_lower].
    pose proof (sample_facts.sample_x_lookup _ _ _ 0%nat Hx ltac:(simpl in Hlx; lia))
      as Hx0. simpl in Hx0. injection Hx0 as ->.
    assert (0 <= common.thickness_at (naca4.t q) (sample_position (Z.to_nat n) sp 0)).
    { apply thickness_facts.thickness_at_nonneg; [lra|].
      apply sample_facts.sample_position_range. simpl in Hlx. lia. }
    lra.
Qed.

Lemma naca4_upper_above_lower_witness :
  ∃ out a b, naca4.generate_naca4_full "2412" 1 200 "cosine" = Ok out
             ∧ y_loop out !! 189%nat = Some a
             ∧ y_loop out !! 209%nat = Some b ∧ b <= a.
Proof.
  destruct naca4_2412_generates as [out H]. exists out.
  destruct (naca4_upper_above_lower "2412" 1 200 "cosine" out H)
    as (q & v & _ & Hj & _).
  destruct (Hj 10%nat ltac:(lia)) as (a & b & Ha & Hb & Hab & _).
  exists a, b. split_and!; [exact H|exact Ha|exact Hb|exact Hab].
Defined.
